(** * awspricing: pricing resolution and cost arithmetic

    A shallow embedding of [backend/app/cost_engine.py],
    [backend/app/region_mapping.py], [backend/app/public_pricing.py],
    [backend/app/pricing_resolver.py], [backend/app/cache.py],
    [backend/app/main.py] and [backend/app/conversation], together with
    the properties the specification states about them and further
    properties read off the code.  The network, the pricing API, the
    clock and the assistant are an environment that answers each call;
    the calls of the price list and of the pricing API are logged.

    Python [float] is IEEE-754 binary64; it is modelled by [spec_float]
    with precision 53 and maximal exponent 1024, so that every arithmetic
    step rounds as CPython does. *)

From Stdlib Require Import ZArith List Bool Lia.
From Stdlib Require Import Ascii String.
From Stdlib Require Import Floats.SpecFloat.
From Stdlib Require Import Sorting.Sorted Sorting.Permutation.
Import ListNotations.

Local Open Scope Z_scope.

(* ===================================================================== *)
(** ** Python floats *)
(* ===================================================================== *)

Module PyFloat.

Definition float := spec_float.

Definition prec : Z := 53.
Definition emax : Z := 1024.

Definition fadd : float -> float -> float := SFadd prec emax.
Definition fsub : float -> float -> float := SFsub prec emax.
Definition fmul : float -> float -> float := SFmul prec emax.
Definition fdiv : float -> float -> float := SFdiv prec emax.

(** Comparisons: every comparison with a NaN operand is [false],
    except [!=], which is [true]. *)
Definition feq : float -> float -> bool := SFeqb.
Definition flt : float -> float -> bool := SFltb.
Definition fle : float -> float -> bool := SFleb.
Definition fgt (x y : float) : bool := flt y x.
Definition fge (x y : float) : bool := fle y x.
Definition fne (x y : float) : bool := negb (feq x y).

Definition f0 : float := S754_zero false.
Definition finf : float := S754_infinity false.

(** [float(n)] for an integer that converts without overflow, and the
    value of a decimal literal [m / 10^k] whose numerator and denominator
    are exactly representable (division is correctly rounded, as is the
    literal). *)
Definition float_of_Z (z : Z) : float := binary_normalize prec emax z 0 false.
Definition dec (m : Z) (k : nat) : float :=
  fdiv (float_of_Z m) (float_of_Z (10 ^ Z.of_nat k)).

Definition is_nan (x : float) : bool :=
  match x with S754_nan => true | _ => false end.

Definition is_finite (x : float) : bool :=
  match x with S754_zero _ | S754_finite _ _ _ => true | _ => false end.

(** The builtin [min(a, b)]: the first argument unless the second is
    strictly smaller. *)
Definition py_min (a b : float) : float := if flt b a then b else a.

End PyFloat.
Import PyFloat.

(* ===================================================================== *)
(** ** Python values, exceptions and the outside world *)
(* ===================================================================== *)

Module Py.

Local Open Scope string_scope.

(** Exceptions that the modelled code can let escape. *)
Inductive exn : Type :=
| AttributeError
| TypeError
| ValueError
| OverflowError
| ZeroDivisionError.

Inductive result (A : Type) : Type :=
| Ok (a : A)
| Raise (e : exn).
Arguments Ok {A} a.
Arguments Raise {A} e.

Definition rbind {A B : Type} (c : result A) (k : A -> result B) : result B :=
  match c with
  | Ok a => k a
  | Raise e => Raise e
  end.

(** Values as [json.loads] produces them; a dict keeps its insertion
    order, which is the order [items()] iterates in. *)
#[local] Unset Elimination Schemes.
Inductive value : Type :=
| VNone
| VBool (b : bool)
| VInt (z : Z)
| VFloat (f : float)
| VStr (s : string)
| VList (l : list value)
| VDict (d : list (string * value)).
#[local] Set Elimination Schemes.

Definition str_truthy (s : string) : bool :=
  match s with EmptyString => false | _ => true end.

(** Truth value testing ([if x], [not x], [x or y]). *)
Definition truthy (v : value) : bool :=
  match v with
  | VNone => false
  | VBool b => b
  | VInt z => negb (z =? 0)%Z
  | VFloat f => fne f f0
  | VStr s => str_truthy s
  | VList l => match l with [] => false | _ => true end
  | VDict d => match d with [] => false | _ => true end
  end.

Definition py_or (a b : value) : value := if truthy a then a else b.

Definition is_none (v : value) : bool :=
  match v with VNone => true | _ => false end.

Fixpoint lookup (k : string) (d : list (string * value)) : option value :=
  match d with
  | [] => None
  | (k', v) :: rest => if String.eqb k' k then Some v else lookup k rest
  end.

(** [obj.get(key, default)]: only a dict has the method. *)
Definition get_default (obj : value) (key : string) (default : value) : result value :=
  match obj with
  | VDict d => Ok (match lookup key d with Some v => v | None => default end)
  | _ => Raise AttributeError
  end.

(** [obj.get(key)] *)
Definition get (obj : value) (key : string) : result value :=
  get_default obj key VNone.

(** [obj.items()] *)
Definition items (obj : value) : result (list (string * value)) :=
  match obj with
  | VDict d => Ok d
  | _ => Raise AttributeError
  end.

(** The receiver of a [str] method such as [strip] or [lower]. *)
Definition as_str (v : value) : result string :=
  match v with
  | VStr s => Ok s
  | _ => Raise AttributeError
  end.

(** [v == s] for a string [s]. *)
Definition eq_str (v : value) (s : string) : bool :=
  match v with
  | VStr s' => String.eqb s' s
  | _ => false
  end.

(** *** String methods, on ASCII text *)

Definition is_space (c : ascii) : bool :=
  let n := nat_of_ascii c in
  ((9 <=? n) && (n <=? 13) || (28 <=? n) && (n <=? 32))%nat.

Definition lower_ascii (c : ascii) : ascii :=
  let n := nat_of_ascii c in
  if ((65 <=? n) && (n <=? 90))%nat then ascii_of_nat (n + 32) else c.

Fixpoint lower (s : string) : string :=
  match s with
  | EmptyString => EmptyString
  | String c rest => String (lower_ascii c) (lower rest)
  end.

Fixpoint lstrip (s : string) : string :=
  match s with
  | EmptyString => EmptyString
  | String c rest => if is_space c then lstrip rest else s
  end.

Fixpoint rstrip (s : string) : string :=
  match s with
  | EmptyString => EmptyString
  | String c rest =>
      match rstrip rest with
      | EmptyString => if is_space c then EmptyString else String c EmptyString
      | rest' => String c rest'
      end
  end.

Definition strip (s : string) : string := rstrip (lstrip s).

(** [needle in hay] for two strings. *)
Fixpoint contains (needle hay : string) : bool :=
  String.prefix needle hay
  || match hay with
     | EmptyString => false
     | String _ rest => contains needle rest
     end.

Definition startswith (s p : string) : bool := String.prefix p s.

(** [key in obj]: key lookup in a dict, element comparison in a list,
    substring test in a string, [TypeError] for anything else. *)
Definition py_in (key : string) (obj : value) : result bool :=
  match obj with
  | VDict d => Ok (match lookup key d with Some _ => true | None => false end)
  | VList l => Ok (existsb (fun v => eq_str v key) l)
  | VStr s => Ok (contains key s)
  | _ => Raise TypeError
  end.

(** [obj[key]] for a string key that [py_in] found. *)
Definition getitem (obj : value) (key : string) : result value :=
  match obj with
  | VDict d => match lookup key d with Some v => Ok v | None => Raise TypeError end
  | _ => Raise TypeError
  end.

(** *** The outside world *)

(** What [urllib.request.urlopen], [read], [decode] and [json.loads]
    together yield for one URL. *)
Inductive fetch_outcome : Type :=
| Fetched (v : value)
| HTTPError (code reason : string)
| URLError (reason : option string) (str_e : string)
| OtherFetchError (str_e : string).

Definition client := nat.

Inductive client_outcome : Type :=
| ClientCreated (c : client)
| ClientNoCredentials
| ClientFailed (str_e : string).

(** The pages of the [get_products] paginator, each page given by its
    [PriceList]; or the exception raised while paginating. *)
Inductive pages_outcome : Type :=
| Pages (pages : list (list string))
| PagesNoCredentials
| PagesClientError (str_e : string)
| PagesFailed (str_e : string).

(** Every call that leaves the process is logged. *)
Inductive event : Type :=
| EvFetch (url : string)
| EvCreateClient
| EvGetProducts (c : client) (service : string).

Definition log := list event.

(** The environment answers each call as a function of the calls made
    so far; [parse_float] and [json_loads] are the builtins [float] on a
    string and [json.loads] ([None] when they raise [ValueError] or
    [JSONDecodeError]). *)
Record Env : Type := mkEnv {
  parse_float : string -> option float;
  json_loads : string -> option value;
  http_get : log -> string -> fetch_outcome;
  boto3_client : log -> client_outcome;
  paginate : log -> client -> string -> value -> pages_outcome
}.

(** Computations that may raise and that talk to the outside world. *)
Definition M (A : Type) : Type := log -> result A * log.

Definition ret {A : Type} (a : A) : M A := fun l => (Ok a, l).

Definition bind {A B : Type} (c : M A) (k : A -> M B) : M B :=
  fun l =>
    match c l with
    | (Ok a, l') => k a l'
    | (Raise e, l') => (Raise e, l')
    end.

Definition lift {A : Type} (r : result A) : M A := fun l => (r, l).

Declare Scope py_scope.
Delimit Scope py_scope with py.
Notation "x <- c ;; k" := (rbind c (fun x => k))
  (at level 61, c at next level, right associativity) : py_scope.
Notation "' pat <- c ;; k" := (rbind c (fun x => match x with pat => k end))
  (at level 61, pat pattern, c at next level, right associativity) : py_scope.
Notation "x <~ c ;; k" := (bind c (fun x => k))
  (at level 61, c at next level, right associativity) : py_scope.
Notation "' pat <~ c ;; k" := (bind c (fun x => match x with pat => k end))
  (at level 61, pat pattern, c at next level, right associativity) : py_scope.
Open Scope py_scope.

(** *** Loops *)

(** The outcome of one iteration of a loop whose body may [break]. *)
Inductive flow (S : Type) : Type :=
| Continue (s : S)
| Break (s : S).
Arguments Continue {S} s.
Arguments Break {S} s.

Fixpoint for_loop {A S : Type} (body : S -> A -> flow S) (s : S) (l : list A) : S :=
  match l with
  | [] => s
  | x :: rest =>
      match body s x with
      | Continue s' => for_loop body s' rest
      | Break s' => s'
      end
  end.

(** The same, with a body that talks to the outside world. *)
Fixpoint for_loopM {A S : Type} (body : S -> A -> M (flow S))
  (s : S) (l : list A) : M S :=
  match l with
  | [] => ret s
  | x :: rest =>
      r <~ body s x ;;
      match r with
      | Continue s' => for_loopM body s' rest
      | Break s' => ret s'
      end
  end.

(** A loop that updates its locals, and a loop that searches and
    returns from the function at the first hit. *)
Fixpoint foldM {A S : Type} (f : S -> A -> result S) (s : S) (l : list A)
  : result S :=
  match l with
  | [] => Ok s
  | x :: rest => s' <- f s x ;; foldM f s' rest
  end.

Fixpoint first_match {A B : Type} (f : A -> result (option B)) (l : list A)
  : result (option B) :=
  match l with
  | [] => Ok None
  | x :: rest =>
      r <- f x ;;
      match r with
      | Some b => Ok (Some b)
      | None => first_match f rest
      end
  end.

(** [float(v)] *)
Definition py_float (env : Env) (v : value) : result float :=
  match v with
  | VFloat f => Ok f
  | VInt z =>
      match float_of_Z z with
      | S754_infinity _ => Raise OverflowError
      | f => Ok f
      end
  | VBool b => Ok (float_of_Z (if b then 1 else 0))
  | VStr s =>
      match parse_float env s with
      | Some f => Ok f
      | None => Raise ValueError
      end
  | _ => Raise TypeError
  end.

(** [try: x = float(v) except (TypeError, ValueError): ...] *)
Definition try_float (env : Env) (v : value) : result (option float) :=
  match py_float env v with
  | Ok f => Ok (Some f)
  | Raise TypeError | Raise ValueError => Ok None
  | Raise e => Raise e
  end.

(** [x / y] on floats. *)
Definition truediv (x y : float) : result float :=
  if feq y f0 then Raise ZeroDivisionError else Ok (fdiv x y).

End Py.
Import Py.
(* ===================================================================== *)
(** ** cost_engine.py *)
(* ===================================================================== *)

Module CostEngine.

Record TierBand := mkTierBand {
  from_gb : float;
  to_gb : float;             (* [finf] for an open-ended band *)
  rate_per_gb_month : float
}.

Definition cost_from_flat_rate (gb rate : float) : float := fmul gb rate.

(** The two locals of [cost_from_tiers]. *)
Record tier_state := mkTierState { total : float; remaining : float }.

Definition tier_body (st : tier_state) (band : TierBand) : flow tier_state :=
  if fle (remaining st) f0 then Break st
  else
    let band_size :=
      py_min (remaining st)
             (if fne (to_gb band) finf
              then fsub (to_gb band) (from_gb band)
              else remaining st) in
    let total' :=
      if fgt band_size f0
      then fadd (total st) (fmul band_size (rate_per_gb_month band))
      else total st in
    Continue (mkTierState total' (fsub (remaining st) band_size)).

Definition cost_from_tiers (gb : float) (tiers : list TierBand) : float :=
  total (for_loop tier_body (mkTierState f0 gb) tiers).

(** [(cost - reference) / reference * 100], or 0 if reference is 0. *)
Definition delta_pct (cost reference : float) : result float :=
  if feq reference f0 then Ok f0
  else
    q <- truediv (fsub cost reference) reference ;;
    Ok (fmul q (float_of_Z 100)).

Definition TB_CONVERSION_BINARY : Z := 1024.
Definition TB_CONVERSION_DECIMAL : Z := 1000.

(** [float op int]: the integer operand is converted first, which
    raises [OverflowError] when it is too large for a float. *)
Definition int_to_float (z : Z) : result float :=
  match float_of_Z z with
  | S754_infinity _ => Raise OverflowError
  | f => Ok f
  end.

Definition tb_to_gb (tb : float) (binary : bool) : float :=
  let mult := if binary then TB_CONVERSION_BINARY else TB_CONVERSION_DECIMAL in
  fmul tb (float_of_Z mult).

Definition gb_to_tb (gb : float) (binary : bool) : float :=
  let mult := if binary then TB_CONVERSION_BINARY else TB_CONVERSION_DECIMAL in
  fdiv gb (float_of_Z mult).

Definition versioned_gb (base_gb overhead_pct : float) : float :=
  fmul base_gb (fadd (float_of_Z 1) overhead_pct).

(** [1.0 + max(0, num_copy_addons)], on an integer of any size. *)
Definition copy_multiplier (num_copy_addons : Z) : result float :=
  n <- int_to_float (Z.max 0 num_copy_addons) ;;
  Ok (fadd (float_of_Z 1) n).

Definition aws_backup_total (base_gb rate copy_mult flat_addon_usd : float)
  : float :=
  let base_cost := cost_from_flat_rate base_gb rate in
  fadd (fmul base_cost copy_mult) flat_addon_usd.

Definition s3_versioning_total (base_gb overhead_pct : float)
  (tiers : list TierBand) (copy_mult flat_addon_usd : float) : float :=
  let v_gb := versioned_gb base_gb overhead_pct in
  let base_cost := cost_from_tiers v_gb tiers in
  fadd (fmul base_cost copy_mult) flat_addon_usd.

Definition delta_usd (cost reference : float) : float := fsub cost reference.

End CostEngine.

(* ===================================================================== *)
(** ** region_mapping.py *)
(* ===================================================================== *)

Module RegionMapping.

Local Open Scope string_scope.

Definition REGION_TO_LOCATION : list (string * string) :=
  [ ("us-east-1", "US East (N. Virginia)");
    ("us-east-2", "US East (Ohio)");
    ("us-west-1", "US West (N. California)");
    ("us-west-2", "US West (Oregon)");
    ("af-south-1", "Africa (Cape Town)");
    ("ap-east-1", "Asia Pacific (Hong Kong)");
    ("ap-south-1", "Asia Pacific (Mumbai)");
    ("ap-south-2", "Asia Pacific (Hyderabad)");
    ("ap-southeast-1", "Asia Pacific (Singapore)");
    ("ap-southeast-2", "Asia Pacific (Sydney)");
    ("ap-southeast-3", "Asia Pacific (Jakarta)");
    ("ap-southeast-4", "Asia Pacific (Melbourne)");
    ("ap-northeast-1", "Asia Pacific (Tokyo)");
    ("ap-northeast-2", "Asia Pacific (Seoul)");
    ("ap-northeast-3", "Asia Pacific (Osaka)");
    ("ca-central-1", "Canada (Central)");
    ("ca-west-1", "Canada West (Calgary)");
    ("eu-central-1", "EU (Frankfurt)");
    ("eu-central-2", "EU (Zurich)");
    ("eu-west-1", "EU (Ireland)");
    ("eu-west-2", "EU (London)");
    ("eu-west-3", "EU (Paris)");
    ("eu-north-1", "EU (Stockholm)");
    ("eu-south-1", "EU (Milan)");
    ("eu-south-2", "EU (Spain)");
    ("me-south-1", "Middle East (Bahrain)");
    ("me-central-1", "Middle East (UAE)");
    ("sa-east-1", "South America (São Paulo)") ].

Fixpoint table_get (k : string) (t : list (string * string)) : option string :=
  match t with
  | [] => None
  | (k', v) :: rest => if String.eqb k' k then Some v else table_get k rest
  end.

Definition get_location_for_region (region_code : string) : option string :=
  table_get (lower (strip region_code)) REGION_TO_LOCATION.

(** [d[k] = v] on a dict kept in insertion order: an existing key keeps
    its place. *)
Fixpoint table_set (k v : string) (t : list (string * string))
  : list (string * string) :=
  match t with
  | [] => [(k, v)]
  | (k', v') :: rest =>
      if String.eqb k' k then (k', v) :: rest
      else (k', v') :: table_set k v rest
  end.

(** [{v: k for k, v in REGION_TO_LOCATION.items()}] *)
Definition LOCATION_TO_REGION : list (string * string) :=
  fold_left (fun acc kv => table_set (snd kv) (fst kv) acc)
    REGION_TO_LOCATION [].

Definition get_region_for_location (location : string) : option string :=
  table_get location LOCATION_TO_REGION.

End RegionMapping.
(* ===================================================================== *)
(** ** The normalized pricing result *)
(* ===================================================================== *)

Module Pricing.

Local Open Scope string_scope.

(** [PricingResult] has the same fields and defaults in
    [public_pricing.py] and in [pricing_resolver.py]. *)
Record PricingResult : Type := mkPricingResult {
  rate_per_gb_month : option float;
  tiers : list value;
  unit : string;
  currency : string;
  sku : value;
  product_attributes : value;
  term_code : option string;
  price_dimension : value;
  raw_filter_used : value;
  error : option string
}.

(** [PricingResult()] *)
Definition default_result : PricingResult :=
  {| rate_per_gb_month := None; tiers := []; unit := "GB-Mo"; currency := "USD";
     sku := VNone; product_attributes := VDict []; term_code := None;
     price_dimension := VDict []; raw_filter_used := VDict []; error := None |}.

(** Attribute assignments. *)
Definition set_rate (r : PricingResult) (x : float) : PricingResult :=
  {| rate_per_gb_month := Some x; tiers := tiers r; unit := unit r;
     currency := currency r; sku := sku r;
     product_attributes := product_attributes r; term_code := term_code r;
     price_dimension := price_dimension r;
     raw_filter_used := raw_filter_used r; error := error r |}.

Definition set_tiers (r : PricingResult) (x : list value) : PricingResult :=
  {| rate_per_gb_month := rate_per_gb_month r; tiers := x; unit := unit r;
     currency := currency r; sku := sku r;
     product_attributes := product_attributes r; term_code := term_code r;
     price_dimension := price_dimension r;
     raw_filter_used := raw_filter_used r; error := error r |}.

Definition set_error (r : PricingResult) (x : string) : PricingResult :=
  {| rate_per_gb_month := rate_per_gb_month r; tiers := tiers r; unit := unit r;
     currency := currency r; sku := sku r;
     product_attributes := product_attributes r; term_code := term_code r;
     price_dimension := price_dimension r;
     raw_filter_used := raw_filter_used r; error := Some x |}.

Definition set_raw_filter_used (r : PricingResult) (x : value) : PricingResult :=
  {| rate_per_gb_month := rate_per_gb_month r; tiers := tiers r; unit := unit r;
     currency := currency r; sku := sku r;
     product_attributes := product_attributes r; term_code := term_code r;
     price_dimension := price_dimension r;
     raw_filter_used := x; error := error r |}.

Definition set_currency_unit (r : PricingResult) (c u : string) : PricingResult :=
  {| rate_per_gb_month := rate_per_gb_month r; tiers := tiers r; unit := u;
     currency := c; sku := sku r;
     product_attributes := product_attributes r; term_code := term_code r;
     price_dimension := price_dimension r;
     raw_filter_used := raw_filter_used r; error := error r |}.

(** [r.sku = s; r.product_attributes = a; r.term_code = t;
     r.price_dimension = d] *)
Definition set_source (r : PricingResult) (s a : value) (t : string) (d : value)
  : PricingResult :=
  {| rate_per_gb_month := rate_per_gb_month r; tiers := tiers r; unit := unit r;
     currency := currency r; sku := s;
     product_attributes := a; term_code := Some t;
     price_dimension := d;
     raw_filter_used := raw_filter_used r; error := error r |}.

(** [not r.error]: unset or empty. *)
Definition no_error (r : PricingResult) : bool :=
  match error r with
  | None => true
  | Some s => negb (str_truthy s)
  end.

Definition _build_tier_band (from_gb to_gb rate : float) : value :=
  VDict [("from_gb", VFloat from_gb); ("to_gb", VFloat to_gb);
         ("rate_per_gb_month", VFloat rate)].

(** One collected [(from_gb, to_gb, rate)] tuple. *)
Definition triple : Type := float * float * float.

Definition start_of (t : triple) : float := fst (fst t).
Definition end_of (t : triple) : float := snd (fst t).
Definition rate_of (t : triple) : float := snd t.

Definition band_of_triple (t : triple) : value :=
  _build_tier_band (start_of t) (end_of t) (rate_of t).

(** [list.sort(key=lambda x: x[0])] is a stable sort that compares keys
    with [<] only.  Stable insertion gives the list CPython produces
    whenever [<] orders the keys, that is when no key is NaN. *)
Fixpoint insert_by_start (x : triple) (l : list triple) : list triple :=
  match l with
  | [] => [x]
  | y :: rest =>
      if flt (start_of y) (start_of x) then y :: insert_by_start x rest
      else x :: y :: rest
  end.

Fixpoint sort_by_start (l : list triple) : list triple :=
  match l with
  | [] => []
  | x :: rest => insert_by_start x (sort_by_start rest)
  end.

End Pricing.
(* ===================================================================== *)
(** ** public_pricing.py *)
(* ===================================================================== *)

Module PublicPricing.

Import Pricing RegionMapping.
Local Open Scope string_scope.

Section WithEnv.

Variable env : Env.

Definition BASE_URL : string := "https://pricing.us-east-1.amazonaws.com".
Definition OFFERS_BASE : string := BASE_URL ++ "/offers/v1.0/aws".
Definition SERVICE_CODE_S3 : string := "AmazonS3".
Definition SERVICE_CODE_BACKUP : string := "AWSBackup".

(** Returns [(data, error_message)]; no exception leaves it. *)
Definition _fetch_json (url : string) : M (value * string) :=
  fun l =>
    let answer :=
      match http_get env l url with
      | Fetched v => (v, "")
      | HTTPError code reason => (VNone, "HTTP " ++ code ++ ": " ++ reason)
      | URLError reason str_e =>
          (VNone, match reason with Some r => r | None => str_e end)
      | OtherFetchError str_e => (VNone, str_e)
      end in
    (Ok answer, (l ++ [EvFetch url])%list).

Definition _normalize_to_gb_month (price_per_unit : float) (unit : value)
  : result (option float) :=
  s <- as_str (py_or unit (VStr "")) ;;
  let u := lower (strip s) in
  if contains "gb-mo" u || contains "gb-month" u || String.eqb u "gb"
  then Ok (Some price_per_unit)
  else Ok None.

Definition _parse_price_dimension (dim : value) (currency : string)
  : result (option float * value) :=
  pu <- get dim "pricePerUnit" ;;
  price_per_unit <- match pu with
                    | VDict _ => get pu currency
                    | _ => Ok VNone
                    end ;;
  if is_none price_per_unit then
    u <- get_default dim "unit" (VStr "") ;; Ok (None, u)
  else
    p <- try_float env price_per_unit ;;
    u <- get_default dim "unit" (VStr "") ;;
    Ok (p, u).

Definition _get_offer_url_global (service_code : string) : string :=
  OFFERS_BASE ++ "/" ++ service_code ++ "/current/index.json".

Definition _get_offer_url_regional (service_code region_code : string) : string :=
  OFFERS_BASE ++ "/" ++ service_code ++ "/current/" ++ region_code ++ "/index.json".

Definition _resolve_offer_url (service_code : string) : M (option string) :=
  ' (data, _) <~ _fetch_json (OFFERS_BASE ++ "/index.json") ;;
  if negb (truthy data) then ret None
  else
    lift (o <- get data "offers" ;;
          let offers := py_or o (VDict []) in
          offer <- get offers service_code ;;
          if negb (truthy offer) then Ok None
          else
            r1 <- get offer "currentVersionUrl" ;;
            rel <- (if truthy r1 then Ok r1
                    else get offer "currentRegionIndexUrl") ;;
            match rel with
            | VStr s =>
                if negb (str_truthy s) then Ok None
                else if startswith s "/" then Ok (Some (BASE_URL ++ s))
                else if negb (startswith s "http")
                     then Ok (Some (OFFERS_BASE ++ "/" ++ s))
                     else Ok (Some s)
            | _ => Ok None
            end).

Definition _discover_backup_offer_code : M (option string) :=
  ' (data, _) <~ _fetch_json (OFFERS_BASE ++ "/index.json") ;;
  if negb (truthy data) then ret None
  else
    lift (o <- get data "offers" ;;
          offers <- items (py_or o (VDict [])) ;;
          Ok (option_map fst
                (find (fun kv => str_truthy (fst kv)
                                 && contains "backup" (lower (fst kv)))
                      offers))).

(** Begin/end range of a price dimension, under either key naming. *)
Definition _range_from_dim (dim : value) : result (float * float) :=
  b1 <- get dim "beginRange" ;;
  br <- (if truthy b1 then Ok b1 else get dim "startingRange") ;;
  e1 <- get dim "endRange" ;;
  er <- (if truthy e1 then Ok e1 else get dim "endingRange") ;;
  start <- (if is_none br then Ok f0
            else x <- try_float env br ;;
                 Ok (match x with Some s => s | None => f0 end)) ;;
  end_ <- (if is_none er then Ok finf
           else x <- try_float env er ;;
                Ok (match x with Some e => e | None => finf end)) ;;
  Ok (start, end_).

Definition _backup_storage_match (attrs : value) (location : string)
  : result bool :=
  l0 <- get attrs "location" ;;
  ls <- as_str (py_or l0 (VStr "")) ;;
  let loc := strip ls in
  if negb (String.eqb loc location) then Ok false
  else
    p0 <- get attrs "productFamily" ;;
    ps <- as_str (py_or p0 (VStr "")) ;;
    let pf := lower (strip ps) in
    if String.eqb pf "storage" || String.eqb pf "backup storage"
       || String.eqb pf "backup"
    then Ok true
    else
      u1 <- get attrs "usagetype" ;;
      u2 <- (if truthy u1 then Ok u1 else get attrs "usageType") ;;
      us <- as_str (py_or u2 (VStr "")) ;;
      let ut := lower us in
      if contains "backup" ut && contains "storage" ut then Ok true
      else if str_truthy pf && contains "storage" pf then Ok true
      else Ok false.

(** *** resolve_aws_backup_storage_public *)

(** The locals [fetch_error], [data], [url] of the fetch loop. *)
Definition fetch_state : Type := string * value * value.

Definition some_str (u : option string) : value :=
  match u with Some s => VStr s | None => VNone end.

(** One iteration of [for service_code in (discovered, SERVICE_CODE_BACKUP)]. *)
Definition backup_fetch_body (region_code : string) (st : fetch_state)
  (service_code : option string) : M (flow fetch_state) :=
  match service_code with
  | None => ret (Continue st)
  | Some sc =>
      if negb (str_truthy sc) then ret (Continue st)
      else
        let '(fetch_error, data, _) := st in
        u <~ _resolve_offer_url sc ;;
        let url := some_str u in
        r1 <~ (if truthy url then
                 ' (d, fe) <~ _fetch_json (match u with Some s => s | None => "" end) ;;
                 ret (if truthy d then Break (fe, d, url)
                      else Continue (fe, d, url))
               else ret (Continue (fetch_error, data, url))) ;;
        match r1 with
        | Break s => ret (Break s)
        | Continue (fetch_error, data, url) =>
            r2 <~ (if negb (truthy data) then
                     let url := _get_offer_url_global sc in
                     ' (d, fe2) <~ _fetch_json url ;;
                     let fe := if str_truthy fe2 then fe2 else fetch_error in
                     ret (if truthy d then Break (fe, d, VStr url)
                          else Continue (fe, d, VStr url))
                   else ret (Continue (fetch_error, data, url))) ;;
            match r2 with
            | Break s => ret (Break s)
            | Continue (fetch_error, data, url) =>
                s3 <~ (if negb (truthy data) then
                         let url := _get_offer_url_regional sc region_code in
                         ' (d, fe2) <~ _fetch_json url ;;
                         let fe := if str_truthy fe2 then fe2 else fetch_error in
                         ret (fe, d, VStr url)
                       else ret (fetch_error, data, url)) ;;
                ret (if truthy (snd (fst s3)) then Break s3 else Continue s3)
            end
        end
  end.

(** The innermost loop body: the first usable dimension fills [best]
    and returns it. *)
Definition backup_dim (best : PricingResult) (sku : string) (attrs : value)
  (currency : string) (kv : string * value) : result (option PricingResult) :=
  let dim := snd kv in
  ' (price_per_unit, unit) <- _parse_price_dimension dim currency ;;
  match price_per_unit with
  | None => Ok None
  | Some p =>
      rate <- _normalize_to_gb_month p unit ;;
      match rate with
      | Some r =>
          if fge r f0 then
            Ok (Some (set_currency_unit
                        (set_source (set_rate best r) (VStr sku) attrs "OnDemand" dim)
                        currency "GB-Mo"))
          else Ok None
      | None => Ok None
      end
  end.

Definition backup_term (best : PricingResult) (sku : string) (attrs : value)
  (currency : string) (kv : string * value) : result (option PricingResult) :=
  d0 <- get (snd kv) "priceDimensions" ;;
  dims <- items (py_or d0 (VDict [])) ;;
  first_match (backup_dim best sku attrs currency) dims.

Definition backup_product (best : PricingResult) (location currency : string)
  (on_demand : value) (kv : string * value) : result (option PricingResult) :=
  let '(sku, product) := kv in
  a0 <- get product "attributes" ;;
  let attrs := py_or a0 (VDict []) in
  m <- _backup_storage_match attrs location ;;
  if negb m then Ok None
  else
    known <- py_in sku on_demand ;;
    if negb known then Ok None
    else
      term_entries <- getitem on_demand sku ;;
      entries <- items term_entries ;;
      first_match (backup_term best sku attrs currency) entries.

Definition backup_scan (data : value) (url : value) (location currency : string)
  : result PricingResult :=
  p0 <- get data "products" ;;
  let products := py_or p0 (VDict []) in
  t0 <- get data "terms" ;;
  let terms := py_or t0 (VDict []) in
  o0 <- get terms "OnDemand" ;;
  let on_demand := py_or o0 (VDict []) in
  let best :=
    set_raw_filter_used default_result
      (VDict [("service", VStr "AWS Backup (public)");
              ("location", VStr location); ("url", url)]) in
  prods <- items products ;;
  found <- first_match (backup_product best location currency on_demand) prods ;;
  match found with
  | Some r => Ok r
  | None =>
      Ok (set_error best
            "AWS Backup storage not in public price list for this region. S3 comparison below uses public pricing.")
  end.

Definition resolve_aws_backup_storage_public (region_code currency : string)
  : M PricingResult :=
  match get_location_for_region region_code with
  | None => ret (set_error default_result ("Unknown region: " ++ region_code))
  | Some location =>
      if negb (str_truthy location)
      then ret (set_error default_result ("Unknown region: " ++ region_code))
      else
        discovered <~ _discover_backup_offer_code ;;
        st <~ for_loopM (backup_fetch_body region_code) ("", VNone, VNone)
                [discovered; Some SERVICE_CODE_BACKUP] ;;
        let '(fetch_error, data, url) := st in
        if negb (truthy data) then
          ret (set_raw_filter_used
                 (set_error default_result
                    ("AWS Backup not in public price list. "
                     ++ (if str_truthy fetch_error then fetch_error
                         else "Try Pricing API with credentials for Backup.")))
                 (VDict [("service", VStr "AWS Backup");
                         ("region", VStr region_code); ("url", url)]))
        else lift (backup_scan data url location currency)
  end.

(** *** resolve_s3_storage_public *)

(** The locals [tiers_with_rates] and [result] of the scan. *)
Definition scan_state : Type := list triple * PricingResult.

Definition s3_dim (sku : value) (attrs : value) (currency : string)
  (st : scan_state) (kv : string * value) : result scan_state :=
  let dim := snd kv in
  let '(tiers_with_rates, result) := st in
  ' (price_per_unit, unit) <- _parse_price_dimension dim currency ;;
  match price_per_unit with
  | None => Ok st
  | Some p =>
      rate <- _normalize_to_gb_month p unit ;;
      match rate with
      | None => Ok st
      | Some r =>
          if flt r f0 then Ok st
          else
            ' (start, end_) <- _range_from_dim dim ;;
            let result1 :=
              if is_none (Pricing.sku result)
              then set_source result sku attrs "OnDemand" dim
              else result in
            Ok ((tiers_with_rates ++ [(start, end_, r)])%list,
                set_currency_unit result1 currency "GB-Mo")
      end
  end.

Definition s3_term (sku : value) (attrs : value) (currency : string)
  (st : scan_state) (kv : string * value) : result scan_state :=
  d0 <- get (snd kv) "priceDimensions" ;;
  dims <- items (py_or d0 (VDict [])) ;;
  foldM (s3_dim sku attrs currency) st dims.

(** The relaxed storage-class comparison: [true] when the product is
    skipped. *)
Definition storage_class_mismatch (sc want : string) : bool :=
  str_truthy sc
  && negb (String.eqb want "standard"
           && (contains "general" sc || String.eqb sc "standard"))
  && (negb (String.eqb want sc) && negb (contains want sc)
      && negb (contains sc want)).

Definition s3_product (location storage_class currency : string)
  (on_demand : value) (st : scan_state) (kv : string * value)
  : result scan_state :=
  let '(sku, product) := kv in
  a0 <- get product "attributes" ;;
  let attrs := py_or a0 (VDict []) in
  pf <- get attrs "productFamily" ;;
  if negb (eq_str pf "Storage") then Ok st
  else
    loc <- get attrs "location" ;;
    if negb (eq_str loc location) then Ok st
    else
      s1 <- get attrs "storageClass" ;;
      s2 <- (if truthy s1 then Ok s1 else get attrs "storage class") ;;
      scs <- as_str (py_or s2 (VStr "")) ;;
      let sc := lower (strip scs) in
      let want := lower (strip storage_class) in
      if storage_class_mismatch sc want then Ok st
      else
        known <- py_in sku on_demand ;;
        if negb known then Ok st
        else
          term_entries <- getitem on_demand sku ;;
          entries <- items term_entries ;;
          foldM (s3_term (VStr sku) attrs currency) st entries.

Definition s3_scan (data : value) (url : value)
  (location storage_class currency : string) : result PricingResult :=
  p0 <- get data "products" ;;
  let products := py_or p0 (VDict []) in
  t0 <- get data "terms" ;;
  let terms := py_or t0 (VDict []) in
  o0 <- get terms "OnDemand" ;;
  let on_demand := py_or o0 (VDict []) in
  let result :=
    set_raw_filter_used default_result
      (VDict [("service", VStr "Amazon S3 (public)");
              ("storageClass", VStr storage_class);
              ("location", VStr location); ("url", url)]) in
  prods <- items products ;;
  ' (tiers_with_rates, result) <-
    foldM (s3_product location storage_class currency on_demand) ([], result) prods ;;
  match tiers_with_rates with
  | [] =>
      Ok (set_error result
            "No S3 storage price found for storage class and location in public price list")
  | _ =>
      let sorted := sort_by_start tiers_with_rates in
      match sorted with
      | [t] =>
          if feq (end_of t) finf then Ok (set_rate result (rate_of t))
          else Ok (set_tiers result (map band_of_triple sorted))
      | _ => Ok (set_tiers result (map band_of_triple sorted))
      end
  end.

Definition resolve_s3_storage_public (region_code storage_class currency : string)
  : M PricingResult :=
  match get_location_for_region region_code with
  | None => ret (set_error default_result ("Unknown region: " ++ region_code))
  | Some location =>
      if negb (str_truthy location)
      then ret (set_error default_result ("Unknown region: " ++ region_code))
      else
        u <~ _resolve_offer_url SERVICE_CODE_S3 ;;
        let url := some_str u in
        ' (data, fetch_error) <~
          (if truthy url
           then _fetch_json (match u with Some s => s | None => "" end)
           else ret (VNone, "")) ;;
        ' (fetch_error, data, url) <~
          (if negb (truthy data) then
             let url := _get_offer_url_global SERVICE_CODE_S3 in
             ' (d, fe2) <~ _fetch_json url ;;
             ret (if str_truthy fe2 then fe2 else fetch_error, d, VStr url)
           else ret (fetch_error, data, url)) ;;
        ' (fetch_error, data, url) <~
          (if negb (truthy data) then
             let url := _get_offer_url_regional SERVICE_CODE_S3 region_code in
             ' (d, fe2) <~ _fetch_json url ;;
             ret (if str_truthy fe2 then fe2 else fetch_error, d, VStr url)
           else ret (fetch_error, data, url)) ;;
        if negb (truthy data) then
          ret (set_raw_filter_used
                 (set_error default_result
                    ("Public price list (S3) unavailable. "
                     ++ (if str_truthy fetch_error then fetch_error
                         else "Check network.")))
                 (VDict [("service", VStr SERVICE_CODE_S3);
                         ("region", VStr region_code); ("url", url)]))
        else lift (s3_scan data url location storage_class currency)
  end.

End WithEnv.

End PublicPricing.
(* ===================================================================== *)
(** ** pricing_resolver.py *)
(* ===================================================================== *)

Module PricingResolver.

Import Pricing RegionMapping.
Local Open Scope string_scope.

(** What [get_products] hands to its caller: the decoded products, or
    the exception it lets through. *)
Inductive products_outcome : Type :=
| Products (products : list value)
| NoCredentialsError
| ClientError (str_e : string)
| OtherException (str_e : string).

Section WithEnv.

Variable env : Env.

Definition PRICING_REGION : string := "us-east-1".

Definition _normalize_to_gb_month (price_per_unit : float) (unit : value)
  : result (option float) :=
  s <- as_str (py_or unit (VStr "")) ;;
  let u := lower (strip s) in
  if contains "gb-mo" u || contains "gb-month" u then Ok (Some price_per_unit)
  else if String.eqb u "gb" then Ok (Some price_per_unit)
  else Ok None.

Definition _parse_price_dimension (dim : value) (currency : string)
  : result (option float * value) :=
  pu <- get_default dim "pricePerUnit" (VDict []) ;;
  price_per_unit <- get pu currency ;;
  if is_none price_per_unit then
    u <- get_default dim "unit" (VStr "") ;; Ok (None, u)
  else
    p <- try_float env price_per_unit ;;
    u <- get_default dim "unit" (VStr "") ;;
    Ok (p, u).

(** Every page is consumed; an entry that does not decode is skipped. *)
Definition get_products (c : client) (service : string) (filters : value)
  : M products_outcome :=
  fun l =>
    let out :=
      match paginate env l c service filters with
      | Pages pages =>
          Products
            (flat_map
               (fun page =>
                  flat_map (fun price_str =>
                              match json_loads env price_str with
                              | Some v => [v]
                              | None => []
                              end) page)
               pages)
      | PagesNoCredentials => NoCredentialsError
      | PagesClientError e => ClientError e
      | PagesFailed e => OtherException e
      end in
    (Ok out, (l ++ [EvGetProducts c service])%list).

(** [client or boto3.client("pricing", region_name=PRICING_REGION)] *)
Definition client_or_create (c : option client) : M client_outcome :=
  match c with
  | Some c => ret (ClientCreated c)
  | None => fun l => (Ok (boto3_client env l), (l ++ [EvCreateClient])%list)
  end.

Definition term_match (field val : string) : value :=
  VDict [("Type", VStr "TERM_MATCH"); ("Field", VStr field); ("Value", VStr val)].

(** [pub_result.error or generic] *)
Definition error_or (pub_result : PricingResult) (generic : string) : string :=
  match error pub_result with
  | Some s => if str_truthy s then s else generic
  | None => generic
  end.

Definition error_result (msg : string) : PricingResult :=
  set_error default_result msg.

(** *** resolve_aws_backup_storage *)

(** [best] once a usable dimension is found. *)
Definition fill_best (best : PricingResult) (rate : float) (sku attrs : value)
  (term : string) (dim : value) (currency : string) : PricingResult :=
  set_currency_unit (set_source (set_rate best rate) sku attrs term dim)
    currency "GB-Mo".

Definition api_backup_dim (best : PricingResult) (product attrs : value)
  (term : string) (currency : string) (kv : string * value)
  : result (option PricingResult) :=
  let dim := snd kv in
  ' (price_per_unit, unit) <- _parse_price_dimension dim currency ;;
  match price_per_unit with
  | None => Ok None
  | Some p =>
      rate <- _normalize_to_gb_month p unit ;;
      match rate with
      | Some r =>
          if fge r f0 then
            pr <- get_default product "product" (VDict []) ;;
            s <- get pr "sku" ;;
            Ok (Some (fill_best best r s attrs term dim currency))
          else Ok None
      | None => Ok None
      end
  end.

Definition api_backup_term (best : PricingResult) (product attrs : value)
  (term : string) (currency : string) (kv : string * value)
  : result (option PricingResult) :=
  d0 <- get (snd kv) "priceDimensions" ;;
  dims <- items (py_or d0 (VDict [])) ;;
  first_match (api_backup_dim best product attrs term currency) dims.

(** First loop: on-demand terms only. *)
Definition api_backup_on_demand (best : PricingResult) (currency : string)
  (product : value) : result (option PricingResult) :=
  pr <- get_default product "product" (VDict []) ;;
  attrs <- get_default pr "attributes" (VDict []) ;;
  product_family <- get_default attrs "productFamily" (VStr "") ;;
  if negb (eq_str product_family "Storage") then Ok None
  else
    t0 <- get_default product "terms" (VDict []) ;;
    let terms := py_or t0 (VDict []) in
    on_demand <- get_default terms "OnDemand" (VDict []) ;;
    entries <- items on_demand ;;
    first_match (api_backup_term best product attrs "OnDemand" currency) entries.

Definition api_backup_term_type (best : PricingResult) (product attrs : value)
  (currency : string) (term_type : string) : result (option PricingResult) :=
  t0 <- get_default product "terms" (VDict []) ;;
  t1 <- get t0 term_type ;;
  entries <- items (py_or t1 (VDict [])) ;;
  first_match (api_backup_term best product attrs term_type currency) entries.

(** Second loop: on-demand, then reserved terms. *)
Definition api_backup_any_term (best : PricingResult) (currency : string)
  (product : value) : result (option PricingResult) :=
  pr <- get_default product "product" (VDict []) ;;
  attrs <- get_default pr "attributes" (VDict []) ;;
  pf <- get attrs "productFamily" ;;
  if negb (eq_str pf "Storage") then Ok None
  else
    first_match (api_backup_term_type best product attrs currency)
      ["OnDemand"; "Reserved"].

Definition api_backup_scan (products : list value) (location : string)
  (filters : value) (currency : string) : result PricingResult :=
  let best :=
    set_raw_filter_used default_result
      (VDict [("service", VStr "AWS Backup"); ("location", VStr location);
              ("filters", filters)]) in
  r1 <- first_match (api_backup_on_demand best currency) products ;;
  match r1 with
  | Some r => Ok r
  | None =>
      r2 <- first_match (api_backup_any_term best currency) products ;;
      match r2 with
      | Some r => Ok r
      | None =>
          Ok (set_error best "No AWS Backup storage price found for location")
      end
  end.

Definition resolve_aws_backup_storage (region_code currency : string)
  (client : option client) : M PricingResult :=
  match get_location_for_region region_code with
  | None => ret (error_result ("Unknown region: " ++ region_code))
  | Some location =>
      if negb (str_truthy location)
      then ret (error_result ("Unknown region: " ++ region_code))
      else
        pub_result <~
          PublicPricing.resolve_aws_backup_storage_public env region_code currency ;;
        if no_error pub_result
           && negb (match rate_per_gb_month pub_result with
                    | None => true | Some _ => false end)
        then
          ret {| rate_per_gb_month := rate_per_gb_month pub_result;
                 tiers := [];
                 unit := unit pub_result;
                 currency := Pricing.currency pub_result;
                 sku := sku pub_result;
                 product_attributes := product_attributes pub_result;
                 term_code := term_code pub_result;
                 price_dimension := price_dimension pub_result;
                 raw_filter_used := raw_filter_used pub_result;
                 error := None |}
        else
          let filters :=
            VList [term_match "productFamily" "Storage";
                   term_match "location" location;
                   term_match "serviceCode" "AWS Backup"] in
          c <~ client_or_create client ;;
          match c with
          | ClientNoCredentials =>
              ret (set_raw_filter_used
                     (error_result
                        (error_or pub_result
                           "Pricing unavailable. Public price list failed; no AWS credentials for API fallback."))
                     (raw_filter_used pub_result))
          | ClientFailed e =>
              ret (error_result ("Failed to create pricing client: " ++ e))
          | ClientCreated c =>
              out <~ get_products c "AWS Backup" filters ;;
              match out with
              | NoCredentialsError =>
                  ret (set_raw_filter_used
                         (error_result
                            (error_or pub_result
                               "Public price list failed; no AWS credentials for API fallback."))
                         (raw_filter_used pub_result))
              | ClientError e | OtherException e =>
                  ret (set_raw_filter_used (error_result e)
                         (VDict [("filters", filters)]))
              | Products products =>
                  lift (api_backup_scan products location filters currency)
              end
          end
  end.

(** *** resolve_s3_storage *)

Definition scan_state : Type := list triple * PricingResult.

(** The range of a dimension as the authenticated path reads it
    (the assignments to [start] and [end] in the scan). *)
Definition api_range_from_dim (dim : value) : result (float * float) :=
  br <- get dim "beginRange" ;;
  er <- get dim "endRange" ;;
  start <- (if is_none br then Ok f0
            else x <- try_float env br ;;
                 Ok (match x with Some s => s | None => f0 end)) ;;
  end_ <- (if is_none er then Ok finf
           else x <- try_float env er ;;
                Ok (match x with Some e => e | None => finf end)) ;;
  Ok (start, end_).

Definition api_s3_dim (product attrs : value) (currency : string)
  (st : scan_state) (kv : string * value) : result scan_state :=
  let dim := snd kv in
  let '(tiers_with_rates, result) := st in
  ' (price_per_unit, unit) <- _parse_price_dimension dim currency ;;
  match price_per_unit with
  | None => Ok st
  | Some p =>
      rate <- _normalize_to_gb_month p unit ;;
      match rate with
      | None => Ok st
      | Some r =>
          if flt r f0 then Ok st
          else
            ' (start, end_) <- api_range_from_dim dim ;;
            result1 <-
              (if is_none (sku result) then
                 pr <- get_default product "product" (VDict []) ;;
                 s <- get pr "sku" ;;
                 Ok (set_source result s attrs "OnDemand" dim)
               else Ok result) ;;
            Ok ((tiers_with_rates ++ [(start, end_, r)])%list,
                set_currency_unit result1 currency "GB-Mo")
      end
  end.

Definition api_s3_term (product attrs : value) (currency : string)
  (st : scan_state) (kv : string * value) : result scan_state :=
  d0 <- get (snd kv) "priceDimensions" ;;
  dims <- items (py_or d0 (VDict [])) ;;
  foldM (api_s3_dim product attrs currency) st dims.

Definition api_s3_product (currency : string) (st : scan_state)
  (product : value) : result scan_state :=
  pr <- get_default product "product" (VDict []) ;;
  attrs <- get_default pr "attributes" (VDict []) ;;
  pf <- get attrs "productFamily" ;;
  if negb (eq_str pf "Storage") then Ok st
  else
    usage_type <- get_default attrs "usagetype" (VStr "") ;;
    t0 <- get_default product "terms" (VDict []) ;;
    let terms := py_or t0 (VDict []) in
    on_demand <- get_default terms "OnDemand" (VDict []) ;;
    entries <- items on_demand ;;
    foldM (api_s3_term product attrs currency) st entries.

Definition api_s3_scan (products : list value)
  (location storage_class currency : string) : result PricingResult :=
  let result :=
    set_raw_filter_used default_result
      (VDict [("service", VStr "Amazon S3");
              ("storageClass", VStr storage_class);
              ("location", VStr location)]) in
  ' (tiers_with_rates, result) <-
    foldM (api_s3_product currency) ([], result) products ;;
  match tiers_with_rates with
  | [] =>
      Ok (set_error result
            "No S3 storage price found for storage class and location")
  | _ =>
      let sorted := sort_by_start tiers_with_rates in
      match sorted with
      | [t] =>
          if feq (end_of t) finf then Ok (set_rate result (rate_of t))
          else Ok (set_tiers result (map band_of_triple sorted))
      | _ => Ok (set_tiers result (map band_of_triple sorted))
      end
  end.

Definition resolve_s3_storage (region_code storage_class currency : string)
  (client : option client) : M PricingResult :=
  match get_location_for_region region_code with
  | None => ret (error_result ("Unknown region: " ++ region_code))
  | Some location =>
      if negb (str_truthy location)
      then ret (error_result ("Unknown region: " ++ region_code))
      else
        pub_result <~
          PublicPricing.resolve_s3_storage_public env region_code storage_class
            currency ;;
        if no_error pub_result
           && (negb (match rate_per_gb_month pub_result with
                     | None => true | Some _ => false end)
               || match tiers pub_result with [] => false | _ => true end)
        then
          ret {| rate_per_gb_month := rate_per_gb_month pub_result;
                 tiers := tiers pub_result;
                 unit := unit pub_result;
                 currency := Pricing.currency pub_result;
                 sku := sku pub_result;
                 product_attributes := product_attributes pub_result;
                 term_code := term_code pub_result;
                 price_dimension := price_dimension pub_result;
                 raw_filter_used := raw_filter_used pub_result;
                 error := None |}
        else
          let filters :=
            VList [term_match "productFamily" "Storage";
                   term_match "location" location;
                   term_match "serviceCode" "Amazon S3";
                   term_match "storageClass" storage_class] in
          c <~ client_or_create client ;;
          match c with
          | ClientNoCredentials =>
              ret (set_raw_filter_used
                     (error_result
                        (error_or pub_result
                           "Pricing unavailable. Public price list failed; no AWS credentials for API fallback."))
                     (raw_filter_used pub_result))
          | ClientFailed e =>
              ret (error_result ("Failed to create pricing client: " ++ e))
          | ClientCreated c =>
              out <~ get_products c "Amazon S3" filters ;;
              match out with
              | NoCredentialsError =>
                  ret (set_raw_filter_used
                         (error_result
                            (error_or pub_result
                               "Public price list failed; no AWS credentials for API fallback."))
                         (raw_filter_used pub_result))
              | ClientError e | OtherException e =>
                  ret (set_raw_filter_used (error_result e)
                         (VDict [("filters", filters)]))
              | Products products =>
                  lift (api_s3_scan products location storage_class currency)
              end
          end
  end.

End WithEnv.

End PricingResolver.
(* ===================================================================== *)
(** ** The specification's vocabulary *)
(* ===================================================================== *)

(** The definitions of this part restate what the specification says
    in its own terms; the theorems below compare them with the code. *)

Module Spec.

Import Pricing.
Local Open Scope string_scope.

(** *** Tiered cost (specification 4.4) *)

(** Width of a band: unbounded, hence all that remains, for an
    open-ended band. *)
Definition band_width (band : CostEngine.TierBand) (remaining_gb : float) : float :=
  if feq (CostEngine.to_gb band) finf then remaining_gb
  else fsub (CostEngine.to_gb band) (CostEngine.from_gb band).

(** Walk the bands in order, bill [min(remaining, width)] in each at
    the band's rate, stop once nothing remains. *)
Fixpoint tiered_walk (acc remaining_gb : float) (bands : list CostEngine.TierBand)
  : float :=
  match bands with
  | [] => acc
  | band :: rest =>
      if fle remaining_gb f0 then acc
      else
        let billed := py_min remaining_gb (band_width band remaining_gb) in
        tiered_walk (fadd acc (fmul billed (CostEngine.rate_per_gb_month band)))
                    (fsub remaining_gb billed) rest
  end.

(** The walk with the code's guard: a billed quantity that is not
    positive adds nothing, and is still taken off what remains. *)
Fixpoint guarded_walk (acc remaining_gb : float) (bands : list CostEngine.TierBand)
  : float :=
  match bands with
  | [] => acc
  | band :: rest =>
      if fle remaining_gb f0 then acc
      else
        let billed := py_min remaining_gb (band_width band remaining_gb) in
        guarded_walk
          (if flt f0 billed
           then fadd acc (fmul billed (CostEngine.rate_per_gb_month band))
           else acc)
          (fsub remaining_gb billed) rest
  end.

(** Sorted ascending by [from_gb]. *)
Definition sorted_by_from_gb (tiers : list CostEngine.TierBand) : Prop :=
  StronglySorted
    (fun a b => fle (CostEngine.from_gb a) (CostEngine.from_gb b) = true) tiers.

(** A band of the data model covers a non-empty range [[from_gb, to_gb)];
    only the last band of a sequence may be open-ended. *)
Definition bounded_band (band : CostEngine.TierBand) : bool :=
  let w := fsub (CostEngine.to_gb band) (CostEngine.from_gb band) in
  fne (CostEngine.to_gb band) finf && flt f0 w && flt w finf.

Definition last_band_ok (band : CostEngine.TierBand) : bool :=
  feq (CostEngine.to_gb band) finf
  || flt f0 (fsub (CostEngine.to_gb band) (CostEngine.from_gb band)).

Fixpoint tiers_well_formed (tiers : list CostEngine.TierBand) : bool :=
  match tiers with
  | [] => true
  | [band] => last_band_ok band
  | band :: rest => bounded_band band && tiers_well_formed rest
  end.

(** *** What a computation returns *)

(** [P] holds of whatever [c] returns, if it returns. *)
Definition rreturns {A : Type} (c : result A) (P : A -> Prop) : Prop :=
  forall a, c = Ok a -> P a.

Definition returns {A : Type} (c : M A) (P : A -> Prop) : Prop :=
  forall l a l', c l = (Ok a, l') -> P a.

(** *** Result invariants (specification 3) *)

(** The three shapes a result takes: an error, a flat rate, tiers. *)
Definition well_shaped (r : PricingResult) : Prop :=
  (error r = None \/ (rate_per_gb_month r = None /\ tiers r = []))
  /\ (rate_per_gb_month r = None \/ tiers r = []).

(** The result under construction during a scan: nothing but source
    metadata is set. *)
Definition pristine (r : PricingResult) : Prop :=
  rate_per_gb_month r = None /\ tiers r = [] /\ error r = None.

(** No error, and a flat rate or tiers present. *)
Definition usable (r : PricingResult) : Prop :=
  no_error r = true /\ (rate_per_gb_month r <> None \/ tiers r <> []).

(** A result without tiers: an error, or one flat rate. *)
Definition flat_or_error (r : PricingResult) : Prop :=
  tiers r = []
  /\ ((error r <> None /\ rate_per_gb_month r = None)
      \/ (error r = None /\ rate_per_gb_month r <> None)).

(** The two generic messages for missing credentials: when the client
    cannot be created, and when the query fails. *)
Definition NO_CREDENTIALS_FOR_CLIENT : string :=
  "Pricing unavailable. Public price list failed; no AWS credentials for API fallback.".
Definition NO_CREDENTIALS_FOR_QUERY : string :=
  "Public price list failed; no AWS credentials for API fallback.".

(** [r] is returned by one of the four resolution operations. *)
Definition returned_by_pipeline (env : Env)
  (region_code storage_class currency : string) (client : option client)
  (l l' : log) (r : PricingResult) : Prop :=
  PublicPricing.resolve_aws_backup_storage_public env region_code currency l
  = (Ok r, l')
  \/ PublicPricing.resolve_s3_storage_public env region_code storage_class
       currency l = (Ok r, l')
  \/ PricingResolver.resolve_aws_backup_storage env region_code currency client l
     = (Ok r, l')
  \/ PricingResolver.resolve_s3_storage env region_code storage_class currency
       client l = (Ok r, l').

(** The error of [r] is the public client's own message when that one
    is a non-empty text, the generic message otherwise. *)
Definition prefers_public_message (pub r : PricingResult) (generic : string)
  : Prop :=
  (forall text, error pub = Some text -> text <> "" -> error r = Some text)
  /\ (error pub = None \/ error pub = Some "" -> error r = Some generic).

(** The calls logged between [l] and [l'] are all fetches of the public
    price list: the authenticated client was neither created nor
    queried. *)
Definition only_public_fetches (l l' : log) : Prop :=
  exists urls, l' = (l ++ map EvFetch urls)%list.

Definition fetches_only {A : Type} (c : M A) : Prop :=
  forall l a l', c l = (a, l') -> only_public_fetches l l'.

(** [data] is a document that the price list served. *)
Definition fetched (env : Env) (data : value) : Prop :=
  exists l url, http_get env l url = Fetched data.

(** *** The collapse rule (specification 4.1, step 7) *)

Definition unbounded (t : triple) : bool := feq (end_of t) finf.

(** Flat exactly when there is one triple and its end is unbounded;
    otherwise every triple, sorted by start. *)
Definition collapse (ts : list triple) : option float * list value :=
  match ts with
  | [t] =>
      if unbounded t then (Some (rate_of t), [])
      else (None, map band_of_triple (sort_by_start ts))
  | _ => (None, map band_of_triple (sort_by_start ts))
  end.

(** The rate reported is that of the triple [t], without error. *)
Definition rate_of_first (b : PricingResult) (t : triple) : Prop :=
  rate_per_gb_month b = Some (rate_of t) /\ error b = None.

(** Ascending by start: no element is followed by one that starts
    strictly lower. *)
Definition ascending_by_start (l : list triple) : Prop :=
  Sorted (fun a b => flt (start_of b) (start_of a) = false) l.

(** Concatenation, in order, of what [f] yields on each element. *)
Fixpoint collect {A B : Type} (f : A -> result (list B)) (l : list A)
  : result (list B) :=
  match l with
  | [] => Ok []
  | x :: rest =>
      ys <- f x ;;
      zs <- collect f rest ;;
      Ok (ys ++ zs)%list
  end.

Section WithEnv.

Variable env : Env.

(** The triple of one price dimension: priced in the currency, unit
    normalized to GB-month, rate not negative. *)
Definition s3_dim_triples (currency : string) (kv : string * value)
  : result (list triple) :=
  let dim := snd kv in
  ' (price, unit) <- PublicPricing._parse_price_dimension env dim currency ;;
  match price with
  | None => Ok []
  | Some p =>
      rate <- PublicPricing._normalize_to_gb_month p unit ;;
      match rate with
      | None => Ok []
      | Some r =>
          if flt r f0 then Ok []
          else
            ' (start, end_) <- PublicPricing._range_from_dim env dim ;;
            Ok [(start, end_, r)]
      end
  end.

Definition s3_term_triples (currency : string) (kv : string * value)
  : result (list triple) :=
  d0 <- get (snd kv) "priceDimensions" ;;
  dims <- items (py_or d0 (VDict [])) ;;
  collect (s3_dim_triples currency) dims.

(** A product qualifies by family, location and (relaxed) storage
    class; only its on-demand terms are read. *)
Definition s3_product_triples (location storage_class currency : string)
  (on_demand : value) (kv : string * value) : result (list triple) :=
  let '(sku, product) := kv in
  a0 <- get product "attributes" ;;
  let attrs := py_or a0 (VDict []) in
  pf <- get attrs "productFamily" ;;
  if negb (eq_str pf "Storage") then Ok []
  else
    loc <- get attrs "location" ;;
    if negb (eq_str loc location) then Ok []
    else
      s1 <- get attrs "storageClass" ;;
      s2 <- (if truthy s1 then Ok s1 else get attrs "storage class") ;;
      scs <- as_str (py_or s2 (VStr "")) ;;
      if PublicPricing.storage_class_mismatch (lower (strip scs))
           (lower (strip storage_class))
      then Ok []
      else
        known <- py_in sku on_demand ;;
        if negb known then Ok []
        else
          term_entries <- getitem on_demand sku ;;
          entries <- items term_entries ;;
          collect (s3_term_triples currency) entries.

(** All [(start, end, rate)] triples of a price-list document. *)
Definition s3_triples (data : value) (location storage_class currency : string)
  : result (list triple) :=
  p0 <- get data "products" ;;
  t0 <- get data "terms" ;;
  o0 <- get (py_or t0 (VDict [])) "OnDemand" ;;
  prods <- items (py_or p0 (VDict [])) ;;
  collect (s3_product_triples location storage_class currency
             (py_or o0 (VDict []))) prods.

(** The same collection over the Backup products of a document. *)
Definition backup_dim_triples (currency : string) (kv : string * value)
  : result (list triple) :=
  let dim := snd kv in
  ' (price, unit) <- PublicPricing._parse_price_dimension env dim currency ;;
  match price with
  | None => Ok []
  | Some p =>
      rate <- PublicPricing._normalize_to_gb_month p unit ;;
      match rate with
      | Some r =>
          if fge r f0 then
            ' (start, end_) <- PublicPricing._range_from_dim env dim ;;
            Ok [(start, end_, r)]
          else Ok []
      | None => Ok []
      end
  end.

Definition backup_term_triples (currency : string) (kv : string * value)
  : result (list triple) :=
  d0 <- get (snd kv) "priceDimensions" ;;
  dims <- items (py_or d0 (VDict [])) ;;
  collect (backup_dim_triples currency) dims.

Definition backup_product_triples (location currency : string)
  (on_demand : value) (kv : string * value) : result (list triple) :=
  let '(sku, product) := kv in
  a0 <- get product "attributes" ;;
  m <- PublicPricing._backup_storage_match (py_or a0 (VDict [])) location ;;
  if negb m then Ok []
  else
    known <- py_in sku on_demand ;;
    if negb known then Ok []
    else
      term_entries <- getitem on_demand sku ;;
      entries <- items term_entries ;;
      collect (backup_term_triples currency) entries.

Definition backup_triples (data : value) (location currency : string)
  : result (list triple) :=
  p0 <- get data "products" ;;
  t0 <- get data "terms" ;;
  o0 <- get (py_or t0 (VDict [])) "OnDemand" ;;
  prods <- items (py_or p0 (VDict [])) ;;
  collect (backup_product_triples location currency (py_or o0 (VDict []))) prods.

(** *** Tier boundaries (specification 4.1, step 6) *)

(** One bound of a range: the field's numeric value, or the default
    when the field is absent or not numeric. *)
Definition bound_or_default (field : option value) (default : float)
  : result float :=
  match field with
  | None | Some VNone => Ok default
  | Some v =>
      x <- try_float env v ;;
      Ok (match x with Some b => b | None => default end)
  end.

End WithEnv.

End Spec.
(* ===================================================================== *)
(** ** Sample price lists and environments *)
(* ===================================================================== *)

Module Examples.

Import Pricing.
Local Open Scope string_scope.

(** [float] on the decimal numerals and the [Inf] marker that price
    lists carry. *)
Definition digit_of (c : ascii) : option Z :=
  let n := nat_of_ascii c in
  if ((48 <=? n) && (n <=? 57))%nat then Some (Z.of_nat (n - 48)) else None.

Fixpoint parse_digits (s : string) (acc : Z) (frac : nat) (seen_dot : bool)
  : option (Z * nat) :=
  match s with
  | EmptyString => Some (acc, frac)
  | String c rest =>
      if Ascii.eqb c "."%char then
        if seen_dot then None else parse_digits rest acc frac true
      else
        match digit_of c with
        | Some d =>
            parse_digits rest (10 * acc + d)
              (if seen_dot then S frac else frac) seen_dot
        | None => None
        end
  end.

Definition parse_decimal (s : string) : option float :=
  let t := lower (strip s) in
  if String.eqb t "inf" || String.eqb t "infinity" then Some finf
  else if String.eqb t "" || String.eqb t "." then None
  else
    match parse_digits t 0 0 false with
    | Some (m, k) => Some (dec m k)
    | None => None
    end.

Definition price_dim (usd begin_range end_range : string) : value :=
  VDict [("unit", VStr "GB-Mo");
         ("pricePerUnit", VDict [("USD", VStr usd)]);
         ("beginRange", VStr begin_range);
         ("endRange", VStr end_range)].

Definition index_doc : value :=
  VDict [("offers",
          VDict [("AmazonS3",
                  VDict [("currentVersionUrl",
                          VStr "/offers/v1.0/aws/AmazonS3/current/index.json")]);
                 ("AWSBackup",
                  VDict [("currentVersionUrl",
                          VStr "/offers/v1.0/aws/AWSBackup/current/index.json")])])].

(** S3 Standard in us-east-1, two usage tiers. *)
Definition s3_doc : value :=
  VDict [("products",
          VDict [("S3STD",
                  VDict [("attributes",
                          VDict [("productFamily", VStr "Storage");
                                 ("location", VStr "US East (N. Virginia)");
                                 ("storageClass", VStr "General Purpose")])])]);
         ("terms",
          VDict [("OnDemand",
                  VDict [("S3STD",
                          VDict [("S3STD.JRTCKXETXF",
                                  VDict [("priceDimensions",
                                          VDict [("D2", price_dim "0.0220000000" "51200" "Inf");
                                                 ("D1", price_dim "0.0230000000" "0" "51200")])])])])])].

(** AWS Backup warm storage in us-east-1, priced in two usage tiers. *)
Definition backup_doc : value :=
  VDict [("products",
          VDict [("BKP1",
                  VDict [("attributes",
                          VDict [("productFamily", VStr "AWS Backup Storage");
                                 ("location", VStr "US East (N. Virginia)");
                                 ("usagetype", VStr "USE1-WarmStorage-ByteHrs-S3")])])]);
         ("terms",
          VDict [("OnDemand",
                  VDict [("BKP1",
                          VDict [("BKP1.JRTCKXETXF",
                                  VDict [("priceDimensions",
                                          VDict [("D1", price_dim "0.0500000000" "0" "51200");
                                                 ("D2", price_dim "0.0400000000" "51200" "Inf")])])])])])].

Definition served (url : string) : fetch_outcome :=
  if String.eqb url "https://pricing.us-east-1.amazonaws.com/offers/v1.0/aws/index.json"
  then Fetched index_doc
  else if String.eqb url
            "https://pricing.us-east-1.amazonaws.com/offers/v1.0/aws/AmazonS3/current/index.json"
  then Fetched s3_doc
  else if String.eqb url
            "https://pricing.us-east-1.amazonaws.com/offers/v1.0/aws/AWSBackup/current/index.json"
  then Fetched backup_doc
  else HTTPError "404" "Not Found".

(** The public price list is reachable; there are no credentials. *)
Definition online_env : Env :=
  {| parse_float := parse_decimal;
     json_loads := fun _ => None;
     http_get := fun _ url => served url;
     boto3_client := fun _ => ClientNoCredentials;
     paginate := fun _ _ _ _ => PagesNoCredentials |}.

(** Nothing is reachable and there are no credentials. *)
Definition offline_env : Env :=
  {| parse_float := parse_decimal;
     json_loads := fun _ => None;
     http_get := fun _ _ => URLError (Some "[Errno 111] Connection refused") "";
     boto3_client := fun _ => ClientNoCredentials;
     paginate := fun _ _ _ _ => PagesNoCredentials |}.

(** What the resolver returns for S3 Standard when nothing is
    reachable. *)
Definition offline_s3_result : PricingResult :=
  match fst (PricingResolver.resolve_s3_storage offline_env "us-east-1"
               "Standard" "USD" None [])
  with
  | Ok r => r
  | Raise _ => default_result
  end.

(** What the public client returns for S3 Standard and for Backup when
    the price list is reachable. *)
Definition online_s3_result : PricingResult :=
  match fst (PublicPricing.resolve_s3_storage_public online_env "us-east-1"
               "Standard" "USD" [])
  with
  | Ok r => r
  | Raise _ => default_result
  end.

Definition online_backup_result : PricingResult :=
  match fst (PublicPricing.resolve_aws_backup_storage_public online_env
               "us-east-1" "USD" [])
  with
  | Ok r => r
  | Raise _ => default_result
  end.

(** The public client's S3 run when nothing is reachable. *)
Definition offline_public_s3_run : result PricingResult * log :=
  PublicPricing.resolve_s3_storage_public offline_env "us-east-1" "Standard"
    "USD" [].

Definition offline_public_s3_result : PricingResult :=
  match fst offline_public_s3_run with
  | Ok r => r
  | Raise _ => default_result
  end.

(** A dimension that names its range the alternate way. *)
Definition alt_dim : value :=
  VDict [("unit", VStr "GB-Mo");
         ("pricePerUnit", VDict [("USD", VStr "0.0220000000")]);
         ("startingRange", VStr "51200");
         ("endingRange", VStr "102400")].

(** The triples of [backup_doc], in document order. *)
Definition backup_doc_triples : list triple :=
  [(f0, float_of_Z 51200, dec 5 2); (float_of_Z 51200, finf, dec 4 2)].

(** An S3 product as the authenticated API lists it, its two usage
    tiers named the alternate way. *)
Definition alt_price_dim (usd starting ending : string) : value :=
  VDict [("unit", VStr "GB-Mo");
         ("pricePerUnit", VDict [("USD", VStr usd)]);
         ("startingRange", VStr starting);
         ("endingRange", VStr ending)].

Definition api_product : value :=
  VDict [("product",
          VDict [("sku", VStr "S3API");
                 ("attributes",
                  VDict [("productFamily", VStr "Storage");
                         ("location", VStr "US East (N. Virginia)");
                         ("storageClass", VStr "General Purpose")])]);
         ("terms",
          VDict [("OnDemand",
                  VDict [("S3API.JRTCKXETXF",
                          VDict [("priceDimensions",
                                  VDict [("D1", alt_price_dim "0.0230000000" "0" "51200");
                                         ("D2", alt_price_dim "0.0220000000" "51200" "Inf")])])])])].

(** The price list is unreachable; the authenticated API answers with
    one page that lists [api_product]. *)
Definition api_env : Env :=
  {| parse_float := parse_decimal;
     json_loads := fun s => if String.eqb s "api_product" then Some api_product
                            else None;
     http_get := fun _ _ => URLError (Some "[Errno 111] Connection refused") "";
     boto3_client := fun _ => ClientCreated 1%nat;
     paginate := fun _ _ _ _ => Pages [["api_product"; "not json"]] |}.

Definition api_s3_result : PricingResult :=
  match fst (PricingResolver.resolve_s3_storage api_env "us-east-1"
               "Standard" "USD" None [])
  with
  | Ok r => r
  | Raise _ => default_result
  end.

(** The bands of the cost-engine tests: 0..50 TB at 0.023, above at 0.022. *)
Definition test_tiers : list CostEngine.TierBand :=
  [CostEngine.mkTierBand f0 (float_of_Z 51200) (dec 23 3);
   CostEngine.mkTierBand (float_of_Z 51200) finf (dec 22 3)].

(** Sorted by [from_gb], the second band ending below its start. *)
Definition inverted_tiers : list CostEngine.TierBand :=
  [CostEngine.mkTierBand f0 (float_of_Z 100) (float_of_Z 1);
   CostEngine.mkTierBand (float_of_Z 200) (float_of_Z 150) (float_of_Z 2)].

End Examples.

(* ===================================================================== *)
(** ** Call protocol and result guarantees *)
(* ===================================================================== *)

Module Guarantees.

Import Pricing.
Local Open Scope string_scope.

(** The index of all offers, which every public resolution reads first. *)
Definition INDEX_URL : string := PublicPricing.OFFERS_BASE ++ "/index.json".

(** Whatever [c] does, the log only grows. *)
Definition grows {A : Type} (c : M A) : Prop :=
  forall l a l', c l = (a, l') -> exists es, l' = (l ++ es)%list.

(** The first call that [c] makes is [e]. *)
Definition first_call {A : Type} (e : event) (c : M A) : Prop :=
  forall l a l', c l = (a, l') -> exists rest, l' = (l ++ e :: rest)%list.

(** At most [n] calls, all of them fetches of the public price list. *)
Definition fetches_at_most {A : Type} (n : nat) (c : M A) : Prop :=
  forall l a l', c l = (a, l') ->
    exists urls, l' = (l ++ map EvFetch urls)%list /\ (List.length urls <= n)%nat.

(** The calls of the authenticated fallback: none; or the creation of
    a client when none was supplied, followed by at most one query;
    or one query with the supplied client. *)
Definition api_calls (supplied : option client) (service : string)
  (es : list event) : Prop :=
  es = []
  \/ (supplied = None /\ es = [EvCreateClient])
  \/ (supplied = None /\ exists c, es = [EvCreateClient; EvGetProducts c service])
  \/ (exists c, supplied = Some c /\ es = [EvGetProducts c service]).

(** Fetches of the public price list first, then the calls of the
    authenticated fallback. *)
Definition public_then_api {A : Type} (supplied : option client)
  (service : string) (c : M A) : Prop :=
  forall l a l', c l = (a, l') ->
    exists urls es,
      l' = (l ++ map EvFetch urls ++ es)%list /\ api_calls supplied service es.

(** No fetch yields a usable document: it fails, or what it serves is
    empty. *)
Definition unreachable (env : Env) : Prop :=
  forall l url d, http_get env l url = Fetched d -> truthy d = false.

(** The rate of a band as [_build_tier_band] lays it out. *)
Definition band_rate (band : value) : option float :=
  match band with
  | VDict [(_, VFloat _); (_, VFloat _); ("rate_per_gb_month", VFloat x)] => Some x
  | _ => None
  end.

(** A flat rate that is a number not below zero. *)
Definition rate_at_least_zero (r : PricingResult) : Prop :=
  forall x, rate_per_gb_month r = Some x -> fge x f0 = true.

(** No rate of the result, flat or of a band, is below zero. *)
Definition no_rate_below_zero (r : PricingResult) : Prop :=
  (forall x, rate_per_gb_month r = Some x -> flt x f0 = false)
  /\ Forall (fun band => exists x, band_rate band = Some x /\ flt x f0 = false)
       (tiers r).

End Guarantees.

(* ===================================================================== *)
(** ** The triples that the authenticated S3 scan collects *)
(* ===================================================================== *)

Module ApiTriples.

Import Pricing Spec.
Local Open Scope string_scope.

Section WithEnv.

Variable env : Env.

(** The triple of one price dimension: priced in the currency, unit
    normalized to GB-month, rate not negative; the range is read from
    [beginRange] and [endRange]. *)
Definition api_s3_dim_triples (currency : string) (kv : string * value)
  : result (list triple) :=
  let dim := snd kv in
  ' (price, unit) <- PricingResolver._parse_price_dimension env dim currency ;;
  match price with
  | None => Ok []
  | Some p =>
      rate <- PricingResolver._normalize_to_gb_month p unit ;;
      match rate with
      | None => Ok []
      | Some r =>
          if flt r f0 then Ok []
          else
            ' (start, end_) <- PricingResolver.api_range_from_dim env dim ;;
            Ok [(start, end_, r)]
      end
  end.

Definition api_s3_term_triples (currency : string) (kv : string * value)
  : result (list triple) :=
  d0 <- get (snd kv) "priceDimensions" ;;
  dims <- items (py_or d0 (VDict [])) ;;
  collect (api_s3_dim_triples currency) dims.

(** Every product of family [Storage] that the API lists contributes
    its on-demand terms. *)
Definition api_s3_product_triples (currency : string) (product : value)
  : result (list triple) :=
  pr <- get_default product "product" (VDict []) ;;
  attrs <- get_default pr "attributes" (VDict []) ;;
  pf <- get attrs "productFamily" ;;
  if negb (eq_str pf "Storage") then Ok []
  else
    usage_type <- get_default attrs "usagetype" (VStr "") ;;
    t0 <- get_default product "terms" (VDict []) ;;
    on_demand <- get_default (py_or t0 (VDict [])) "OnDemand" (VDict []) ;;
    entries <- items on_demand ;;
    collect (api_s3_term_triples currency) entries.

Definition api_s3_triples (products : list value) (currency : string)
  : result (list triple) :=
  collect (api_s3_product_triples currency) products.

End WithEnv.

End ApiTriples.

(* ===================================================================== *)
(** ** cache.py *)
(* ===================================================================== *)

Module Cache.

Local Open Scope string_scope.

(** The keyword arguments of a cache call, in the order given.  The
    endpoints pass texts; a field may be [None]. *)
Definition kwargs : Type := list (string * option string).

(** [sorted(kwargs.items())]: the names of keyword arguments are
    distinct, so the items are ordered by name alone. *)
Fixpoint insert_item (x : string * option string) (l : kwargs) : kwargs :=
  match l with
  | [] => [x]
  | y :: rest =>
      if String.ltb (fst y) (fst x) then y :: insert_item x rest
      else x :: y :: rest
  end.

Fixpoint sorted_items (kw : kwargs) : kwargs :=
  match kw with
  | [] => []
  | x :: rest => insert_item x (sorted_items rest)
  end.

(** ["|".join(f"{k}={v}" for k, v in sorted(kwargs.items()) if v is not None)] *)
Definition _key (kw : kwargs) : string :=
  String.concat "|"
    (flat_map (fun kv => match snd kv with
                         | Some v => [fst kv ++ "=" ++ v]
                         | None => []
                         end)
       (sorted_items kw)).

Section WithValue.

Variable V : Type.

(** The dict [_store]: key to (value, time cached). *)
Definition store : Type := list (string * (V * float)).

Fixpoint store_get (k : string) (s : store) : option (V * float) :=
  match s with
  | [] => None
  | (k', x) :: rest => if String.eqb k' k then Some x else store_get k rest
  end.

(** [del store[k]] and [store[k] = x] *)
Definition store_del (k : string) (s : store) : store :=
  filter (fun kv => negb (String.eqb (fst kv) k)) s.

Definition store_set (k : string) (x : V * float) (s : store) : store :=
  (k, x) :: store_del k s.

Record TTLCache : Type := mkTTLCache {
  _ttl : float;
  _store : store
}.

(** [TTLCache(ttl_seconds)] *)
Definition new (ttl_seconds : float) : TTLCache := mkTTLCache ttl_seconds [].

(** [get]: the hit or [None], and the cache afterwards; [now] is the
    reading of [time.monotonic()]. *)
Definition get (c : TTLCache) (now : float) (kw : kwargs)
  : option (V * float) * TTLCache :=
  let k := _key kw in
  match store_get k (_store c) with
  | None => (None, c)
  | Some (val, cached_at) =>
      if fgt (fsub now cached_at) (_ttl c)
      then (None, mkTTLCache (_ttl c) (store_del k (_store c)))
      else (Some (val, cached_at), c)
  end.

Definition set (c : TTLCache) (value : V) (now : float) (kw : kwargs)
  : TTLCache :=
  mkTTLCache (_ttl c) (store_set (_key kw) (value, now) (_store c)).

Definition invalidate (c : TTLCache) (kw : kwargs) : bool * TTLCache :=
  let k := _key kw in
  match store_get k (_store c) with
  | Some _ => (true, mkTTLCache (_ttl c) (store_del k (_store c)))
  | None => (false, c)
  end.

Definition invalidate_all (c : TTLCache) : TTLCache := mkTTLCache (_ttl c) [].

End WithValue.

Arguments store_get {V} k s.
Arguments store_del {V} k s.
Arguments store_set {V} k x s.
Arguments mkTTLCache {V} _ _.
Arguments _ttl {V} _.
Arguments _store {V} _.
Arguments new {V} ttl_seconds.
Arguments get {V} c now kw.
Arguments set {V} c value now kw.
Arguments invalidate {V} c kw.
Arguments invalidate_all {V} c.

End Cache.

(* ===================================================================== *)
(** ** main.py: the calculation endpoint *)
(* ===================================================================== *)

Module Main.

Import CostEngine.
Local Open Scope string_scope.

(** The validated request body of [/api/calc].  A tier is the dict that
    the request carries, its values already floats. *)
Record CalcInput : Type := mkCalcInput {
  data_tb : float;
  tb_binary : bool;
  region : string;
  currency : string;
  aws_backup_rate_per_gb_month : option float;
  s3_storage_class : string;
  versioning_overhead_pct : float;
  s3_tiers : option (list (list (string * float)));
  s3_flat_rate_per_gb_month : option float;
  num_copy_addons : Z;
  flat_addon_usd : float
}.

(** A number of the response: the literal [0] stays an integer. *)
Inductive number : Type :=
| NInt (z : Z)
| NFloat (f : float).

Definition to_float (n : number) : float :=
  match n with
  | NInt z => float_of_Z z
  | NFloat f => f
  end.

(** The response, one record for each dict of it.  Where the dicts of
    the response repeat a key ([rate_per_gb_month], [base_cost_usd],
    [total_usd], [copy_multiplier], [data_tb], [versioned_gb]) the field
    carries a prefix or suffix that tells them apart. *)
Record BackupSection : Type := mkBackupSection {
  awb_rate_per_gb_month : option float;
  awb_base_cost_usd : option float;
  awb_total_usd : option float;
  awb_copy_multiplier : float
}.

Record S3Section : Type := mkS3Section {
  effective_gb : float;
  s3_base_cost_usd : option float;
  s3_total_usd : option float;
  s3_copy_multiplier : float
}.

Record Deltas : Type := mkDeltas {
  aws_backup_total_usd : option float;
  s3_total_usd_again : option float;
  s3_delta_usd : option number;
  s3_delta_pct : option float
}.

Record CalcOutput : Type := mkCalcOutput {
  out_data_tb : float;
  data_gb : float;
  out_versioned_gb : float;
  aws_backup : BackupSection;
  s3_versioning : S3Section;
  deltas_vs_aws_backup : Deltas
}.

(** What a call of the endpoint function ends with. *)
Inductive outcome (A : Type) : Type :=
| Returned (a : A)
| Raised (e : exn)
| RaisedKeyError (key : string).
Arguments Returned {A} a.
Arguments Raised {A} e.
Arguments RaisedKeyError {A} key.

Definition obind {A B : Type} (c : outcome A) (k : A -> outcome B) : outcome B :=
  match c with
  | Returned a => k a
  | Raised e => Raised e
  | RaisedKeyError key => RaisedKeyError key
  end.

Definition of_result {A : Type} (r : result A) : outcome A :=
  match r with
  | Ok a => Returned a
  | Raise e => Raised e
  end.

(** [b[key]] on a dict of floats. *)
Fixpoint field (key : string) (b : list (string * float)) : outcome float :=
  match b with
  | [] => RaisedKeyError key
  | (k, v) :: rest => if String.eqb k key then Returned v else field key rest
  end.

(** [TierBand(b["from_gb"], b["to_gb"], b["rate_per_gb_month"])] *)
Definition band_of_dict (b : list (string * float)) : outcome TierBand :=
  obind (field "from_gb" b) (fun f =>
  obind (field "to_gb" b) (fun t =>
  obind (field "rate_per_gb_month" b) (fun r =>
  Returned (mkTierBand f t r)))).

Fixpoint bands_of_dicts (bs : list (list (string * float)))
  : outcome (list TierBand) :=
  match bs with
  | [] => Returned []
  | b :: rest =>
      obind (band_of_dict b) (fun band =>
      obind (bands_of_dicts rest) (fun bands =>
      Returned (band :: bands)))
  end.

(** [tiers.sort(key=lambda t: t.from_gb)]: stable, comparing keys with
    [<]; the list CPython produces whenever no key is NaN. *)
Fixpoint insert_by_from_gb (x : TierBand) (l : list TierBand) : list TierBand :=
  match l with
  | [] => [x]
  | y :: rest =>
      if flt (from_gb y) (from_gb x) then y :: insert_by_from_gb x rest
      else x :: y :: rest
  end.

Fixpoint sort_by_from_gb (l : list TierBand) : list TierBand :=
  match l with
  | [] => []
  | x :: rest => insert_by_from_gb x (sort_by_from_gb rest)
  end.

(** [x or 0] on a float. *)
Definition or_zero (x : float) : number :=
  if fne x f0 then NFloat x else NInt 0.

(** [delta_usd] on the numbers the endpoint passes: integer
    subtraction when both are integers, float subtraction otherwise. *)
Definition delta_usd_of (cost reference : number) : number :=
  match cost, reference with
  | NInt a, NInt b => NInt (a - b)
  | _, _ => NFloat (delta_usd (to_float cost) (to_float reference))
  end.

Definition post_calc (body : CalcInput) : outcome CalcOutput :=
  let gb := tb_to_gb (data_tb body) (tb_binary body) in
  obind (of_result (copy_multiplier (num_copy_addons body))) (fun copy_mult =>
  let awb_rate := aws_backup_rate_per_gb_month body in
  let awb_base_cost := option_map (cost_from_flat_rate gb) awb_rate in
  let awb_total :=
    option_map (fun rate => aws_backup_total gb rate copy_mult
                              (flat_addon_usd body)) awb_rate in
  let v_gb := versioned_gb gb (versioning_overhead_pct body) in
  obind
    (match s3_tiers body with
     | Some (b :: bs) =>
         obind (bands_of_dicts (b :: bs)) (fun bands =>
         let tiers := sort_by_from_gb bands in
         Returned (tiers, Some (cost_from_tiers v_gb tiers)))
     | _ =>
         match s3_flat_rate_per_gb_month body with
         | Some rate =>
             Returned ([mkTierBand (float_of_Z 0) finf rate],
                       Some (cost_from_flat_rate v_gb rate))
         | None => Returned ([], None)
         end
     end)
    (fun '(tiers, s3_base_cost) =>
       let s3_total :=
         match tiers with
         | [] => None
         | _ => Some (s3_versioning_total gb (versioning_overhead_pct body)
                        tiers copy_mult (flat_addon_usd body))
         end in
       let reference :=
         match awb_total with
         | Some t => NFloat t
         | None => NInt 0
         end in
       obind
         (match s3_total with
          | Some t =>
              obind (of_result (delta_pct (to_float (or_zero t))
                                  (to_float reference)))
                (fun pct => Returned (Some pct))
          | None => Returned None
          end)
         (fun pct =>
            Returned
              {| out_data_tb := data_tb body;
                 data_gb := gb;
                 out_versioned_gb := v_gb;
                 aws_backup :=
                   {| awb_rate_per_gb_month := awb_rate;
                      awb_base_cost_usd := awb_base_cost;
                      awb_total_usd := awb_total;
                      awb_copy_multiplier := copy_mult |};
                 s3_versioning :=
                   {| effective_gb := v_gb;
                      s3_base_cost_usd := s3_base_cost;
                      s3_total_usd := s3_total;
                      s3_copy_multiplier := copy_mult |};
                 deltas_vs_aws_backup :=
                   {| aws_backup_total_usd := awb_total;
                      s3_total_usd_again := s3_total;
                      s3_delta_usd :=
                        option_map (fun t => delta_usd_of (or_zero t) reference)
                          s3_total;
                      s3_delta_pct := pct |} |}))).

(** Whether a tier dict of the request carries the three fields. *)
Definition complete_tier (b : list (string * float)) : bool :=
  match band_of_dict b with
  | Returned _ => true
  | _ => false
  end.

(** *** The pricing endpoints *)

Import Pricing.

(** The three readings of [time.monotonic()] that a request can make:
    in the cache lookup, when the result is stored, and for the
    response. *)
Record clock : Type := mkClock {
  t_get : float;
  t_set : float;
  t_resp : float
}.

Definition opt_float (x : option float) : value :=
  match x with
  | Some f => VFloat f
  | None => VNone
  end.

Definition opt_str (x : option string) : value :=
  match x with
  | Some s => VStr s
  | None => VNone
  end.

(** [{**d, key: v}]: an existing key keeps its place. *)
Fixpoint dict_set (key : string) (v : value) (d : list (string * value))
  : list (string * value) :=
  match d with
  | [] => [(key, v)]
  | (k, x) :: rest =>
      if String.eqb k key then (k, v) :: rest else (k, x) :: dict_set key v rest
  end.

(** [{**data, "cached_at": cached_at, "from_cache": from_cache}] *)
Definition with_cache_info (data : value) (cached_at : float) (from_cache : bool)
  : outcome value :=
  match data with
  | VDict d =>
      Returned (VDict (dict_set "from_cache" (VBool from_cache)
                         (dict_set "cached_at" (VFloat cached_at) d)))
  | _ => Raised TypeError
  end.

Definition backup_kwargs (region currency : string) : Cache.kwargs :=
  [("service", Some "AWS Backup"); ("region", Some region);
   ("currency", Some currency)].

Definition s3_kwargs (region currency storageClass : string) : Cache.kwargs :=
  [("service", Some "Amazon S3"); ("region", Some region);
   ("currency", Some currency); ("storage_class", Some storageClass)].

(** The part the two endpoints share: the optional invalidation and
    the lookup. *)
Definition lookup_cached (pricing_cache : Cache.TTLCache value)
  (refresh : bool) (now : clock) (kw : Cache.kwargs)
  : option (value * float) * Cache.TTLCache value :=
  let cache1 :=
    if refresh then snd (Cache.invalidate pricing_cache kw) else pricing_cache in
  Cache.get cache1 (t_get now) kw.

Definition backup_error_body (result : PricingResult) : value :=
  VDict [("error", opt_str (error result));
         ("rate_per_gb_month", VNone);
         ("sku", sku result);
         ("product_attributes", product_attributes result);
         ("term_code", opt_str (term_code result));
         ("raw_filter", raw_filter_used result)].

Definition backup_data (result : PricingResult) : value :=
  VDict [("rate_per_gb_month", opt_float (rate_per_gb_month result));
         ("currency", VStr (Pricing.currency result));
         ("unit", VStr (unit result));
         ("sku", sku result);
         ("product_attributes", product_attributes result);
         ("term_code", opt_str (term_code result));
         ("price_dimension", price_dimension result);
         ("raw_filter", raw_filter_used result)].

(** [get_aws_backup_pricing]: the response or the exception, the cache
    afterwards, and the calls made. *)
Definition get_aws_backup_pricing (env : Env) (region currency : string)
  (refresh : bool) (now : clock) (pricing_cache : Cache.TTLCache value)
  (l : log) : outcome value * Cache.TTLCache value * log :=
  let kw := backup_kwargs region currency in
  let '(hit, cache2) := lookup_cached pricing_cache refresh now kw in
  match hit with
  | Some (data, cached_at) => (with_cache_info data cached_at true, cache2, l)
  | None =>
      match PricingResolver.resolve_aws_backup_storage env region currency None l
      with
      | (Raise e, l') => (Raised e, cache2, l')
      | (Ok result, l') =>
          if negb (no_error result)
          then (Returned (backup_error_body result), cache2, l')
          else
            let data := backup_data result in
            (with_cache_info data (t_resp now) false,
             Cache.set cache2 data (t_set now) kw, l')
      end
  end.

(** [t[key]] *)
Definition subscript (t : value) (key : string) : outcome value :=
  match t with
  | VDict d =>
      match lookup key d with
      | Some v => Returned v
      | None => RaisedKeyError key
      end
  | _ => Raised TypeError
  end.

Definition SENTINEL_THRESHOLD : float := float_of_Z (10 ^ 35).
Definition SENTINEL : float := float_of_Z (10 ^ 40).

(** The exact integer value of a float that has one. *)
Definition exact_Z (f : float) : Z :=
  match f with
  | S754_finite s m e => (if s then -1 else 1) * Z.pos m * 2 ^ e
  | _ => 0
  end.

(** [to_gb == float("inf") or to_gb > 1e35]; an integer is compared
    with the float exactly. *)
Definition beyond_threshold (to_gb : value) : result bool :=
  match to_gb with
  | VFloat f => Ok (feq f finf || fgt f SENTINEL_THRESHOLD)
  | VInt z => Ok (exact_Z SENTINEL_THRESHOLD <? z)%Z
  | VBool b => Ok false
  | _ => Raise TypeError
  end.

(** One iteration of the loop that builds [tiers_json]. *)
Definition tier_json (t : value) : outcome value :=
  obind (subscript t "to_gb") (fun to_gb =>
  obind (of_result (beyond_threshold to_gb)) (fun beyond =>
  let to_gb := if beyond then VFloat SENTINEL else to_gb in
  match t with
  | VDict d => Returned (VDict (dict_set "to_gb" to_gb d))
  | _ => Raised TypeError
  end)).

Fixpoint tiers_json (tiers : list value) : outcome (list value) :=
  match tiers with
  | [] => Returned []
  | t :: rest =>
      obind (tier_json t) (fun t' =>
      obind (tiers_json rest) (fun rest' =>
      Returned (t' :: rest')))
  end.

Definition s3_error_body (result : PricingResult) : value :=
  VDict [("error", opt_str (error result));
         ("rate_per_gb_month", VNone);
         ("tiers", VList []);
         ("sku", sku result);
         ("product_attributes", product_attributes result);
         ("raw_filter", raw_filter_used result)].

Definition s3_data (result : PricingResult) (tiers_json : list value) : value :=
  VDict [("rate_per_gb_month", opt_float (rate_per_gb_month result));
         ("tiers", VList tiers_json);
         ("currency", VStr (Pricing.currency result));
         ("unit", VStr (unit result));
         ("sku", sku result);
         ("product_attributes", product_attributes result);
         ("term_code", opt_str (term_code result));
         ("price_dimension", price_dimension result);
         ("raw_filter", raw_filter_used result)].

Definition get_s3_storage_pricing (env : Env)
  (region currency storageClass : string) (refresh : bool) (now : clock)
  (pricing_cache : Cache.TTLCache value) (l : log)
  : outcome value * Cache.TTLCache value * log :=
  let kw := s3_kwargs region currency storageClass in
  let '(hit, cache2) := lookup_cached pricing_cache refresh now kw in
  match hit with
  | Some (data, cached_at) => (with_cache_info data cached_at true, cache2, l)
  | None =>
      match PricingResolver.resolve_s3_storage env region storageClass currency
              None l
      with
      | (Raise e, l') => (Raised e, cache2, l')
      | (Ok result, l') =>
          if negb (no_error result)
          then (Returned (s3_error_body result), cache2, l')
          else
            match tiers_json (tiers result) with
            | Returned bands =>
                let data := s3_data result bands in
                (with_cache_info data (t_resp now) false,
                 Cache.set cache2 data (t_set now) kw, l')
            | Raised e => (Raised e, cache2, l')
            | RaisedKeyError key => (RaisedKeyError key, cache2, l')
            end
      end
  end.

(** [list_regions] *)
Definition list_regions : list value :=
  map (fun kv => VDict [("code", VStr (fst kv)); ("location", VStr (snd kv))])
    RegionMapping.REGION_TO_LOCATION.

End Main.

(* ===================================================================== *)
(** ** Sample requests *)
(* ===================================================================== *)

Module MoreExamples.

Import Main.
Local Open Scope string_scope.

(** 10 TB at a flat S3 rate of 0.023 with 25 % versioning overhead, no
    AWS Backup rate. *)
Definition flat_request : CalcInput :=
  {| data_tb := float_of_Z 10;
     tb_binary := true;
     region := "us-east-1";
     currency := "USD";
     aws_backup_rate_per_gb_month := None;
     s3_storage_class := "Standard";
     versioning_overhead_pct := dec 25 2;
     s3_tiers := None;
     s3_flat_rate_per_gb_month := Some (dec 23 3);
     num_copy_addons := 1;
     flat_addon_usd := float_of_Z 5 |}.

Definition empty_output : CalcOutput :=
  {| out_data_tb := f0; data_gb := f0; out_versioned_gb := f0;
     aws_backup := mkBackupSection None None None f0;
     s3_versioning := mkS3Section f0 None None f0;
     deltas_vs_aws_backup := mkDeltas None None None None |}.

Definition flat_response : CalcOutput :=
  match post_calc flat_request with
  | Returned out => out
  | _ => empty_output
  end.

(** A tier without its rate. *)
Definition incomplete_request : CalcInput :=
  {| data_tb := float_of_Z 10;
     tb_binary := true;
     region := "us-east-1";
     currency := "USD";
     aws_backup_rate_per_gb_month := Some (dec 5 2);
     s3_storage_class := "Standard";
     versioning_overhead_pct := dec 25 2;
     s3_tiers := Some [[("from_gb", f0); ("to_gb", float_of_Z 51200)]];
     s3_flat_rate_per_gb_month := None;
     num_copy_addons := 0;
     flat_addon_usd := f0 |}.

Definition sample_clock : clock :=
  {| t_get := float_of_Z 1000; t_set := float_of_Z 1002;
     t_resp := float_of_Z 1003 |}.

Definition later_clock : clock :=
  {| t_get := float_of_Z 5000; t_set := float_of_Z 5002;
     t_resp := float_of_Z 5003 |}.

Definition empty_cache : Cache.TTLCache value := Cache.new (float_of_Z 86400).

(** The first request for S3 Standard in us-east-1 against an empty
    cache, the price list being reachable; and a request with [refresh]
    when nothing is reachable. *)
Definition first_s3_request : outcome value * Cache.TTLCache value * log :=
  get_s3_storage_pricing Examples.online_env "us-east-1" "USD" "Standard" false
    sample_clock empty_cache [].

Definition offline_s3_request : outcome value * Cache.TTLCache value * log :=
  get_s3_storage_pricing Examples.offline_env "us-east-1" "USD" "Standard" true
    sample_clock empty_cache [].

End MoreExamples.

(* ===================================================================== *)
(** ** What the pricing endpoints answer *)
(* ===================================================================== *)

Module EndpointSpec.

Import Pricing Main.
Local Open Scope string_scope.

(** The response of a resolution that succeeded in this request. *)
Definition fresh (out : outcome value) : Prop :=
  exists d, out = Returned (VDict d) /\ lookup "from_cache" d = Some (VBool false).

(** The cache holds an entry under the key of [kw]. *)
Definition cached_under (kw : Cache.kwargs) (cache : Cache.TTLCache value)
  : Prop :=
  Cache.store_get (Cache._key kw) (Cache._store cache) <> None.

(** The response to a request whose [data] was resolved or cached at
    [cached_at]. *)
Definition response (data : list (string * value)) (cached_at : float)
  (from_cache : bool) : value :=
  VDict (dict_set "from_cache" (VBool from_cache)
           (dict_set "cached_at" (VFloat cached_at) data)).

(** The end of a band as the S3 endpoint reports it: the sentinel for
    an open end and for anything above the threshold. *)
Definition sealed_end (to_gb : float) : float :=
  if feq to_gb finf || fgt to_gb SENTINEL_THRESHOLD then SENTINEL else to_gb.

Definition sealed_band (t : triple) : value :=
  _build_tier_band (start_of t) (sealed_end (end_of t)) (rate_of t).

End EndpointSpec.

(* ===================================================================== *)
(** ** conversation/state.py, conversation/prompts.py, conversation/engine.py *)
(* ===================================================================== *)

Module Conversation.

Local Open Scope string_scope.

Record Message : Type := mkMessage {
  role : string;
  content : string
}.

Record Session : Type := mkSession {
  session_id : string;
  mode : string;
  messages : list Message
}.

(** [Session.append] *)
Definition append (s : Session) (role content : string) : Session :=
  mkSession (session_id s) (mode s) (messages s ++ [mkMessage role content]).

(** The dict [_sessions]. *)
Definition sessions : Type := list (string * Session).

Fixpoint sessions_get (k : string) (d : sessions) : option Session :=
  match d with
  | [] => None
  | (k', s) :: rest => if String.eqb k' k then Some s else sessions_get k rest
  end.

Fixpoint sessions_set (k : string) (s : Session) (d : sessions) : sessions :=
  match d with
  | [] => [(k, s)]
  | (k', s') :: rest =>
      if String.eqb k' k then (k', s) :: rest
      else (k', s') :: sessions_set k s rest
  end.

(** [create_or_update_session]: the session returned is the object
    that the store holds; [uuid4] is what [str(uuid.uuid4())] yields,
    read only when a new session needs an id. *)
Definition new_session (sid mode : string) (_sessions : sessions)
  : Session * sessions :=
  let s := mkSession sid mode [] in
  (s, sessions_set sid s _sessions).

Definition create_or_update_session (session_id : option string) (mode : string)
  (uuid4 : string) (_sessions : sessions) : Session * sessions :=
  match session_id with
  | Some sid =>
      if str_truthy sid then
        match sessions_get sid _sessions with
        | Some s =>
            let s' := mkSession (Conversation.session_id s) mode (messages s) in
            (s', sessions_set sid s' _sessions)
        | None => new_session sid mode _sessions
        end
      else new_session uuid4 mode _sessions
  | None => new_session uuid4 mode _sessions
  end.

Definition get_session (session_id : string) (_sessions : sessions)
  : option Session :=
  sessions_get session_id _sessions.

(** *** The turn *)

(** The content of a message sent to the model: a text, or an image
    followed by a text. *)
Inductive sent_content : Type :=
| Text (text : string)
| ImageAndText (media_type data text : string).

Record request : Type := mkRequest {
  req_model : string;
  req_max_tokens : Z;
  req_system : string;
  req_messages : list (string * sent_content)
}.

(** The process environment and the Anthropic client: [environ] is
    [os.environ.get]; [parse_int] is [int] on a text ([None] when it
    raises); [new_client] tells whether constructing the client
    succeeds; [create] yields the text of the first content block of the
    response (the empty text when there is none), or [str(e)] of the
    exception raised while asking or reading. *)
Record ChatEnv : Type := mkChatEnv {
  environ : string -> option string;
  anthropic_installed : bool;
  parse_int : string -> option Z;
  new_client : string -> bool;
  create : request -> string + string
}.

Inductive turn : Type :=
| TurnRaised
| TurnDone (reply : string) (session : Session) (sent : option request).

Section Prompts.

(** The three system prompts of [prompts.py]. *)
Variables SYSTEM_EXPERT SYSTEM_BALANCED SYSTEM_GUIDED : string.

Definition get_system_prompt (mode : string) : string :=
  if String.eqb mode "expert" then SYSTEM_EXPERT
  else if String.eqb mode "guided" then SYSTEM_GUIDED
  else SYSTEM_BALANCED.

Definition NOT_CONFIGURED : string :=
  "Conversation is not configured: ANTHROPIC_API_KEY is missing. Set it in .env to use the AI assistant.".

Definition NOT_INSTALLED : string :=
  "Server error: anthropic package not installed. Add 'anthropic' to requirements.txt and reinstall.".

Definition opt_truthy (x : option string) : bool :=
  match x with
  | Some s => str_truthy s
  | None => false
  end.

Definition or_default (x : option string) (default : string) : string :=
  match x with
  | Some s => s
  | None => default
  end.

(** [chat_turn]: the reply and the session after the turn, with the
    request sent to the model if one was sent. *)
Definition chat_turn (env : ChatEnv) (session : Session) (user_message : string)
  (image_base64 image_media_type : option string) : turn :=
  if negb (opt_truthy (environ env "ANTHROPIC_API_KEY")) then
    let s := append (append session "user" user_message) "assistant"
               NOT_CONFIGURED in
    TurnDone NOT_CONFIGURED s None
  else if negb (anthropic_installed env) then
    let s := append (append session "user" user_message) "assistant"
               NOT_INSTALLED in
    TurnDone NOT_INSTALLED s None
  else if negb (new_client env (or_default (environ env "ANTHROPIC_API_KEY") ""))
  then TurnRaised
  else
    let system := get_system_prompt (mode session) in
    let history :=
      map (fun m => (if String.eqb (role m) "user" then "user" else "assistant",
                     Text (content m)))
        (messages session) in
    let current :=
      match image_base64, image_media_type with
      | Some data, Some media_type =>
          if str_truthy data && str_truthy media_type
          then ImageAndText media_type data
                 (if str_truthy user_message then user_message
                  else "What do you see in this architecture drawing? Suggest a solution based on it.")
          else Text user_message
      | _, _ => Text user_message
      end in
    let model :=
      or_default (environ env "ANTHROPIC_MODEL") "claude-sonnet-4-20250514" in
    match parse_int env (or_default (environ env "ANTHROPIC_MAX_TOKENS") "1024")
    with
    | None => TurnRaised
    | Some max_tokens =>
        let req := mkRequest model max_tokens system
                     (history ++ [("user", current)])%list in
        let reply_text :=
          match create env req with
          | inl text => text
          | inr str_e => "Sorry, the assistant encountered an error: " ++ str_e
          end in
        let s := append (append session "user"
                           (if str_truthy user_message then user_message
                            else "[Image attached]"))
                   "assistant" reply_text in
        TurnDone reply_text s (Some req)
    end.

End Prompts.

End Conversation.

Module ConversationExamples.

Import Conversation.
Local Open Scope string_scope.

(** A configured assistant that answers every request alike. *)
Definition chat_env : ChatEnv :=
  {| environ := fun name =>
       if String.eqb name "ANTHROPIC_API_KEY" then Some "sk-test" else None;
     anthropic_installed := true;
     parse_int := fun s => if String.eqb s "1024" then Some 1024 else None;
     new_client := fun _ => true;
     create := fun _ => inl "Use S3 versioning." |}.

Definition earlier_session : Session :=
  mkSession "abc" "expert"
    [mkMessage "user" "hi"; mkMessage "assistant" "hello"].

Definition sample_turn : turn :=
  chat_turn "expert prompt" "balanced prompt" "guided prompt" chat_env
    earlier_session "" (Some "aGVsbG8=") (Some "image/png").

Definition sample_request : request :=
  mkRequest "claude-sonnet-4-20250514" 1024 "expert prompt"
    [("user", Text "hi"); ("assistant", Text "hello");
     ("user",
      ImageAndText "image/png" "aGVsbG8="
        "What do you see in this architecture drawing? Suggest a solution based on it.")].

Definition sample_session_after : Session :=
  mkSession "abc" "expert"
    [mkMessage "user" "hi"; mkMessage "assistant" "hello";
     mkMessage "user" "[Image attached]";
     mkMessage "assistant" "Use S3 versioning."].

End ConversationExamples.


(* ===================================================================== *)
(** ** Facts about binary64 arithmetic *)
(* ===================================================================== *)

Section FloatFacts.

Lemma shr_1_nonneg (mrs : shr_record) :
  0 <= shr_m mrs -> 0 <= shr_m (shr_1 mrs).
Proof.
  destruct mrs as [m r s]; simpl.
  destruct m as [|p|p]; simpl; try lia.
  - destruct p; simpl; lia.
Qed.

Lemma iter_pos_shr_1_nonneg (p : positive) :
  forall mrs, 0 <= shr_m mrs -> 0 <= shr_m (iter_pos shr_1 p mrs).
Proof.
  induction p as [p IH|p IH|]; intros mrs H; simpl.
  - apply IH, IH, shr_1_nonneg, H.
  - apply IH, IH, H.
  - apply shr_1_nonneg, H.
Qed.

Lemma shr_record_of_loc_m (m : Z) (l : location) :
  shr_m (shr_record_of_loc m l) = m.
Proof. destruct l as [|[ | | ]]; reflexivity. Qed.

Lemma shr_fexp_nonneg (m e : Z) (l : location) :
  0 <= m -> 0 <= shr_m (fst (shr_fexp prec emax m e l)).
Proof.
  intros H. unfold shr_fexp, shr.
  destruct (_ - e)%Z as [|p|p]; simpl;
    try (rewrite shr_record_of_loc_m; exact H).
  apply iter_pos_shr_1_nonneg. rewrite shr_record_of_loc_m; exact H.
Qed.

Lemma round_nearest_even_nonneg (m : Z) (l : location) :
  0 <= m -> 0 <= round_nearest_even m l.
Proof.
  intros H. destruct l as [|[ | | ]]; simpl; try lia.
  destruct (Z.even m); lia.
Qed.

(** Rounding a non-negative mantissa never produces NaN. *)
Lemma binary_round_aux_not_nan (sx : bool) (mx ex : Z) (lx : location) :
  0 <= mx -> is_nan (binary_round_aux prec emax sx mx ex lx) = false.
Proof.
  intros H. unfold binary_round_aux.
  pose proof (shr_fexp_nonneg mx ex lx H) as H1.
  destruct (shr_fexp prec emax mx ex lx) as [mrs' e']. simpl in H1.
  pose proof (shr_fexp_nonneg _ e' loc_Exact
                (round_nearest_even_nonneg _ (loc_of_shr_record mrs') H1)) as H2.
  destruct (shr_fexp prec emax _ e' loc_Exact) as [mrs'' e'']. simpl in H2.
  destruct (shr_m mrs'') as [|p|p]; try reflexivity; try lia.
  destruct (e'' <=? _)%Z; reflexivity.
Qed.

Lemma binary_normalize_not_nan (m e : Z) (sz : bool) :
  is_nan (binary_normalize prec emax m e sz) = false.
Proof.
  destruct m as [|p|p]; simpl; try reflexivity;
    unfold binary_round;
    destruct (shl_align _ _ _) as [mz ez];
    apply binary_round_aux_not_nan; lia.
Qed.

Lemma fsub_finite_not_nan (x y : float) :
  is_finite x = true -> is_finite y = true -> is_nan (fsub x y) = false.
Proof.
  destruct x as [sx|sx| |sx mx ex], y as [sy|sy| |sy my ey];
    simpl; try discriminate; intros _ _; try reflexivity.
  - destruct sx, sy; reflexivity.
  - apply binary_normalize_not_nan.
Qed.

Lemma fmul_finite_not_nan (x y : float) :
  is_finite x = true -> is_finite y = true -> is_nan (fmul x y) = false.
Proof.
  destruct x as [sx|sx| |sx mx ex], y as [sy|sy| |sy my ey];
    simpl; try discriminate; intros _ _; try reflexivity.
  apply binary_round_aux_not_nan. lia.
Qed.

Lemma div_core_nonneg (mx my : positive) (ex ey : Z) :
  0 <= fst (fst (SFdiv_core_binary prec emax (Zpos mx) ex (Zpos my) ey)).
Proof.
  unfold SFdiv_core_binary.
  set (s := (ex - ey - _)%Z).
  set (m' := match s with
             | Zpos _ => Z.shiftl (Zpos mx) s
             | Z0 => Zpos mx
             | Zneg _ => Z0
             end).
  assert (Hm : 0 <= m').
  { unfold m'. destruct s as [|p|p]; try lia.
    apply Z.shiftl_nonneg. lia. }
  pose proof (Z.div_pos m' (Zpos my) Hm eq_refl) as Hq.
  unfold Z.div in Hq.
  destruct (Z.div_eucl m' (Zpos my)) as [q r]. exact Hq.
Qed.

(** A number divided by a finite non-zero number is a number. *)
Lemma fdiv_not_nan (x y : float) :
  is_nan x = false -> is_finite y = true -> feq y f0 = false ->
  is_nan (fdiv x y) = false.
Proof.
  destruct x as [sx|sx| |sx mx ex], y as [sy|sy| |sy my ey];
    simpl; try discriminate; intros _ _ Hz; try reflexivity.
  unfold fdiv, SFdiv.
  pose proof (div_core_nonneg mx my ex ey) as Hq.
  destruct (SFdiv_core_binary prec emax (Zpos mx) ex (Zpos my) ey)
    as [[mz ez] lz].
  apply binary_round_aux_not_nan. exact Hq.
Qed.

(** A number times a finite non-zero number is a number. *)
Lemma fmul_not_nan (x y : float) :
  is_nan x = false -> is_finite y = true -> feq y f0 = false ->
  is_nan (fmul x y) = false.
Proof.
  destruct x as [sx|sx| |sx mx ex], y as [sy|sy| |sy my ey];
    simpl; try discriminate; intros _ _ Hz; try reflexivity.
  apply binary_round_aux_not_nan. lia.
Qed.

(** [0.0 + y] is [y], up to the sign of a zero result. *)
Lemma fadd_f0_l (y : float) :
  fadd f0 y = match y with S754_zero _ => f0 | _ => y end.
Proof. destruct y as [[|]|[|]| |s m e]; reflexivity. Qed.

Lemma pos_compare_cont_refl (m : positive) : Pos.compare_cont Eq m m = Eq.
Proof. apply Pos.compare_cont_refl. Qed.

(** [x == x] for every [x] other than NaN. *)
Lemma feq_refl (x : float) : is_nan x = false -> feq x x = true.
Proof.
  destruct x as [s|s| |s m e]; simpl; try discriminate; intros _;
    unfold feq, SFeqb; simpl.
  - reflexivity.
  - destruct s; reflexivity.
  - destruct s; rewrite Z.compare_refl, pos_compare_cont_refl; reflexivity.
Qed.

End FloatFacts.


(* ===================================================================== *)
(** ** The cost engine *)
(* ===================================================================== *)

Section CostEngineFacts.

Import CostEngine Spec Examples.

Lemma bounded_band_last_ok (b : TierBand) :
  bounded_band b = true -> last_band_ok b = true.
Proof.
  unfold bounded_band, last_band_ok. intros H.
  apply andb_prop in H as [H _]. apply andb_prop in H as [_ H].
  rewrite H. apply orb_true_r.
Qed.

(** For a number, [not (x <= 0)] means [0 < x]. *)
Lemma flt_f0_of_not_le (x : float) :
  is_nan x = false -> fle x f0 = false -> flt f0 x = true.
Proof.
  destruct x as [s|s| |s m e]; simpl; try discriminate;
    destruct s; intros _; try discriminate; reflexivity.
Qed.

Lemma py_min_pos (a b : float) :
  flt f0 a = true -> flt f0 b = true -> flt f0 (py_min a b) = true.
Proof. unfold py_min. destruct (flt b a); auto. Qed.

Lemma py_min_same (a : float) : py_min a a = a.
Proof. unfold py_min. destruct (flt a a); reflexivity. Qed.

Lemma finite_of_bounds (w : float) :
  flt f0 w = true -> flt w finf = true -> is_finite w = true.
Proof. destruct w as [s|[|]| |s m e]; simpl; try discriminate; reflexivity. Qed.

Lemma fsub_not_nan (x y : float) :
  is_nan x = false -> is_finite y = true -> is_nan (fsub x y) = false.
Proof.
  intros Hx Hy. destruct x as [sx|sx| |sx mx ex] eqn:E; try discriminate.
  - apply fsub_finite_not_nan; auto.
  - destruct y; try discriminate; reflexivity.
  - apply fsub_finite_not_nan; auto.
Qed.

(** A positive number that a finite width does not undercut is finite. *)
Lemma finite_of_not_above (w x : float) :
  is_nan x = false -> flt f0 x = true ->
  flt w finf = true -> flt w x = false -> is_finite x = true.
Proof.
  destruct x as [s|[|]| |s m e]; simpl; try discriminate; try reflexivity.
  intros _ _ H1 H2. unfold finf in H1. congruence.
Qed.

Lemma source_width_is_band_width (band : TierBand) (rem : float) :
  (if fne (to_gb band) finf then fsub (to_gb band) (from_gb band) else rem)
  = band_width band rem.
Proof. unfold band_width, fne. destruct (feq (to_gb band) finf); reflexivity. Qed.

(** The loop of [cost_from_tiers], started anywhere, is the walk of the
    specification. *)
Lemma tier_loop_walk (tiers : list TierBand) :
  forall acc rem,
    is_nan rem = false ->
    tiers_well_formed tiers = true ->
    total (for_loop tier_body (mkTierState acc rem) tiers)
    = tiered_walk acc rem tiers.
Proof.
  induction tiers as [|band rest IH]; intros acc rem Hnan Hwf.
  - reflexivity.
  - cbn [for_loop tiered_walk]. unfold tier_body. cbn [remaining total].
    destruct (fle rem f0) eqn:Hle; [reflexivity|].
    pose proof (flt_f0_of_not_le rem Hnan Hle) as Hpos.
    rewrite source_width_is_band_width.
    assert (Hlast : last_band_ok band = true).
    { destruct rest; [exact Hwf|].
      cbn [tiers_well_formed] in Hwf. apply andb_prop in Hwf as [Hb _].
      apply bounded_band_last_ok, Hb. }
    assert (Hwpos : flt f0 (band_width band rem) = true).
    { unfold band_width, last_band_ok in *.
      destruct (feq (to_gb band) finf); [exact Hpos|exact Hlast]. }
    unfold fgt. rewrite (py_min_pos _ _ Hpos Hwpos).
    destruct rest as [|band' rest'].
    + reflexivity.
    + cbn [tiers_well_formed] in Hwf. apply andb_prop in Hwf as [Hb Hr].
      apply IH; [|exact Hr].
      unfold bounded_band in Hb.
      apply andb_prop in Hb as [Hb Hfin]. apply andb_prop in Hb as [Hne _].
      unfold band_width in *. unfold fne in Hne.
      destruct (feq (to_gb band) finf); [discriminate|].
      pose proof (finite_of_bounds _ Hwpos Hfin) as Hwfin.
      unfold py_min.
      destruct (flt (fsub (to_gb band) (from_gb band)) rem) eqn:Hlt.
      * apply fsub_not_nan; assumption.
      * apply fsub_finite_not_nan;
          apply (finite_of_not_above _ rem Hnan Hpos Hfin Hlt).
Qed.

(** The loop of [cost_from_tiers] is, on every input, the walk that
    carries the guard. *)
Lemma tier_loop_guarded_walk (tiers : list TierBand) :
  forall acc rem,
    total (for_loop tier_body (mkTierState acc rem) tiers)
    = guarded_walk acc rem tiers.
Proof.
  induction tiers as [|band rest IH]; intros acc rem.
  - reflexivity.
  - cbn [for_loop guarded_walk]. unfold tier_body. cbn [remaining total].
    destruct (fle rem f0); [reflexivity|].
    rewrite source_width_is_band_width. unfold fgt. apply IH.
Qed.

(** C7, as the claim states it, fails on a sorted list with a band
    that ends below its start: for the volume [130] and the bands
    [[0,100) @ 1, [200,150) @ 2] the walk of the claim bills [100] and
    then [min(30, -50) = -50], which gives [100*1 + (-50)*2 = 0]; the
    code adds nothing for the second band and returns [100]. *)
Lemma cost_from_tiers_skips_inverted_band :
  sorted_by_from_gb inverted_tiers
  /\ cost_from_tiers (float_of_Z 130) inverted_tiers = float_of_Z 100
  /\ tiered_walk f0 (float_of_Z 130) inverted_tiers = f0
  /\ cost_from_tiers (float_of_Z 130) inverted_tiers
     <> tiered_walk f0 (float_of_Z 130) inverted_tiers.
Proof.
  split; [|split; [|split]].
  - unfold sorted_by_from_gb, inverted_tiers.
    repeat constructor.
  - vm_compute. reflexivity.
  - vm_compute. reflexivity.
  - vm_compute. discriminate.
Qed.

(** C7, amended.  For every volume [gb] and every list of tier bands,
    sorted or not, [cost_from_tiers] walks the bands in order; in each
    band it takes [billed = min(remaining, band_width)], where the width
    of an open-ended band is what remains, adds [billed * rate] when
    [billed] is positive and nothing otherwise, takes [billed] off the
    remaining volume, and stops once the remaining volume is not
    positive.  When the volume is a number, each band but the last has
    a finite positive width and the last is open-ended or has a
    positive width, every band reached bills a positive quantity, and
    the cost is the plain walk that adds [billed * rate] in each band.
    On the bands [[0,51200) @ 0.023, [51200,inf) @ 0.022] the volume
    [40*1024] costs [40*1024*0.023] and [60*1024] costs
    [50*1024*0.023 + 10*1024*0.022], to the last bit. *)
Theorem cost_from_tiers_walks_bands :
  (forall (gb : float) (tiers : list TierBand),
     cost_from_tiers gb tiers = guarded_walk f0 gb tiers)
  /\ (forall (gb : float) (tiers : list TierBand),
        is_nan gb = false ->
        tiers_well_formed tiers = true ->
        cost_from_tiers gb tiers = tiered_walk f0 gb tiers)
  /\ cost_from_tiers (float_of_Z (40 * 1024)) test_tiers
     = fmul (float_of_Z (40 * 1024)) (dec 23 3)
  /\ cost_from_tiers (float_of_Z (60 * 1024)) test_tiers
     = fadd (fmul (float_of_Z (50 * 1024)) (dec 23 3))
            (fmul (float_of_Z (10 * 1024)) (dec 22 3)).
Proof.
  split; [|split; [|split]].
  - intros gb tiers. unfold cost_from_tiers. apply tier_loop_guarded_walk.
  - intros gb tiers Hnan Hwf. unfold cost_from_tiers.
    apply tier_loop_walk; assumption.
  - vm_compute. reflexivity.
  - vm_compute. reflexivity.
Qed.

Lemma cost_from_tiers_walks_bands_witness :
  cost_from_tiers (float_of_Z 61440) test_tiers
  = tiered_walk f0 (float_of_Z 61440) test_tiers.
Proof.
  apply (proj1 (proj2 cost_from_tiers_walks_bands) (float_of_Z 61440)
           test_tiers);
    vm_compute; reflexivity.
Defined.

(** The cost under one open-ended band from zero, for a non-negative
    volume whose flat cost is a number. *)
Lemma single_band_cost (g r : float) :
  fle f0 g = true ->
  is_nan (fmul g r) = false ->
  feq (cost_from_tiers g [mkTierBand f0 finf r]) (fmul g r) = true.
Proof.
  intros Hg Hnan. unfold cost_from_tiers. cbn [for_loop]. unfold tier_body.
  cbn [remaining total to_gb from_gb rate_per_gb_month].
  destruct (fle g f0) eqn:Hle.
  - cbn [total].
    destruct g as [s|s| |s m e]; try discriminate;
      try (destruct s; discriminate).
    destruct r as [sr|sr| |sr mr er]; try discriminate; reflexivity.
  - replace (fne finf finf) with false by reflexivity.
    rewrite py_min_same. unfold fgt.
    assert (Hpos : flt f0 g = true).
    { destruct g as [s|s| |s m e]; try discriminate;
        destruct s; try discriminate; reflexivity. }
    rewrite Hpos. cbn [total]. rewrite fadd_f0_l.
    destruct (fmul g r) as [s|s| |s m e] eqn:E; try discriminate.
    + reflexivity.
    + apply feq_refl; reflexivity.
    + apply feq_refl; reflexivity.
Qed.

(** C8. For every volume [g >= 0] and rate [r] whose flat cost [g * r]
    is a number (as it is for all finite [g] and [r]),
    [cost_from_tiers(g, [TierBand(0, inf, r)])] equals [g * r], which is
    [cost_from_flat_rate(g, r)]. *)
Theorem single_unbounded_band_is_flat_rate (g r : float) :
  fle f0 g = true ->
  is_nan (cost_from_flat_rate g r) = false ->
  feq (cost_from_tiers g [mkTierBand f0 finf r]) (fmul g r) = true
  /\ feq (cost_from_tiers g [mkTierBand f0 finf r]) (cost_from_flat_rate g r) = true.
Proof.
  intros Hg Hnan. unfold cost_from_flat_rate in *.
  split; apply single_band_cost; assumption.
Qed.

Lemma single_unbounded_band_is_flat_rate_witness :
  feq (cost_from_tiers (float_of_Z 1000) [mkTierBand f0 finf (dec 23 3)])
      (fmul (float_of_Z 1000) (dec 23 3)) = true.
Proof.
  apply (single_unbounded_band_is_flat_rate (float_of_Z 1000) (dec 23 3));
    vm_compute; reflexivity.
Defined.

(** The same for all finite operands. *)
Corollary single_band_cost_finite (g r : float) :
  fle f0 g = true -> is_finite g = true -> is_finite r = true ->
  feq (cost_from_tiers g [mkTierBand f0 finf r]) (cost_from_flat_rate g r) = true.
Proof.
  intros Hg Hfg Hfr. apply single_band_cost; [exact Hg|].
  apply fmul_finite_not_nan; assumption.
Qed.

(** C9. For every cost and reference, [delta_pct] returns a value and
    raises nothing: [(cost - reference) / reference * 100] when the
    reference is not zero, and exactly [0.0] when the reference equals
    zero (of either sign), which is neither NaN nor an infinity.  On
    finite operands the result is never NaN.
    [delta_pct(100, 80) == 25.0] and [delta_pct(50, 0) == 0.0]. *)
Theorem delta_pct_defined_everywhere (cost reference : float) :
  delta_pct cost reference
  = Ok (if feq reference f0 then f0
        else fmul (fdiv (fsub cost reference) reference) (float_of_Z 100))
  /\ (feq reference f0 = true ->
      forall pct, delta_pct cost reference = Ok pct ->
        pct = f0 /\ is_nan pct = false /\ is_finite pct = true)
  /\ (is_finite cost = true -> is_finite reference = true ->
      forall pct, delta_pct cost reference = Ok pct -> is_nan pct = false)
  /\ delta_pct (float_of_Z 100) (float_of_Z 80) = Ok (float_of_Z 25)
  /\ delta_pct (float_of_Z 50) f0 = Ok f0.
Proof.
  assert (H : delta_pct cost reference
              = Ok (if feq reference f0 then f0
                    else fmul (fdiv (fsub cost reference) reference)
                           (float_of_Z 100))).
  { unfold delta_pct, truediv. destruct (feq reference f0); reflexivity. }
  split; [exact H|]. split; [|split; [|split; reflexivity]].
  - intros Hz pct Hp. rewrite H, Hz in Hp. inversion Hp; subst.
    repeat split.
  - intros Hc Hr pct Hp. rewrite H in Hp.
    destruct (feq reference f0) eqn:Hz; inversion Hp; subst;
      [reflexivity|].
    apply fmul_not_nan; try reflexivity.
    apply fdiv_not_nan; try assumption.
    apply fsub_finite_not_nan; assumption.
Qed.

Lemma delta_pct_defined_everywhere_witness :
  (f0 = f0 /\ is_nan f0 = false /\ is_finite f0 = true)
  /\ is_nan (float_of_Z 25) = false.
Proof.
  split.
  - apply (proj1 (proj2 (delta_pct_defined_everywhere (float_of_Z 50)
                           (S754_zero true)))
             eq_refl f0).
    reflexivity.
  - apply (proj1 (proj2 (proj2 (delta_pct_defined_everywhere (float_of_Z 100)
                                  (float_of_Z 80))))
             eq_refl eq_refl (float_of_Z 25)).
    reflexivity.
Defined.

(** C10. [cost_from_tiers(gb, tiers)] is exactly [0.0] whenever
    [gb <= 0], whatever the tiers, and [cost_from_tiers(gb, [])] is
    exactly [0.0] for every [gb]; the function is total, it raises
    nothing. *)
Theorem cost_from_tiers_nothing_to_bill (gb : float) (tiers : list TierBand) :
  (fle gb f0 = true -> cost_from_tiers gb tiers = f0)
  /\ cost_from_tiers gb [] = f0.
Proof.
  split; [|reflexivity].
  intros Hle. unfold cost_from_tiers.
  destruct tiers as [|band rest]; [reflexivity|].
  cbn [for_loop]. unfold tier_body. cbn [remaining]. rewrite Hle. reflexivity.
Qed.

Lemma cost_from_tiers_nothing_to_bill_witness :
  cost_from_tiers (float_of_Z (-3)) test_tiers = f0.
Proof.
  apply (proj1 (cost_from_tiers_nothing_to_bill (float_of_Z (-3)) test_tiers)).
  vm_compute. reflexivity.
Defined.

End CostEngineFacts.

(* ===================================================================== *)
(** ** Reasoning about computations *)
(* ===================================================================== *)

Section Computations.

Import Spec.

Lemma rreturns_ok {A : Type} (a : A) (P : A -> Prop) :
  P a -> rreturns (Ok a) P.
Proof. intros H b E. inversion E; subst. exact H. Qed.

Lemma rreturns_bind {A B : Type} (c : result A) (k : A -> result B)
  (Q : A -> Prop) (P : B -> Prop) :
  rreturns c Q -> (forall a, Q a -> rreturns (k a) P) ->
  rreturns (rbind c k) P.
Proof.
  intros Hc Hk b E. destruct c as [a|e]; simpl in E; [|discriminate].
  exact (Hk a (Hc a eq_refl) b E).
Qed.

Lemma rreturns_bind_any {A B : Type} (c : result A) (k : A -> result B)
  (P : B -> Prop) :
  (forall a, rreturns (k a) P) -> rreturns (rbind c k) P.
Proof.
  intros Hk. apply rreturns_bind with (Q := fun _ => True).
  - intros a _. exact I.
  - intros a _. apply Hk.
Qed.

Lemma rbind_ok {A B : Type} (c : result A) (k : A -> result B) (b : B) :
  rbind c k = Ok b -> exists a, c = Ok a /\ k a = Ok b.
Proof.
  destruct c as [a|e]; simpl; intros E; [|discriminate].
  exists a. split; [reflexivity|exact E].
Qed.

Lemma returns_ret {A : Type} (a : A) (P : A -> Prop) :
  P a -> returns (ret a) P.
Proof. intros H l b l' E. inversion E; subst. exact H. Qed.

Lemma returns_lift {A : Type} (c : result A) (P : A -> Prop) :
  rreturns c P -> returns (lift c) P.
Proof. intros H l b l' E. inversion E; subst. apply H. reflexivity. Qed.

Lemma returns_bind {A B : Type} (c : M A) (k : A -> M B)
  (Q : A -> Prop) (P : B -> Prop) :
  returns c Q -> (forall a, Q a -> returns (k a) P) ->
  returns (bind c k) P.
Proof.
  intros Hc Hk l b l' E. unfold bind in E.
  destruct (c l) as [[a|e] l1] eqn:Ec; [|discriminate].
  exact (Hk a (Hc l a l1 Ec) l1 b l' E).
Qed.

Lemma returns_bind_any {A B : Type} (c : M A) (k : A -> M B)
  (P : B -> Prop) :
  (forall a, returns (k a) P) -> returns (bind c k) P.
Proof.
  intros Hk. apply returns_bind with (Q := fun _ => True).
  - intros l a l' _. exact I.
  - intros a _. apply Hk.
Qed.

(** A search returns only what its body returns. *)
Lemma first_match_returns {A B : Type} (f : A -> result (option B))
  (P : B -> Prop) (l : list A) :
  (forall x, rreturns (f x) (fun o => forall b, o = Some b -> P b)) ->
  rreturns (first_match f l) (fun o => forall b, o = Some b -> P b).
Proof.
  intros Hf. induction l as [|x rest IH]; simpl.
  - intros o E b Hb. inversion E; subst. discriminate.
  - apply rreturns_bind with (Q := fun o => forall b, o = Some b -> P b).
    + apply Hf.
    + intros [b|] Hb.
      * apply rreturns_ok. exact Hb.
      * exact IH.
Qed.

(** An accumulating loop keeps what every iteration keeps. *)
Lemma foldM_invariant {A S : Type} (f : S -> A -> result S) (Inv : S -> Prop)
  (l : list A) :
  (forall s x, Inv s -> rreturns (f s x) Inv) ->
  forall s, Inv s -> rreturns (foldM f s l) Inv.
Proof.
  intros Hf. induction l as [|x rest IH]; intros s Hs; simpl.
  - apply rreturns_ok, Hs.
  - apply rreturns_bind with (Q := Inv); [apply Hf, Hs|].
    intros s' Hs'. apply IH, Hs'.
Qed.

(** An accumulating loop against the collection of what each element
    contributes. *)
Lemma foldM_collect {A S B : Type} (f : S -> A -> result S)
  (g : A -> result (list B)) (proj : S -> list B) (Inv : S -> Prop) :
  (forall s x s', Inv s -> f s x = Ok s' ->
     Inv s' /\ exists ys, g x = Ok ys /\ proj s' = (proj s ++ ys)%list) ->
  forall l s s', Inv s -> foldM f s l = Ok s' ->
    Inv s' /\ exists ys, collect g l = Ok ys /\ proj s' = (proj s ++ ys)%list.
Proof.
  intros Hf. induction l as [|x rest IH]; intros s s' Hs E; simpl in E.
  - inversion E; subst. split; [exact Hs|].
    exists []. split; [reflexivity|]. rewrite app_nil_r. reflexivity.
  - apply rbind_ok in E as [s1 [E1 E2]].
    destruct (Hf s x s1 Hs E1) as [Hs1 [ys [Hg Hp]]].
    destruct (IH s1 s' Hs1 E2) as [Hs' [zs [Hc Hq]]].
    split; [exact Hs'|].
    exists (ys ++ zs)%list. split.
    + simpl. rewrite Hg. simpl. rewrite Hc. reflexivity.
    + rewrite Hq, Hp, app_assoc. reflexivity.
Qed.

(** A search returns at the first element that contributes to the
    collection. *)
Lemma first_match_collect {A B C : Type} (f : A -> result (option B))
  (g : A -> result (list C)) (R : B -> C -> Prop) :
  (forall x ys, g x = Ok ys ->
     match ys with
     | [] => f x = Ok None
     | y :: _ => exists b, f x = Ok (Some b) /\ R b y
     end) ->
  forall l ys, collect g l = Ok ys ->
    match ys with
    | [] => first_match f l = Ok None
    | y :: _ => exists b, first_match f l = Ok (Some b) /\ R b y
    end.
Proof.
  intros Hfg. induction l as [|x rest IH]; intros ys H; simpl in H.
  - inversion H; subst. reflexivity.
  - apply rbind_ok in H as [ys1 [H1 H2]].
    apply rbind_ok in H2 as [ys2 [H2 H3]]. inversion H3; subst.
    pose proof (Hfg x ys1 H1) as Hx. simpl.
    destruct ys1 as [|y ys1'].
    + rewrite Hx. simpl. apply IH, H2.
    + destruct Hx as [b [Hb HR]]. rewrite Hb. simpl.
      exists b. split; [reflexivity|exact HR].
Qed.

Lemma for_loopM_invariant {A S : Type} (body : S -> A -> M (flow S))
  (Inv : S -> Prop) (l : list A) :
  (forall s x, Inv s ->
     returns (body s x)
       (fun fl => match fl with Continue s' | Break s' => Inv s' end)) ->
  forall s, Inv s -> returns (for_loopM body s l) Inv.
Proof.
  intros Hb. induction l as [|x rest IH]; intros s Hs; simpl.
  - apply returns_ret, Hs.
  - eapply returns_bind; [apply Hb, Hs|].
    intros [s'|s'] Hs'; [apply IH, Hs'|apply returns_ret, Hs'].
Qed.

(** *** The log *)

Lemma only_public_fetches_refl (l : log) : only_public_fetches l l.
Proof. exists []. simpl. rewrite app_nil_r. reflexivity. Qed.

Lemma only_public_fetches_trans (l1 l2 l3 : log) :
  only_public_fetches l1 l2 -> only_public_fetches l2 l3 ->
  only_public_fetches l1 l3.
Proof.
  intros [u1 H1] [u2 H2]. exists (u1 ++ u2)%list.
  rewrite H2, H1, map_app, app_assoc. reflexivity.
Qed.

Lemma fetches_only_ret {A : Type} (a : A) : fetches_only (ret a).
Proof. intros l b l' E. inversion E; subst. apply only_public_fetches_refl. Qed.

Lemma fetches_only_lift {A : Type} (c : result A) : fetches_only (lift c).
Proof. intros l b l' E. inversion E; subst. apply only_public_fetches_refl. Qed.

Lemma fetches_only_bind {A B : Type} (c : M A) (k : A -> M B) :
  fetches_only c -> (forall a, fetches_only (k a)) -> fetches_only (bind c k).
Proof.
  intros Hc Hk l b l' E. unfold bind in E.
  destruct (c l) as [[a|e] l1] eqn:Ec.
  - apply only_public_fetches_trans with l1.
    + exact (Hc l _ l1 Ec).
    + exact (Hk a l1 b l' E).
  - inversion E; subst. exact (Hc l _ l' Ec).
Qed.

Lemma fetches_only_for_loopM {A S : Type} (body : S -> A -> M (flow S))
  (l : list A) :
  (forall s x, fetches_only (body s x)) ->
  forall s, fetches_only (for_loopM body s l).
Proof.
  intros Hb. induction l as [|x rest IH]; intros s; simpl.
  - apply fetches_only_ret.
  - apply fetches_only_bind; [apply Hb|].
    intros [s'|s']; [apply IH|apply fetches_only_ret].
Qed.

End Computations.

(* ===================================================================== *)
(** ** Sorting by start *)
(* ===================================================================== *)

Section Sorting.

Import Pricing Spec.

Lemma compare_cont_swap (p q : positive) :
  Pos.compare_cont Eq q p = CompOpp (Pos.compare_cont Eq p q).
Proof. symmetry. apply (Pos.compare_cont_antisym p q Eq). Qed.

Lemma SFcompare_antisym (x y : float) :
  SFcompare y x = option_map CompOpp (SFcompare x y).
Proof.
  destruct x as [sx|sx| |sx mx ex], y as [sy|sy| |sy my ey]; simpl;
    try reflexivity;
    try (destruct sx; reflexivity);
    try (destruct sy; reflexivity);
    try (destruct sx, sy; reflexivity).
  destruct sx, sy; simpl; try reflexivity;
    rewrite (Z.compare_antisym ex ey);
    destruct (ex ?= ey)%Z; simpl; try reflexivity;
    rewrite (compare_cont_swap mx my); reflexivity.
Qed.

Lemma flt_asym (x y : float) : flt x y = true -> flt y x = false.
Proof.
  unfold flt, SFltb. rewrite (SFcompare_antisym x y).
  destruct (SFcompare x y) as [[ | | ]|]; simpl; congruence.
Qed.

(** Among numbers, [not (y < x)] is [x <= y]. *)
Lemma fle_of_not_flt (x y : float) :
  is_nan x = false -> is_nan y = false -> flt y x = false -> fle x y = true.
Proof.
  unfold flt, fle, SFltb, SFleb. rewrite (SFcompare_antisym x y).
  destruct x as [sx|sx| |sx mx ex], y as [sy|sy| |sy my ey];
    try discriminate; intros _ _;
    destruct (SFcompare _ _) as [[ | | ]|] eqn:E; simpl;
    try congruence; try reflexivity; simpl in E;
    try discriminate.
Qed.

Lemma insert_by_start_perm (x : triple) (l : list triple) :
  Permutation (insert_by_start x l) (x :: l).
Proof.
  induction l as [|y rest IH]; simpl.
  - apply Permutation_refl.
  - destruct (flt (start_of y) (start_of x)).
    + apply perm_trans with (y :: x :: rest).
      * apply perm_skip, IH.
      * apply perm_swap.
    + apply Permutation_refl.
Qed.

Lemma sort_by_start_perm (l : list triple) :
  Permutation (sort_by_start l) l.
Proof.
  induction l as [|x rest IH]; simpl.
  - apply perm_nil.
  - apply perm_trans with (x :: sort_by_start rest).
    + apply insert_by_start_perm.
    + apply perm_skip, IH.
Qed.

Lemma insert_by_start_hd (x y : triple) (l : list triple) :
  flt (start_of y) (start_of x) = true ->
  HdRel (fun a b => flt (start_of b) (start_of a) = false) y l ->
  HdRel (fun a b => flt (start_of b) (start_of a) = false) y (insert_by_start x l).
Proof.
  intros Hyx Hl. destruct l as [|z rest]; simpl.
  - constructor. apply flt_asym, Hyx.
  - destruct (flt (start_of z) (start_of x)).
    + constructor. inversion Hl; subst. assumption.
    + constructor. apply flt_asym, Hyx.
Qed.

Lemma insert_by_start_sorted (x : triple) (l : list triple) :
  ascending_by_start l -> ascending_by_start (insert_by_start x l).
Proof.
  unfold ascending_by_start.
  induction l as [|y rest IH]; intros Hs; simpl.
  - constructor; constructor.
  - destruct (flt (start_of y) (start_of x)) eqn:Hyx.
    + inversion Hs; subst. constructor.
      * apply IH. assumption.
      * apply insert_by_start_hd; assumption.
    + constructor; [exact Hs|]. constructor. exact Hyx.
Qed.

Lemma sort_by_start_sorted (l : list triple) :
  ascending_by_start (sort_by_start l).
Proof.
  induction l as [|x rest IH]; simpl.
  - constructor.
  - apply insert_by_start_sorted, IH.
Qed.

(** When no start is NaN, ascending is [<=] between neighbours. *)
Lemma ascending_is_fle (l : list triple) :
  Forall (fun t => is_nan (start_of t) = false) l ->
  ascending_by_start l ->
  Sorted (fun a b => fle (start_of a) (start_of b) = true) l.
Proof.
  unfold ascending_by_start.
  induction l as [|x rest IH]; intros Hn Hs.
  - constructor.
  - inversion Hn; subst. inversion Hs; subst. constructor.
    + apply IH; assumption.
    + destruct rest as [|y rest']; constructor.
      inversion H4; subst. inversion H2; subst.
      apply fle_of_not_flt; assumption.
Qed.

Lemma sort_by_start_nil (l : list triple) :
  sort_by_start l = [] -> l = [].
Proof.
  intros H. pose proof (sort_by_start_perm l) as P. rewrite H in P.
  apply Permutation_nil in P. exact P.
Qed.

Lemma sort_by_start_single (l : list triple) (t : triple) :
  sort_by_start l = [t] -> l = [t].
Proof.
  intros H. pose proof (sort_by_start_perm l) as P. rewrite H in P.
  apply Permutation_length_1_inv in P. exact P.
Qed.

End Sorting.

(* ===================================================================== *)
(** ** The public price list client *)
(* ===================================================================== *)

Section PublicClient.

Import Pricing Spec PublicPricing.

Variable env : Env.

Lemma pristine_set_source r s a t d :
  pristine r -> pristine (set_source r s a t d).
Proof. intros [H1 [H2 H3]]. repeat split; assumption. Qed.

Lemma pristine_set_currency_unit r c u :
  pristine r -> pristine (set_currency_unit r c u).
Proof. intros [H1 [H2 H3]]. repeat split; assumption. Qed.

Lemma s3_dim_collect sku attrs currency st kv st' :
  pristine (snd st) ->
  s3_dim env sku attrs currency st kv = Ok st' ->
  pristine (snd st')
  /\ exists ys, s3_dim_triples env currency kv = Ok ys
                /\ fst st' = (fst st ++ ys)%list.
Proof.
  destruct st as [tw res]. intros Hp H.
  unfold s3_dim in H. unfold s3_dim_triples.
  destruct (_parse_price_dimension env (snd kv) currency) as [[price u]|];
    cbn [rbind] in *; [|discriminate].
  destruct price as [p|].
  2:{ inversion H; subst. split; [exact Hp|]. exists [].
      split; [reflexivity|]. simpl. rewrite app_nil_r. reflexivity. }
  destruct (_normalize_to_gb_month p u) as [[r|]|]; cbn [rbind] in *;
    try discriminate.
  2:{ inversion H; subst. split; [exact Hp|]. exists [].
      split; [reflexivity|]. simpl. rewrite app_nil_r. reflexivity. }
  destruct (flt r f0).
  { inversion H; subst. split; [exact Hp|]. exists [].
    split; [reflexivity|]. simpl. rewrite app_nil_r. reflexivity. }
  destruct (_range_from_dim env (snd kv)) as [[start end_]|];
    cbn [rbind] in *; [|discriminate].
  inversion H; subst. split.
  - cbn [snd]. apply pristine_set_currency_unit.
    destruct (is_none (Pricing.sku res)); [apply pristine_set_source|]; exact Hp.
  - exists [(start, end_, r)]. split; reflexivity.
Qed.

Lemma s3_term_collect sku attrs currency st kv st' :
  pristine (snd st) ->
  s3_term env sku attrs currency st kv = Ok st' ->
  pristine (snd st')
  /\ exists ys, s3_term_triples env currency kv = Ok ys
                /\ fst st' = (fst st ++ ys)%list.
Proof.
  intros Hp H. unfold s3_term in H. unfold s3_term_triples.
  destruct (get (snd kv) "priceDimensions") as [d0|]; cbn [rbind] in *;
    [|discriminate].
  destruct (items (py_or d0 (VDict []))) as [dims|]; cbn [rbind] in *;
    [|discriminate].
  apply (foldM_collect (s3_dim env sku attrs currency)
           (s3_dim_triples env currency) fst (fun s => pristine (snd s)))
    with (l := dims) (s := st); try assumption.
  intros s x s' Hs Hf. apply (s3_dim_collect sku attrs currency s x s' Hs Hf).
Qed.

Lemma s3_product_collect location storage_class currency on_demand st kv st' :
  pristine (snd st) ->
  s3_product env location storage_class currency on_demand st kv = Ok st' ->
  pristine (snd st')
  /\ exists ys,
       s3_product_triples env location storage_class currency on_demand kv = Ok ys
       /\ fst st' = (fst st ++ ys)%list.
Proof.
  intros Hp H. destruct kv as [sku product].
  unfold s3_product in H. unfold s3_product_triples.
  assert (Hskip : forall s, Ok st = Ok s ->
            pristine (snd s)
            /\ exists ys : list triple,
                 Ok [] = Ok ys /\ fst s = (fst st ++ ys)%list).
  { intros s E. inversion E; subst. split; [exact Hp|]. exists [].
    split; [reflexivity|]. rewrite app_nil_r. reflexivity. }
  destruct (get product "attributes") as [a0|]; cbn [rbind] in *;
    [|discriminate].
  destruct (get (py_or a0 (VDict [])) "productFamily") as [pf|];
    cbn [rbind] in *; [|discriminate].
  destruct (negb (eq_str pf "Storage")); [apply Hskip, H|].
  destruct (get (py_or a0 (VDict [])) "location") as [loc|];
    cbn [rbind] in *; [|discriminate].
  destruct (negb (eq_str loc location)); [apply Hskip, H|].
  destruct (get (py_or a0 (VDict [])) "storageClass") as [s1|];
    cbn [rbind] in *; [|discriminate].
  destruct (if truthy s1 then Ok s1
            else get (py_or a0 (VDict [])) "storage class") as [s2|];
    cbn [rbind] in *; [|discriminate].
  destruct (as_str (py_or s2 (VStr ""))) as [scs|]; cbn [rbind] in *;
    [|discriminate].
  destruct (storage_class_mismatch _ _); [apply Hskip, H|].
  destruct (py_in sku on_demand) as [known|]; cbn [rbind] in *;
    [|discriminate].
  destruct (negb known); [apply Hskip, H|].
  destruct (getitem on_demand sku) as [term_entries|]; cbn [rbind] in *;
    [|discriminate].
  destruct (items term_entries) as [entries|]; cbn [rbind] in *;
    [|discriminate].
  apply (foldM_collect (s3_term env (VStr sku) (py_or a0 (VDict [])) currency)
           (s3_term_triples env currency) fst (fun s => pristine (snd s)))
    with (l := entries) (s := st); try assumption.
  intros s x s' Hs Hf.
  apply (s3_term_collect (VStr sku) (py_or a0 (VDict [])) currency s x s' Hs Hf).
Qed.

Lemma pristine_initial (v : value) :
  pristine (set_raw_filter_used default_result v).
Proof. repeat split. Qed.

(** What the scan of a document returns: an error when the document
    yields no triple, the collapse of its triples otherwise. *)
Lemma s3_scan_collapse data url location storage_class currency r :
  s3_scan env data url location storage_class currency = Ok r ->
  exists ts,
    s3_triples env data location storage_class currency = Ok ts
    /\ ((ts = [] /\ error r <> None
         /\ rate_per_gb_month r = None /\ tiers r = [])
        \/ (ts <> [] /\ error r = None
            /\ (rate_per_gb_month r, tiers r) = collapse ts)).
Proof.
  intros H. unfold s3_scan in H. unfold s3_triples.
  destruct (get data "products") as [p0|]; cbn [rbind] in *; [|discriminate].
  destruct (get data "terms") as [t0|]; cbn [rbind] in *; [|discriminate].
  destruct (get (py_or t0 (VDict [])) "OnDemand") as [o0|];
    cbn [rbind] in *; [|discriminate].
  destruct (items (py_or p0 (VDict []))) as [prods|]; cbn [rbind] in *;
    [|discriminate].
  apply rbind_ok in H as [[tw res] [Hfold Hend]].
  edestruct (foldM_collect
               (s3_product env location storage_class currency (py_or o0 (VDict [])))
               (s3_product_triples env location storage_class currency
                  (py_or o0 (VDict [])))
               fst (fun s => pristine (snd s)))
    as [Hp [ts [Hc Hts]]]; [ | | exact Hfold | ].
  { intros s x s' Hs Hf. eapply s3_product_collect; eassumption. }
  { apply pristine_initial. }
  simpl in Hts. subst tw. exists ts. split; [exact Hc|].
  destruct Hp as [Hrate [Htiers Herr]]. cbn [snd] in *.
  destruct ts as [|t rest].
  - left. inversion Hend; subst. simpl. repeat split; try assumption.
    discriminate.
  - right. split; [discriminate|].
    unfold collapse.
    destruct rest as [|t' rest'].
    + simpl in Hend. unfold unbounded.
      destruct (feq (end_of t) finf); inversion Hend; subst; simpl;
        rewrite ?Hrate, ?Htiers; split; try assumption; reflexivity.
    + assert (Hend' : Ok (set_tiers res
                            (map band_of_triple (sort_by_start (t :: t' :: rest'))))
                      = Ok r).
      { destruct (sort_by_start (t :: t' :: rest')) as [|a [|b more]] eqn:Es;
          try exact Hend.
        apply sort_by_start_single in Es. discriminate. }
      inversion Hend'; subst. simpl. rewrite Hrate.
      split; [assumption|reflexivity].
Qed.

Lemma fetch_json_fetched (url : string) :
  returns (_fetch_json env url)
    (fun p => truthy (fst p) = true -> fetched env (fst p)).
Proof.
  intros l [d e] l' H. unfold _fetch_json in H. simpl.
  destruct (http_get env l url) as [v|c r'|r' s|s] eqn:E;
    inversion H; subst; simpl; try discriminate.
  intros _. exists l, url. exact E.
Qed.

Lemma unknown_region_result (region_code : string) (P : PricingResult -> Prop) :
  (forall r, error r <> None -> rate_per_gb_month r = None -> tiers r = [] -> P r) ->
  P (set_error default_result ("Unknown region: " ++ region_code)%string).
Proof. intros H. apply H; simpl; try reflexivity. discriminate. Qed.

(** A result of the public S3 client is an error without rate and
    tiers, or the scan of a document the price list served. *)
Lemma public_s3_cases region_code storage_class currency :
  returns (resolve_s3_storage_public env region_code storage_class currency)
    (fun r =>
       (error r <> None /\ rate_per_gb_month r = None /\ tiers r = [])
       \/ exists location data url,
            RegionMapping.get_location_for_region region_code = Some location
            /\ fetched env data
            /\ s3_scan env data url location storage_class currency = Ok r).
Proof.
  unfold resolve_s3_storage_public.
  destruct (RegionMapping.get_location_for_region region_code) as [location|].
  2:{ apply returns_ret. left. simpl. repeat split. discriminate. }
  destruct (negb (str_truthy location)).
  { apply returns_ret. left. simpl. repeat split. discriminate. }
  apply returns_bind_any. intros u.
  apply returns_bind
    with (Q := fun p => truthy (fst p) = true -> fetched env (fst p)).
  { destruct (truthy (some_str u)).
    - apply fetch_json_fetched.
    - apply returns_ret. simpl. discriminate. }
  intros [data fetch_error] Hd. simpl in Hd.
  apply returns_bind
    with (Q := fun p => truthy (snd (fst p)) = true -> fetched env (snd (fst p))).
  { destruct (negb (truthy data)) eqn:Et.
    - apply returns_bind with (Q := fun p => truthy (fst p) = true -> fetched env (fst p)).
      + apply fetch_json_fetched.
      + intros [d fe2] Hd2. apply returns_ret. exact Hd2.
    - apply returns_ret. exact Hd. }
  intros [[fetch_error1 data1] url1] Hd1. simpl in Hd1.
  apply returns_bind
    with (Q := fun p => truthy (snd (fst p)) = true -> fetched env (snd (fst p))).
  { destruct (negb (truthy data1)) eqn:Et.
    - apply returns_bind with (Q := fun p => truthy (fst p) = true -> fetched env (fst p)).
      + apply fetch_json_fetched.
      + intros [d fe2] Hd2. apply returns_ret. exact Hd2.
    - apply returns_ret. exact Hd1. }
  intros [[fetch_error2 data2] url2] Hd2. simpl in Hd2.
  destruct (truthy data2) eqn:Et; simpl.
  - apply returns_lift. intros r Hr. right.
    exists location, data2, url2. repeat split; auto.
  - apply returns_ret. left. simpl. repeat split. discriminate.
Qed.

(** *** The Backup client *)

(** A result that carries a flat rate and nothing else. *)
Lemma backup_dim_flat best sku attrs currency kv :
  pristine best ->
  rreturns (backup_dim env best sku attrs currency kv)
    (fun o => forall b, o = Some b ->
       tiers b = [] /\ error b = None /\ rate_per_gb_month b <> None).
Proof.
  intros [Hr [Ht He]]. unfold backup_dim.
  apply rreturns_bind_any. intros [price u].
  destruct price as [p|]; [|apply rreturns_ok; discriminate].
  apply rreturns_bind_any. intros [r|]; [|apply rreturns_ok; discriminate].
  destruct (fge r f0); apply rreturns_ok; [|discriminate].
  intros b Hb. inversion Hb; subst. simpl. repeat split; try assumption.
  discriminate.
Qed.

Lemma backup_product_flat best location currency on_demand kv :
  pristine best ->
  rreturns (backup_product env best location currency on_demand kv)
    (fun o => forall b, o = Some b ->
       tiers b = [] /\ error b = None /\ rate_per_gb_month b <> None).
Proof.
  intros Hp. destruct kv as [sku product]. unfold backup_product.
  apply rreturns_bind_any. intros a0.
  apply rreturns_bind_any. intros m.
  destruct (negb m); [apply rreturns_ok; discriminate|].
  apply rreturns_bind_any. intros known.
  destruct (negb known); [apply rreturns_ok; discriminate|].
  apply rreturns_bind_any. intros term_entries.
  apply rreturns_bind_any. intros entries.
  apply first_match_returns. intros kv. unfold backup_term.
  apply rreturns_bind_any. intros d0.
  apply rreturns_bind_any. intros dims.
  apply first_match_returns. intros kv'.
  apply backup_dim_flat, Hp.
Qed.

Lemma backup_scan_flat data url location currency :
  rreturns (backup_scan env data url location currency)
    flat_or_error.
Proof.
  unfold backup_scan, flat_or_error.
  apply rreturns_bind_any. intros p0.
  apply rreturns_bind_any. intros t0.
  apply rreturns_bind_any. intros o0.
  apply rreturns_bind_any. intros prods.
  eapply rreturns_bind.
  - apply first_match_returns. intros kv.
    apply backup_product_flat. apply pristine_initial.
  - intros [b|] Hb; apply rreturns_ok.
    + destruct (Hb b eq_refl) as [Ht [He Hr]]. split; [exact Ht|].
      right. split; assumption.
    + simpl. split; [reflexivity|]. left. split; [discriminate|reflexivity].
Qed.

(** The public Backup client never reports tiers: its result is an
    error, or one flat rate. *)
Lemma public_backup_flat region_code currency :
  returns (resolve_aws_backup_storage_public env region_code currency)
    flat_or_error.
Proof.
  unfold resolve_aws_backup_storage_public, flat_or_error.
  destruct (RegionMapping.get_location_for_region region_code) as [location|].
  2:{ apply returns_ret. simpl. split; [reflexivity|]. left.
      split; [discriminate|reflexivity]. }
  destruct (negb (str_truthy location)).
  { apply returns_ret. simpl. split; [reflexivity|]. left.
    split; [discriminate|reflexivity]. }
  apply returns_bind_any. intros discovered.
  apply returns_bind_any. intros [[fetch_error data] url].
  destruct (negb (truthy data)).
  - apply returns_ret. simpl. split; [reflexivity|]. left.
    split; [discriminate|reflexivity].
  - apply returns_lift. apply backup_scan_flat.
Qed.

Lemma backup_dim_first best sku attrs currency kv ys :
  pristine best ->
  backup_dim_triples env currency kv = Ok ys ->
  match ys with
  | [] => backup_dim env best sku attrs currency kv = Ok None
  | t :: _ =>
      exists b, backup_dim env best sku attrs currency kv = Ok (Some b)
                /\ rate_of_first b t
  end.
Proof.
  intros [Hr [Ht He]] H. unfold backup_dim_triples in H. unfold backup_dim.
  destruct (_parse_price_dimension env (snd kv) currency) as [[price u]|];
    cbn [rbind] in *; [|discriminate].
  destruct price as [p|]; [|inversion H; reflexivity].
  destruct (_normalize_to_gb_month p u) as [[r|]|]; cbn [rbind] in *;
    try discriminate; [|inversion H; reflexivity].
  destruct (fge r f0); [|inversion H; reflexivity].
  destruct (_range_from_dim env (snd kv)) as [[start end_]|];
    cbn [rbind] in *; [|discriminate].
  inversion H; subst. eexists. split; [reflexivity|].
  split; [reflexivity|exact He].
Qed.

Lemma backup_product_first best location currency on_demand kv ys :
  pristine best ->
  backup_product_triples env location currency on_demand kv = Ok ys ->
  match ys with
  | [] => backup_product env best location currency on_demand kv = Ok None
  | t :: _ =>
      exists b,
        backup_product env best location currency on_demand kv = Ok (Some b)
        /\ rate_of_first b t
  end.
Proof.
  intros Hp H. destruct kv as [sku product].
  unfold backup_product_triples in H. unfold backup_product.
  destruct (get product "attributes") as [a0|]; cbn [rbind] in *;
    [|discriminate].
  destruct (_backup_storage_match (py_or a0 (VDict [])) location) as [m|];
    cbn [rbind] in *; [|discriminate].
  destruct (negb m); [inversion H; reflexivity|].
  destruct (py_in sku on_demand) as [known|]; cbn [rbind] in *;
    [|discriminate].
  destruct (negb known); [inversion H; reflexivity|].
  destruct (getitem on_demand sku) as [term_entries|]; cbn [rbind] in *;
    [|discriminate].
  destruct (items term_entries) as [entries|]; cbn [rbind] in *;
    [|discriminate].
  revert ys H. apply first_match_collect.
  intros kv ys H. unfold backup_term_triples in H. unfold backup_term.
  destruct (get (snd kv) "priceDimensions") as [d0|]; cbn [rbind] in *;
    [|discriminate].
  destruct (items (py_or d0 (VDict []))) as [dims|]; cbn [rbind] in *;
    [|discriminate].
  revert ys H. apply first_match_collect.
  intros kv' ys H. apply backup_dim_first; assumption.
Qed.

(** Against the triples of the document, the Backup scan reports an
    error when there is none and the rate of the first otherwise. *)
Lemma backup_scan_first data url location currency r ts :
  backup_scan env data url location currency = Ok r ->
  backup_triples env data location currency = Ok ts ->
  match ts with
  | [] => error r <> None
  | t :: _ => rate_of_first r t
  end.
Proof.
  intros H Hts. unfold backup_scan in H. unfold backup_triples in Hts.
  destruct (get data "products") as [p0|]; cbn [rbind] in *; [|discriminate].
  destruct (get data "terms") as [t0|]; cbn [rbind] in *; [|discriminate].
  destruct (get (py_or t0 (VDict [])) "OnDemand") as [o0|];
    cbn [rbind] in *; [|discriminate].
  destruct (items (py_or p0 (VDict []))) as [prods|]; cbn [rbind] in *;
    [|discriminate].
  pose proof (first_match_collect
                (backup_product env
                   (set_raw_filter_used default_result
                      (VDict [("service"%string, VStr "AWS Backup (public)");
                              ("location"%string, VStr location);
                              ("url"%string, url)]))
                   location currency (py_or o0 (VDict [])))
                (backup_product_triples env location currency (py_or o0 (VDict [])))
                rate_of_first
                (fun x ys Hx =>
                   backup_product_first _ location currency _ x ys
                     (pristine_initial _) Hx)
                prods ts Hts) as Hfirst.
  destruct ts as [|t rest].
  - rewrite Hfirst in H. cbn [rbind] in H. inversion H; subst. discriminate.
  - destruct Hfirst as [b [Hb HR]]. rewrite Hb in H. cbn [rbind] in H.
    inversion H; subst. exact HR.
Qed.

Lemma backup_fetch_body_fetched region_code st service_code :
  (truthy (snd (fst st)) = true -> fetched env (snd (fst st))) ->
  returns (backup_fetch_body env region_code st service_code)
    (fun fl =>
       match fl with
       | Continue s | Break s =>
           truthy (snd (fst s)) = true -> fetched env (snd (fst s))
       end).
Proof.
  intros Hst. unfold backup_fetch_body.
  destruct service_code as [sc|]; [|apply returns_ret, Hst].
  destruct (negb (str_truthy sc)); [apply returns_ret, Hst|].
  destruct st as [[fetch_error data] url]. cbn [fst snd] in Hst.
  apply returns_bind_any. intros u.
  apply returns_bind
    with (Q := fun fl =>
                 match fl with
                 | Continue s | Break s =>
                     truthy (snd (fst s)) = true -> fetched env (snd (fst s))
                 end).
  { destruct (truthy (some_str u)).
    - eapply returns_bind; [apply fetch_json_fetched|].
      intros [d fe] Hd. apply returns_ret.
      destruct (truthy d); exact Hd.
    - apply returns_ret. exact Hst. }
  intros [[[fe1 d1] u1]|s1] H1; [|apply returns_ret, H1].
  cbn [fst snd] in H1.
  apply returns_bind
    with (Q := fun fl =>
                 match fl with
                 | Continue s | Break s =>
                     truthy (snd (fst s)) = true -> fetched env (snd (fst s))
                 end).
  { destruct (negb (truthy d1)).
    - eapply returns_bind; [apply fetch_json_fetched|].
      intros [d fe] Hd. apply returns_ret.
      destruct (truthy d); exact Hd.
    - apply returns_ret. exact H1. }
  intros [[[fe2 d2] u2]|s2] H2; [|apply returns_ret, H2].
  cbn [fst snd] in H2.
  apply returns_bind
    with (Q := fun s =>
                 truthy (snd (fst s)) = true -> fetched env (snd (fst s))).
  { destruct (negb (truthy d2)).
    - eapply returns_bind; [apply fetch_json_fetched|].
      intros [d fe] Hd. apply returns_ret. exact Hd.
    - apply returns_ret. exact H2. }
  intros s3 H3. apply returns_ret.
  generalize (truthy (snd (fst s3))) at 1. intros [|]; exact H3.
Qed.

(** A result of the public Backup client is an error for want of a
    document, or the scan of a document the price list served. *)
Lemma public_backup_cases region_code currency :
  returns (resolve_aws_backup_storage_public env region_code currency)
    (fun r =>
       error r <> None
       \/ exists location data url,
            RegionMapping.get_location_for_region region_code = Some location
            /\ fetched env data
            /\ backup_scan env data url location currency = Ok r).
Proof.
  unfold resolve_aws_backup_storage_public.
  destruct (RegionMapping.get_location_for_region region_code) as [location|].
  2:{ apply returns_ret. left. discriminate. }
  destruct (negb (str_truthy location)).
  { apply returns_ret. left. discriminate. }
  apply returns_bind_any. intros discovered.
  apply returns_bind
    with (Q := fun s =>
                 truthy (snd (fst s)) = true -> fetched env (snd (fst s))).
  { apply for_loopM_invariant.
    - intros s x Hs. apply backup_fetch_body_fetched, Hs.
    - simpl. discriminate. }
  intros [[fetch_error data] url] Hd. cbn [fst snd] in Hd.
  destruct (truthy data) eqn:Et; simpl.
  - apply returns_lift. intros r Hr. right.
    exists location, data, url. repeat split; auto.
  - apply returns_ret. left. discriminate.
Qed.

(** *** Only the price list is contacted *)

Lemma fetch_json_fetches_only (url : string) :
  fetches_only (_fetch_json env url).
Proof.
  intros l a l' H. unfold _fetch_json in H. inversion H; subst.
  exists [url]. reflexivity.
Qed.

Ltac fetches :=
  repeat first
    [ apply fetches_only_ret
    | apply fetches_only_lift
    | apply fetch_json_fetches_only
    | apply fetches_only_bind
    | match goal with
      | |- forall _, _ => intro
      | |- fetches_only (match ?x with _ => _ end) => destruct x
      | |- fetches_only (let '(_, _) := ?x in _) => destruct x
      end ].

Lemma resolve_offer_url_fetches_only (service_code : string) :
  fetches_only (_resolve_offer_url env service_code).
Proof. unfold _resolve_offer_url. fetches. Qed.

Lemma discover_fetches_only :
  fetches_only (_discover_backup_offer_code env).
Proof. unfold _discover_backup_offer_code. fetches. Qed.

Lemma backup_fetch_body_fetches_only region_code st service_code :
  fetches_only (backup_fetch_body env region_code st service_code).
Proof.
  unfold backup_fetch_body.
  destruct service_code as [sc|]; [|apply fetches_only_ret].
  destruct (negb (str_truthy sc)); [apply fetches_only_ret|].
  destruct st as [[fetch_error data] url].
  apply fetches_only_bind; [apply resolve_offer_url_fetches_only|].
  intros u. fetches.
Qed.

Lemma public_backup_fetches_only region_code currency :
  fetches_only (resolve_aws_backup_storage_public env region_code currency).
Proof.
  unfold resolve_aws_backup_storage_public.
  destruct (RegionMapping.get_location_for_region region_code) as [location|];
    [|apply fetches_only_ret].
  destruct (negb (str_truthy location)); [apply fetches_only_ret|].
  apply fetches_only_bind; [apply discover_fetches_only|]. intros discovered.
  apply fetches_only_bind.
  - apply fetches_only_for_loopM. intros s x.
    apply backup_fetch_body_fetches_only.
  - intros [[fetch_error data] url]. fetches.
Qed.

Lemma public_s3_fetches_only region_code storage_class currency :
  fetches_only (resolve_s3_storage_public env region_code storage_class currency).
Proof.
  unfold resolve_s3_storage_public.
  destruct (RegionMapping.get_location_for_region region_code) as [location|];
    [|apply fetches_only_ret].
  destruct (negb (str_truthy location)); [apply fetches_only_ret|].
  apply fetches_only_bind; [apply resolve_offer_url_fetches_only|]. intros u.
  fetches.
Qed.

End PublicClient.

(* ===================================================================== *)
(** ** The pricing resolver *)
(* ===================================================================== *)

Section Resolver.

Import Pricing Spec PricingResolver.

Variable env : Env.

Lemma flat_or_error_well_shaped (r : PricingResult) :
  flat_or_error r -> well_shaped r.
Proof.
  intros [Ht [[He Hr]|[He Hr]]]; split; auto.
Qed.

Lemma collapse_shape (ts : list triple) (rate : option float) (bands : list value) :
  (rate, bands) = collapse ts -> rate = None \/ bands = [].
Proof.
  unfold collapse. destruct ts as [|t [|t' rest]]; intros H.
  - inversion H; auto.
  - destruct (unbounded t); inversion H; auto.
  - inversion H; auto.
Qed.

Lemma public_s3_well_shaped region_code storage_class currency :
  returns (PublicPricing.resolve_s3_storage_public env region_code storage_class
             currency)
    well_shaped.
Proof.
  intros l r l' H.
  destruct (public_s3_cases env region_code storage_class currency l r l' H)
    as [[He [Hr Ht]]|[location [data [url [_ [_ Hscan]]]]]].
  - split; auto.
  - destruct (s3_scan_collapse env _ _ _ _ _ _ Hscan)
      as [ts [_ [[_ [He [Hr Ht]]]|[_ [He Hc]]]]].
    + split; auto.
    + split; [left; exact He|]. apply (collapse_shape ts). exact Hc.
Qed.

(** *** The authenticated scans *)

Lemma api_s3_dim_pristine product attrs currency st kv :
  pristine (snd st) ->
  rreturns (api_s3_dim env product attrs currency st kv)
    (fun s => pristine (snd s)).
Proof.
  destruct st as [tw res]. intros Hp. unfold api_s3_dim.
  apply rreturns_bind_any. intros [price u].
  destruct price as [p|]; [|apply rreturns_ok, Hp].
  apply rreturns_bind_any. intros [r|]; [|apply rreturns_ok, Hp].
  destruct (flt r f0); [apply rreturns_ok, Hp|].
  apply rreturns_bind_any. intros [start end_].
  apply rreturns_bind with (Q := pristine).
  - destruct (is_none (sku res)).
    + apply rreturns_bind_any. intros pr.
      apply rreturns_bind_any. intros s. apply rreturns_ok.
      destruct Hp as [H1 [H2 H3]]. repeat split; assumption.
    + apply rreturns_ok, Hp.
  - intros res1 [H1 [H2 H3]]. apply rreturns_ok. repeat split; assumption.
Qed.

Lemma api_s3_product_pristine currency st product :
  pristine (snd st) ->
  rreturns (api_s3_product env currency st product)
    (fun s => pristine (snd s)).
Proof.
  intros Hp. unfold api_s3_product.
  apply rreturns_bind_any. intros pr.
  apply rreturns_bind_any. intros attrs.
  apply rreturns_bind_any. intros pf.
  destruct (negb (eq_str pf "Storage")); [apply rreturns_ok, Hp|].
  apply rreturns_bind_any. intros usage_type.
  apply rreturns_bind_any. intros t0.
  apply rreturns_bind_any. intros on_demand.
  apply rreturns_bind_any. intros entries.
  apply foldM_invariant; [|exact Hp].
  intros s kv Hs. unfold api_s3_term.
  apply rreturns_bind_any. intros d0.
  apply rreturns_bind_any. intros dims.
  apply foldM_invariant; [|exact Hs].
  intros s' kv' Hs'. apply api_s3_dim_pristine, Hs'.
Qed.

Lemma finish_well_shaped (res : PricingResult) (tw : list triple) (msg : string) :
  pristine res ->
  rreturns
    (match tw with
     | [] => Ok (set_error res msg)
     | _ =>
         match sort_by_start tw with
         | [t] =>
             if feq (end_of t) finf then Ok (set_rate res (rate_of t))
             else Ok (set_tiers res (map band_of_triple (sort_by_start tw)))
         | _ => Ok (set_tiers res (map band_of_triple (sort_by_start tw)))
         end
     end)
    well_shaped.
Proof.
  intros [Hr [Ht He]]. unfold well_shaped.
  destruct tw as [|t rest].
  - apply rreturns_ok. simpl. auto.
  - destruct (sort_by_start (t :: rest)) as [|a [|b more]].
    + apply rreturns_ok. simpl. auto.
    + destruct (feq (end_of a) finf); apply rreturns_ok; simpl; auto.
    + apply rreturns_ok. simpl. auto.
Qed.

Lemma api_s3_scan_well_shaped products location storage_class currency :
  rreturns (api_s3_scan env products location storage_class currency)
    well_shaped.
Proof.
  unfold api_s3_scan.
  apply rreturns_bind with (Q := fun s => pristine (snd s)).
  - apply foldM_invariant; [|apply pristine_initial].
    intros s x Hs. apply api_s3_product_pristine, Hs.
  - intros [tw res] Hp. apply finish_well_shaped, Hp.
Qed.

Lemma fill_best_flat best rate s attrs term dim currency :
  pristine best ->
  let b := fill_best best rate s attrs term dim currency in
  tiers b = [] /\ error b = None /\ rate_per_gb_month b <> None.
Proof.
  intros [Hr [Ht He]]. simpl. repeat split; try assumption. discriminate.
Qed.

Lemma api_backup_term_flat best product attrs term currency kv :
  pristine best ->
  rreturns (api_backup_term env best product attrs term currency kv)
    (fun o => forall b, o = Some b ->
       tiers b = [] /\ error b = None /\ rate_per_gb_month b <> None).
Proof.
  intros Hp. unfold api_backup_term.
  apply rreturns_bind_any. intros d0.
  apply rreturns_bind_any. intros dims.
  apply first_match_returns. intros kv'. unfold api_backup_dim.
  apply rreturns_bind_any. intros [price u].
  destruct price as [p|]; [|apply rreturns_ok; discriminate].
  apply rreturns_bind_any. intros [r|]; [|apply rreturns_ok; discriminate].
  destruct (fge r f0); [|apply rreturns_ok; discriminate].
  apply rreturns_bind_any. intros pr.
  apply rreturns_bind_any. intros s. apply rreturns_ok.
  intros b Hb. inversion Hb; subst. apply fill_best_flat, Hp.
Qed.

Lemma api_backup_scan_flat products location filters currency :
  rreturns (api_backup_scan env products location filters currency)
    flat_or_error.
Proof.
  unfold api_backup_scan, flat_or_error.
  assert (Hgood : forall b : PricingResult,
            tiers b = [] /\ error b = None /\ rate_per_gb_month b <> None ->
            tiers b = []
            /\ (error b <> None /\ rate_per_gb_month b = None
                \/ error b = None /\ rate_per_gb_month b <> None)).
  { intros b [Ht [He Hr]]. split; [exact Ht|]. right. split; assumption. }
  eapply rreturns_bind.
  { apply first_match_returns. intros product. unfold api_backup_on_demand.
    apply rreturns_bind_any. intros pr.
    apply rreturns_bind_any. intros attrs.
    apply rreturns_bind_any. intros pf.
    destruct (negb (eq_str pf "Storage")); [apply rreturns_ok; discriminate|].
    apply rreturns_bind_any. intros t0.
    apply rreturns_bind_any. intros on_demand.
    apply rreturns_bind_any. intros entries.
    apply first_match_returns. intros kv.
    apply api_backup_term_flat, pristine_initial. }
  intros [b|] Hb; [apply rreturns_ok, Hgood, Hb, eq_refl|].
  eapply rreturns_bind.
  { apply first_match_returns. intros product. unfold api_backup_any_term.
    apply rreturns_bind_any. intros pr.
    apply rreturns_bind_any. intros attrs.
    apply rreturns_bind_any. intros pf.
    destruct (negb (eq_str pf "Storage")); [apply rreturns_ok; discriminate|].
    apply first_match_returns. intros term_type. unfold api_backup_term_type.
    apply rreturns_bind_any. intros t0.
    apply rreturns_bind_any. intros t1.
    apply rreturns_bind_any. intros entries.
    apply first_match_returns. intros kv.
    apply api_backup_term_flat, pristine_initial. }
  intros [b|] Hb2; [apply rreturns_ok, Hgood, Hb2, eq_refl|].
  apply rreturns_ok. simpl. split; [reflexivity|]. left.
  split; [discriminate|reflexivity].
Qed.

(** *** The resolver's results *)

Lemma error_result_flat (msg : string) : flat_or_error (error_result msg).
Proof. split; [reflexivity|]. left. split; [discriminate|reflexivity]. Qed.

Lemma error_result_raw_flat (msg : string) (raw : value) :
  flat_or_error (set_raw_filter_used (error_result msg) raw).
Proof. split; [reflexivity|]. left. split; [discriminate|reflexivity]. Qed.

Lemma get_products_returns_any (c : client) (service : string) (filters : value)
  (P : products_outcome -> Prop) :
  (forall o, P o) -> returns (get_products env c service filters) P.
Proof. intros H l a l' _. apply H. Qed.

Lemma resolver_backup_flat region_code currency client :
  returns (resolve_aws_backup_storage env region_code currency client)
    flat_or_error.
Proof.
  unfold resolve_aws_backup_storage.
  destruct (RegionMapping.get_location_for_region region_code) as [location|];
    [|apply returns_ret, error_result_flat].
  destruct (negb (str_truthy location));
    [apply returns_ret, error_result_flat|].
  eapply returns_bind; [apply public_backup_flat|].
  intros pub [Ht Hcases].
  destruct (no_error pub && _) eqn:Hu.
  - apply returns_ret. split; [reflexivity|]. right. simpl.
    split; [reflexivity|].
    apply andb_prop in Hu as [_ Hr].
    destruct (rate_per_gb_month pub); [discriminate|discriminate Hr].
  - apply returns_bind_any. intros [c| |e].
    + apply returns_bind_any. intros [products| |e|e].
      * apply returns_lift, api_backup_scan_flat.
      * apply returns_ret, error_result_raw_flat.
      * apply returns_ret, error_result_raw_flat.
      * apply returns_ret, error_result_raw_flat.
    + apply returns_ret, error_result_raw_flat.
    + apply returns_ret, error_result_flat.
Qed.

Lemma resolver_s3_well_shaped region_code storage_class currency client :
  returns (resolve_s3_storage env region_code storage_class currency client)
    well_shaped.
Proof.
  unfold resolve_s3_storage.
  pose proof (fun m raw => flat_or_error_well_shaped _
                             (error_result_raw_flat m raw)) as Herr1.
  pose proof (fun m => flat_or_error_well_shaped _
                         (error_result_flat m)) as Herr2.
  destruct (RegionMapping.get_location_for_region region_code) as [location|];
    [|apply returns_ret, Herr2].
  destruct (negb (str_truthy location)); [apply returns_ret, Herr2|].
  eapply returns_bind; [apply public_s3_well_shaped|].
  intros pub [He Hs].
  destruct (no_error pub && _) eqn:Hu.
  - apply returns_ret. split; simpl; [left; reflexivity|exact Hs].
  - apply returns_bind_any. intros [c| |e].
    + apply returns_bind_any. intros [products| |e|e].
      * apply returns_lift, api_s3_scan_well_shaped.
      * apply returns_ret, Herr1.
      * apply returns_ret, Herr1.
      * apply returns_ret, Herr1.
    + apply returns_ret, Herr1.
    + apply returns_ret, Herr2.
Qed.

End Resolver.

(* ===================================================================== *)
(** ** Properties of the resolution pipeline *)
(* ===================================================================== *)

Section Pipeline.

Import Pricing Spec Examples.
Import RegionMapping.

Lemma public_s3_known_region env region_code storage_class currency l pub l' :
  PublicPricing.resolve_s3_storage_public env region_code storage_class
    currency l = (Ok pub, l') ->
  no_error pub = true ->
  exists location,
    get_location_for_region region_code = Some location
    /\ str_truthy location = true.
Proof.
  intros H Hne. unfold PublicPricing.resolve_s3_storage_public in H.
  destruct (get_location_for_region region_code) as [location|].
  - destruct (str_truthy location) eqn:E.
    + exists location. split; [reflexivity|exact E].
    + inversion H; subst. discriminate Hne.
  - inversion H; subst. discriminate Hne.
Qed.

Lemma public_backup_known_region env region_code currency l pub l' :
  PublicPricing.resolve_aws_backup_storage_public env region_code currency l
  = (Ok pub, l') ->
  no_error pub = true ->
  exists location,
    get_location_for_region region_code = Some location
    /\ str_truthy location = true.
Proof.
  intros H Hne. unfold PublicPricing.resolve_aws_backup_storage_public in H.
  destruct (get_location_for_region region_code) as [location|].
  - destruct (str_truthy location) eqn:E.
    + exists location. split; [reflexivity|exact E].
    + inversion H; subst. discriminate Hne.
  - inversion H; subst. discriminate Hne.
Qed.

(** C1. Resolver precedence.  Whenever the public price list client
    returns a result without error that carries a flat rate or tiers,
    [resolve_s3_storage] and [resolve_aws_backup_storage] return a
    result with that rate and those tiers and no error, and stop where
    the public client stopped: every call logged is a fetch of the
    public price list, the authenticated client is neither created nor
    queried. *)
Theorem resolver_prefers_public_result
  (env : Env) (region_code storage_class currency : string)
  (client : option client) (l l' : log) (pub : PricingResult) :
  (PublicPricing.resolve_s3_storage_public env region_code storage_class
     currency l = (Ok pub, l') ->
   usable pub ->
   exists r,
     PricingResolver.resolve_s3_storage env region_code storage_class currency
       client l = (Ok r, l')
     /\ rate_per_gb_month r = rate_per_gb_month pub
     /\ tiers r = tiers pub
     /\ error r = None
     /\ only_public_fetches l l')
  /\
  (PublicPricing.resolve_aws_backup_storage_public env region_code currency l
   = (Ok pub, l') ->
   usable pub ->
   exists r,
     PricingResolver.resolve_aws_backup_storage env region_code currency
       client l = (Ok r, l')
     /\ rate_per_gb_month r = rate_per_gb_month pub
     /\ tiers r = tiers pub
     /\ error r = None
     /\ only_public_fetches l l').
Proof.
  split; intros Hpub [Hne Hdata].
  - pose proof (public_s3_fetches_only env _ _ _ _ _ _ Hpub) as Hlog.
    destruct (public_s3_known_region _ _ _ _ _ _ _ Hpub Hne)
      as [location [Hloc Htr]].
    unfold PricingResolver.resolve_s3_storage.
    rewrite Hloc, Htr. cbn [negb]. unfold bind. rewrite Hpub, Hne. cbn [andb].
    assert (Hcond : negb (match rate_per_gb_month pub with
                          | None => true | Some _ => false end)
                    || match tiers pub with [] => false | _ => true end = true).
    { destruct Hdata as [Hr|Ht].
      - destruct (rate_per_gb_month pub); [reflexivity|congruence].
      - destruct (tiers pub); [congruence|apply orb_true_r]. }
    rewrite Hcond. eexists. split; [reflexivity|]. simpl. auto.
  - pose proof (public_backup_fetches_only env _ _ _ _ _ Hpub) as Hlog.
    pose proof (public_backup_flat env _ _ _ _ _ Hpub) as [Htiers _].
    destruct (public_backup_known_region _ _ _ _ _ _ Hpub Hne)
      as [location [Hloc Htr]].
    unfold PricingResolver.resolve_aws_backup_storage.
    rewrite Hloc, Htr. cbn [negb]. unfold bind. rewrite Hpub, Hne. cbn [andb].
    assert (Hcond : negb (match rate_per_gb_month pub with
                          | None => true | Some _ => false end) = true).
    { destruct Hdata as [Hr|Ht]; [|congruence].
      destruct (rate_per_gb_month pub); [reflexivity|congruence]. }
    rewrite Hcond. eexists. split; [reflexivity|]. simpl. auto.
Qed.

Lemma resolver_prefers_public_result_witness :
  (exists r,
     PricingResolver.resolve_s3_storage online_env "us-east-1" "Standard" "USD"
       None []
     = (Ok r, snd (PublicPricing.resolve_s3_storage_public online_env
                     "us-east-1" "Standard" "USD" []))
     /\ rate_per_gb_month r = rate_per_gb_month online_s3_result
     /\ tiers r = tiers online_s3_result
     /\ error r = None
     /\ only_public_fetches []
          (snd (PublicPricing.resolve_s3_storage_public online_env
                  "us-east-1" "Standard" "USD" [])))
  /\ (exists r,
       PricingResolver.resolve_aws_backup_storage online_env "us-east-1" "USD"
         None []
       = (Ok r, snd (PublicPricing.resolve_aws_backup_storage_public online_env
                       "us-east-1" "USD" []))
       /\ rate_per_gb_month r = rate_per_gb_month online_backup_result
       /\ tiers r = tiers online_backup_result
       /\ error r = None
       /\ only_public_fetches []
            (snd (PublicPricing.resolve_aws_backup_storage_public online_env
                    "us-east-1" "USD" []))).
Proof.
  split.
  - apply (proj1 (resolver_prefers_public_result online_env "us-east-1"
                    "Standard" "USD" None [] _ online_s3_result)).
    + vm_compute. reflexivity.
    + split; [vm_compute; reflexivity|].
      right. vm_compute. discriminate.
  - apply (proj2 (resolver_prefers_public_result online_env "us-east-1"
                    "Standard" "USD" None [] _ online_backup_result)).
    + vm_compute. reflexivity.
    + split; [vm_compute; reflexivity|].
      left. vm_compute. discriminate.
Defined.

(** C4. Error exclusivity.  Every result that a public-client or
    resolver operation returns with [error] set has no flat rate and an
    empty tier list. *)
Theorem error_excludes_rate_and_tiers
  (env : Env) (region_code storage_class currency : string)
  (client : option client) (l l' : log) (r : PricingResult) :
  returned_by_pipeline env region_code storage_class currency client l l' r ->
  error r <> None ->
  rate_per_gb_month r = None /\ tiers r = [].
Proof.
  intros H He.
  assert (Hw : well_shaped r).
  { destruct H as [H|[H|[H|H]]].
    - apply flat_or_error_well_shaped.
      exact (public_backup_flat env _ _ _ _ _ H).
    - exact (public_s3_well_shaped env _ _ _ _ _ _ H).
    - apply flat_or_error_well_shaped.
      exact (resolver_backup_flat env _ _ _ _ _ _ H).
    - exact (resolver_s3_well_shaped env _ _ _ _ _ _ _ H). }
  destruct Hw as [[Hn|Hempty] _]; [contradiction|exact Hempty].
Qed.

Lemma error_excludes_rate_and_tiers_witness :
  rate_per_gb_month offline_s3_result = None /\ tiers offline_s3_result = [].
Proof.
  apply (error_excludes_rate_and_tiers offline_env "us-east-1" "Standard" "USD"
           None []
           (snd (PricingResolver.resolve_s3_storage offline_env "us-east-1"
                   "Standard" "USD" None []))).
  - right. right. right. vm_compute. reflexivity.
  - vm_compute. discriminate.
Defined.

(** C5. Representation exclusivity.  No result that a public-client or
    resolver operation returns has both a flat rate and a non-empty
    tier list. *)
Theorem rate_and_tiers_exclude_each_other
  (env : Env) (region_code storage_class currency : string)
  (client : option client) (l l' : log) (r : PricingResult) :
  returned_by_pipeline env region_code storage_class currency client l l' r ->
  ~ (rate_per_gb_month r <> None /\ tiers r <> []).
Proof.
  intros H [Hr Ht].
  assert (Hw : well_shaped r).
  { destruct H as [H|[H|[H|H]]].
    - apply flat_or_error_well_shaped.
      exact (public_backup_flat env _ _ _ _ _ H).
    - exact (public_s3_well_shaped env _ _ _ _ _ _ H).
    - apply flat_or_error_well_shaped.
      exact (resolver_backup_flat env _ _ _ _ _ _ H).
    - exact (resolver_s3_well_shaped env _ _ _ _ _ _ _ H). }
  destruct Hw as [_ [Hn|Hn]]; contradiction.
Qed.

Lemma rate_and_tiers_exclude_each_other_witness :
  ~ (rate_per_gb_month online_s3_result <> None
     /\ tiers online_s3_result <> []).
Proof.
  apply (rate_and_tiers_exclude_each_other online_env "us-east-1" "Standard"
           "USD" None []
           (snd (PublicPricing.resolve_s3_storage_public online_env "us-east-1"
                   "Standard" "USD" []))).
  right. left. vm_compute. reflexivity.
Defined.

(** Every location of the table is a non-empty text. *)
Lemma known_location_truthy (region_code location : string) :
  get_location_for_region region_code = Some location ->
  str_truthy location = true.
Proof.
  unfold get_location_for_region. generalize (lower (strip region_code)).
  intros k. unfold REGION_TO_LOCATION. cbn [table_get].
  repeat match goal with
         | |- (if ?c then _ else _) = _ -> _ =>
             destruct c; [intros H; inversion H; reflexivity|]
         end.
  discriminate.
Qed.

Lemma not_usable_s3 (pub : PricingResult) :
  ~ usable pub ->
  no_error pub
  && (negb (match rate_per_gb_month pub with None => true | Some _ => false end)
      || match tiers pub with [] => false | _ => true end) = false.
Proof.
  intros H. unfold usable in H.
  destruct (no_error pub); [|reflexivity]. simpl.
  destruct (rate_per_gb_month pub) as [x|].
  - exfalso. apply H. split; [reflexivity|]. left. discriminate.
  - destruct (tiers pub) as [|b bs]; [reflexivity|].
    exfalso. apply H. split; [reflexivity|]. right. discriminate.
Qed.

Lemma not_usable_backup (pub : PricingResult) :
  ~ usable pub ->
  no_error pub
  && negb (match rate_per_gb_month pub with None => true | Some _ => false end)
  = false.
Proof.
  intros H. unfold usable in H.
  destruct (no_error pub); [|reflexivity]. simpl.
  destruct (rate_per_gb_month pub) as [x|]; [|reflexivity].
  exfalso. apply H. split; [reflexivity|]. left. discriminate.
Qed.

Lemma error_or_prefers (pub : PricingResult) (generic : string) (raw : value) :
  prefers_public_message pub
    (set_raw_filter_used
       (PricingResolver.error_result (PricingResolver.error_or pub generic)) raw)
    generic.
Proof.
  unfold prefers_public_message, PricingResolver.error_or. simpl. split.
  - intros text Ht Hne. rewrite Ht.
    destruct text; [congruence|reflexivity].
  - intros [Hn|He]; rewrite ?Hn, ?He; reflexivity.
Qed.

(** C6. Credentials error-message preference.  Once the public client
    has returned a result that is not usable for a known region, if
    creating the authenticated client fails for missing credentials, or
    the client's query fails for missing credentials, the resolver
    returns a result whose error is the public client's own message
    whenever that is a non-empty text, and a generic no-credentials
    message otherwise. *)
Theorem credentials_error_prefers_public_message
  (env : Env) (region_code storage_class currency location : string)
  (client : option client) (l l1 l2 : log) (pub : PricingResult)
  (outcome : client_outcome) :
  get_location_for_region region_code = Some location ->
  ~ usable pub ->
  PricingResolver.client_or_create env client l1 = (Ok outcome, l2) ->
  (PublicPricing.resolve_s3_storage_public env region_code storage_class
     currency l = (Ok pub, l1) ->
   (outcome = ClientNoCredentials ->
    exists r,
      PricingResolver.resolve_s3_storage env region_code storage_class currency
        client l = (Ok r, l2)
      /\ prefers_public_message pub r NO_CREDENTIALS_FOR_CLIENT)
   /\ (forall c,
         outcome = ClientCreated c ->
         (forall filters,
            paginate env l2 c "Amazon S3" filters = PagesNoCredentials) ->
         exists r l3,
           PricingResolver.resolve_s3_storage env region_code storage_class
             currency client l = (Ok r, l3)
           /\ prefers_public_message pub r NO_CREDENTIALS_FOR_QUERY))
  /\
  (PublicPricing.resolve_aws_backup_storage_public env region_code currency l
   = (Ok pub, l1) ->
   (outcome = ClientNoCredentials ->
    exists r,
      PricingResolver.resolve_aws_backup_storage env region_code currency
        client l = (Ok r, l2)
      /\ prefers_public_message pub r NO_CREDENTIALS_FOR_CLIENT)
   /\ (forall c,
         outcome = ClientCreated c ->
         (forall filters,
            paginate env l2 c "AWS Backup" filters = PagesNoCredentials) ->
         exists r l3,
           PricingResolver.resolve_aws_backup_storage env region_code currency
             client l = (Ok r, l3)
           /\ prefers_public_message pub r NO_CREDENTIALS_FOR_QUERY)).
Proof.
  intros Hloc Hnu Hclient.
  pose proof (known_location_truthy _ _ Hloc) as Htr.
  split; intros Hpub; split.
  - intros Ho. subst outcome.
    unfold PricingResolver.resolve_s3_storage.
    rewrite Hloc, Htr. cbn [negb]. unfold bind at 1. rewrite Hpub.
    rewrite (not_usable_s3 pub Hnu). unfold bind. rewrite Hclient.
    eexists. split; [reflexivity|]. apply error_or_prefers.
  - intros c Ho Hpag. subst outcome.
    unfold PricingResolver.resolve_s3_storage.
    rewrite Hloc, Htr. cbn [negb]. unfold bind at 1. rewrite Hpub.
    rewrite (not_usable_s3 pub Hnu). unfold bind at 1. rewrite Hclient.
    unfold bind, PricingResolver.get_products. rewrite Hpag.
    eexists. eexists. split; [reflexivity|]. apply error_or_prefers.
  - intros Ho. subst outcome.
    unfold PricingResolver.resolve_aws_backup_storage.
    rewrite Hloc, Htr. cbn [negb]. unfold bind at 1. rewrite Hpub.
    rewrite (not_usable_backup pub Hnu). unfold bind. rewrite Hclient.
    eexists. split; [reflexivity|]. apply error_or_prefers.
  - intros c Ho Hpag. subst outcome.
    unfold PricingResolver.resolve_aws_backup_storage.
    rewrite Hloc, Htr. cbn [negb]. unfold bind at 1. rewrite Hpub.
    rewrite (not_usable_backup pub Hnu). unfold bind at 1. rewrite Hclient.
    unfold bind, PricingResolver.get_products. rewrite Hpag.
    eexists. eexists. split; [reflexivity|]. apply error_or_prefers.
Qed.

Lemma credentials_error_prefers_public_message_witness :
  (exists r,
     PricingResolver.resolve_s3_storage offline_env "us-east-1" "Standard" "USD"
       None []
     = (Ok r, (snd offline_public_s3_run ++ [EvCreateClient])%list)
     /\ prefers_public_message offline_public_s3_result r
          NO_CREDENTIALS_FOR_CLIENT)
  /\ (exists r l3,
       PricingResolver.resolve_s3_storage offline_env "us-east-1" "Standard"
         "USD" (Some 7%nat) []
       = (Ok r, l3)
       /\ prefers_public_message offline_public_s3_result r
            NO_CREDENTIALS_FOR_QUERY).
Proof.
  assert (Hloc : get_location_for_region "us-east-1"
                 = Some "US East (N. Virginia)"%string)
    by (vm_compute; reflexivity).
  assert (Hnu : ~ usable offline_public_s3_result).
  { intros [Hne _]. vm_compute in Hne. discriminate Hne. }
  assert (Hpub : PublicPricing.resolve_s3_storage_public offline_env
                   "us-east-1" "Standard" "USD" []
                 = (Ok offline_public_s3_result, snd offline_public_s3_run))
    by (vm_compute; reflexivity).
  split.
  - apply (proj1 (proj1 (credentials_error_prefers_public_message offline_env
                           "us-east-1" "Standard" "USD" _ None []
                           (snd offline_public_s3_run) _
                           offline_public_s3_result ClientNoCredentials
                           Hloc Hnu eq_refl) Hpub)).
    reflexivity.
  - apply (proj2 (proj1 (credentials_error_prefers_public_message offline_env
                           "us-east-1" "Standard" "USD" _ (Some 7%nat) []
                           (snd offline_public_s3_run) _
                           offline_public_s3_result (ClientCreated 7%nat)
                           Hloc Hnu eq_refl) Hpub) 7%nat eq_refl).
    intros filters. reflexivity.
Defined.

(** C2, as the claim states it, fails for the Backup operation: on a
    price list whose Backup product is priced in two usage tiers the
    collapse rule yields two bands, yet the client reports the first
    dimension's rate as a flat rate and no tiers. *)
Lemma public_backup_skips_collapse_rule :
  backup_triples online_env backup_doc "US East (N. Virginia)" "USD"
  = Ok backup_doc_triples
  /\ fst (PublicPricing.resolve_aws_backup_storage_public online_env
            "us-east-1" "USD" [])
     = Ok online_backup_result
  /\ rate_per_gb_month online_backup_result = Some (dec 5 2)
  /\ tiers online_backup_result = []
  /\ collapse backup_doc_triples
     = (None, [_build_tier_band f0 (float_of_Z 51200) (dec 5 2);
               _build_tier_band (float_of_Z 51200) finf (dec 4 2)])
  /\ (rate_per_gb_month online_backup_result, tiers online_backup_result)
     <> collapse backup_doc_triples.
Proof.
  repeat split; try (vm_compute; reflexivity).
  vm_compute. discriminate.
Qed.

Lemma collapse_flat_iff (ts : list triple) (rate : option float)
  (bands : list value) :
  (rate, bands) = collapse ts ->
  (rate <> None <-> exists t, ts = [t] /\ unbounded t = true).
Proof.
  unfold collapse. intros H. split.
  - intros Hr. destruct ts as [|t [|t' rest]].
    + inversion H; subst. contradiction.
    + destruct (unbounded t) eqn:E.
      * exists t. split; [reflexivity|exact E].
      * inversion H; subst. contradiction.
    + inversion H; subst. contradiction.
  - intros [t [Ht Hu]]. subst ts. rewrite Hu in H. inversion H. discriminate.
Qed.

(** C2, amended.  On the public path [resolve_s3_storage_public]
    collects the [(start, end, rate)] triples of every qualifying
    product and dimension of the document it fetched; a result without
    error is the collapse of these triples: a flat rate exactly when
    there is one triple and its end is unbounded, otherwise all of them
    as tier bands sorted ascending by start (a permutation of the
    collected triples in which no band starts below its predecessor).
    [resolve_aws_backup_storage_public] does not collapse: it never
    reports tiers, only an error or one flat rate, and that rate is
    the rate of the first triple of the document it fetched. *)
Theorem public_s3_collapse_rule
  (env : Env) (region_code storage_class currency : string)
  (l l' : log) (r : PricingResult) :
  (PublicPricing.resolve_s3_storage_public env region_code storage_class
     currency l = (Ok r, l') ->
   error r = None ->
   exists location data ts,
     get_location_for_region region_code = Some location
     /\ fetched env data
     /\ s3_triples env data location storage_class currency = Ok ts
     /\ ts <> []
     /\ (rate_per_gb_month r, tiers r) = collapse ts
     /\ (rate_per_gb_month r <> None
         <-> exists t, ts = [t] /\ unbounded t = true)
     /\ Permutation (sort_by_start ts) ts
     /\ ascending_by_start (sort_by_start ts)
     /\ (Forall (fun t => is_nan (start_of t) = false) ts ->
         Sorted (fun a b => fle (start_of a) (start_of b) = true)
           (sort_by_start ts)))
  /\ (PublicPricing.resolve_aws_backup_storage_public env region_code currency l
      = (Ok r, l') ->
      flat_or_error r
      /\ (error r = None ->
          exists location data,
            get_location_for_region region_code = Some location
            /\ fetched env data
            /\ forall ts,
                 backup_triples env data location currency = Ok ts ->
                 exists t rest,
                   ts = t :: rest
                   /\ rate_per_gb_month r = Some (rate_of t))).
Proof.
  split.
  - intros H He.
    destruct (public_s3_cases env _ _ _ _ _ _ H)
      as [[He' _]|[location [data [url [Hloc [Hf Hscan]]]]]];
      [contradiction|].
    destruct (s3_scan_collapse env _ _ _ _ _ _ Hscan)
      as [ts [Hts [[_ [He' _]]|[Hne [_ Hc]]]]]; [contradiction|].
    exists location, data, ts. repeat split; try assumption.
    + apply (collapse_flat_iff ts _ _ Hc).
    + apply (collapse_flat_iff ts _ _ Hc).
    + apply sort_by_start_perm.
    + apply sort_by_start_sorted.
    + intros Hn. apply ascending_is_fle; [|apply sort_by_start_sorted].
      apply (Permutation_Forall (Permutation_sym (sort_by_start_perm ts))).
      exact Hn.
  - intros H. split; [exact (public_backup_flat env _ _ _ _ _ H)|].
    intros He.
    destruct (public_backup_cases env _ _ _ _ _ H)
      as [He'|[location [data [url [Hloc [Hf Hscan]]]]]]; [contradiction|].
    exists location, data. repeat split; try assumption.
    intros ts Hts.
    pose proof (backup_scan_first env _ _ _ _ _ _ Hscan Hts) as Hfirst.
    destruct ts as [|t rest]; [contradiction|].
    exists t, rest. split; [reflexivity|apply Hfirst].
Qed.

Lemma public_s3_collapse_rule_witness :
  exists location data ts,
    get_location_for_region "us-east-1" = Some location
    /\ fetched online_env data
    /\ s3_triples online_env data location "Standard" "USD" = Ok ts
    /\ ts <> []
    /\ (rate_per_gb_month online_s3_result, tiers online_s3_result)
       = collapse ts
    /\ (rate_per_gb_month online_s3_result <> None
        <-> exists t, ts = [t] /\ unbounded t = true)
    /\ Permutation (sort_by_start ts) ts
    /\ ascending_by_start (sort_by_start ts)
    /\ (Forall (fun t => is_nan (start_of t) = false) ts ->
        Sorted (fun a b => fle (start_of a) (start_of b) = true)
          (sort_by_start ts)).
Proof.
  apply (proj1 (public_s3_collapse_rule online_env "us-east-1" "Standard" "USD"
                  []
                  (snd (PublicPricing.resolve_s3_storage_public online_env
                          "us-east-1" "Standard" "USD" []))
                  online_s3_result)).
  - vm_compute. reflexivity.
  - vm_compute. reflexivity.
Defined.

(** What the two range readers do on a dict: the public client takes
    the first truthy of the two names of each bound, the authenticated
    path reads [beginRange] and [endRange] only.  Both fall back to
    [0] and to unbounded when the field is absent, [None] or not
    numeric. *)
Lemma api_range_from_dim_reads (env : Env) (d : list (string * value)) :
  PricingResolver.api_range_from_dim env (VDict d)
  = (start <- bound_or_default env (lookup "beginRange" d) f0 ;;
     end_ <- bound_or_default env (lookup "endRange" d) finf ;;
     Ok (start, end_)).
Proof.
  unfold PricingResolver.api_range_from_dim, bound_or_default, get, get_default.
  cbn [rbind].
  destruct (lookup "beginRange" d) as [[ | | | | | | ]|];
    destruct (lookup "endRange" d) as [[ | | | | | | ]|]; reflexivity.
Qed.

Lemma api_range_defaults (env : Env) (d : list (string * value)) :
  lookup "beginRange" d = None -> lookup "endRange" d = None ->
  PricingResolver.api_range_from_dim env (VDict d) = Ok (f0, finf).
Proof.
  intros Hb He. rewrite api_range_from_dim_reads, Hb, He. reflexivity.
Qed.

(** C3.  The authenticated S3 path does not read the alternate names:
    on a dimension whose range is given as [startingRange] and
    [endingRange] the public client's reader yields [51200, 102400),
    the authenticated path's yields the default [0, unbounded); a
    product listed by the API with two such tiers comes out as two
    bands that both span [0, unbounded). *)
Theorem api_range_ignores_alternate_names :
  PublicPricing._range_from_dim online_env alt_dim
  = Ok (float_of_Z 51200, float_of_Z 102400)
  /\ PricingResolver.api_range_from_dim online_env alt_dim = Ok (f0, finf)
  /\ fst (PricingResolver.resolve_s3_storage api_env "us-east-1" "Standard"
            "USD" None [])
     = Ok api_s3_result
  /\ tiers api_s3_result
     = [_build_tier_band f0 finf (dec 23 3); _build_tier_band f0 finf (dec 22 3)].
Proof. repeat split; vm_compute; reflexivity. Qed.

End Pipeline.

(* ===================================================================== *)
(** ** Further properties of the cost engine *)
(* ===================================================================== *)

Section CostEngineMore.

Import CostEngine Spec Examples.

Lemma fsub_diag (x : float) : is_finite x = true -> fsub x x = f0.
Proof.
  destruct x as [s|s| |s m e]; simpl; try discriminate; intros _.
  - destruct s; reflexivity.
  - unfold fsub, SFsub. rewrite Z.sub_diag. reflexivity.
Qed.

Lemma fsub_f0_r (x : float) : fsub x f0 = x.
Proof. destruct x as [[|]|[|]| |s m e]; reflexivity. Qed.

Lemma feq_fadd_f0 (y : float) : is_nan y = false -> feq (fadd f0 y) y = true.
Proof.
  intros H. rewrite fadd_f0_l.
  destruct y as [s|s| |s m e]; try discriminate.
  - reflexivity.
  - apply feq_refl; reflexivity.
  - apply feq_refl; reflexivity.
Qed.

Lemma fmul_pos_not_nan (x y : float) :
  is_finite x = true -> flt f0 x = true -> is_nan y = false ->
  is_nan (fmul x y) = false.
Proof.
  destruct x as [sx|sx| |sx mx ex], y as [sy|sy| |sy my ey];
    simpl; try discriminate; intros _ Hpos _; try reflexivity.
  apply binary_round_aux_not_nan. lia.
Qed.

Lemma flt_f0_false_of_le (w : float) : fle w f0 = true -> flt f0 w = false.
Proof. destruct w as [[|]|[|]| |[|] m e]; simpl; try discriminate; reflexivity. Qed.

(** Whatever is not above zero is below whatever is above zero. *)
Lemma flt_across_zero (w x : float) :
  fle w f0 = true -> flt f0 x = true -> flt w x = true.
Proof.
  destruct w as [[|]|[|]| |[|] mw ew]; simpl; try discriminate; intros _;
    destruct x as [[|]|[|]| |[|] mx ex]; simpl; try discriminate;
    intros _; reflexivity.
Qed.

(** The loop adds nothing while every band it meets ends at or below
    its start. *)
Lemma tier_loop_empty_bands (tiers : list TierBand) :
  Forall (fun band =>
            fne (to_gb band) finf = true
            /\ fle (fsub (to_gb band) (from_gb band)) f0 = true) tiers ->
  forall acc rem,
    total (for_loop tier_body (mkTierState acc rem) tiers) = acc.
Proof.
  induction 1 as [|band rest [Hne Hw] _ IH]; intros acc rem.
  - reflexivity.
  - cbn [for_loop]. unfold tier_body. cbn [remaining total].
    destruct (fle rem f0) eqn:Hle; [reflexivity|].
    rewrite Hne.
    set (w := fsub (to_gb band) (from_gb band)) in *.
    assert (Hsize : fgt (py_min rem w) f0 = false).
    { unfold fgt, py_min. destruct (flt w rem) eqn:Hlt.
      - apply flt_f0_false_of_le, Hw.
      - destruct (flt f0 rem) eqn:Hpos; [|reflexivity].
        rewrite (flt_across_zero w rem Hw Hpos) in Hlt. discriminate. }
    rewrite Hsize. apply IH.
Qed.

(** Structural equality of the result of [copy_multiplier] with a
    finite float. *)
Lemma finite_result_eq (c : result float) (g : float) :
  match c, g with
  | Ok (S754_finite s m e), S754_finite s' m' e' =>
      Bool.eqb s s' && Pos.eqb m m' && Z.eqb e e'
  | _, _ => false
  end = true ->
  c = Ok g.
Proof.
  destruct c as [[s|s| |s m e]|x]; try discriminate;
    destruct g as [s'|s'| |s' m' e']; try discriminate.
  intros H. apply andb_prop in H as [H He]. apply andb_prop in H as [Hs Hm].
  apply Bool.eqb_prop in Hs. apply Pos.eqb_eq in Hm. apply Z.eqb_eq in He.
  subst. reflexivity.
Qed.

(** X1.  The copy multiplier is one plus the number of copy add-ons,
    exactly, and a negative number counts as none: for every integer
    [n <= 1000], [copy_multiplier(n)] raises nothing and returns the
    float [1 + max(0, n)]; in particular it is exactly [1.0] for every
    [n <= 0]. *)
Theorem copy_multiplier_is_one_plus_addons (n : Z) :
  n <= 1000 ->
  copy_multiplier n = Ok (float_of_Z (1 + Z.max 0 n))
  /\ (n <= 0 -> copy_multiplier n = Ok (float_of_Z 1)).
Proof.
  intros Hn.
  assert (Hneg : n <= 0 -> copy_multiplier n = Ok (float_of_Z 1)).
  { intros H0. unfold copy_multiplier. rewrite Z.max_l by exact H0.
    reflexivity. }
  split; [|exact Hneg].
  destruct (Z.le_gt_cases n 0) as [H0|Hpos].
  - rewrite (Hneg H0), Z.max_l by exact H0. reflexivity.
  - assert (Hall : forallb
                     (fun k =>
                        match copy_multiplier (Z.of_nat k),
                              float_of_Z (1 + Z.max 0 (Z.of_nat k)) with
                        | Ok (S754_finite s m e), S754_finite s' m' e' =>
                            Bool.eqb s s' && Pos.eqb m m' && Z.eqb e e'
                        | _, _ => false
                        end) (seq 0 1001) = true)
      by (vm_compute; reflexivity).
    rewrite forallb_forall in Hall.
    specialize (Hall (Z.to_nat n)).
    rewrite Z2Nat.id in Hall by lia.
    apply finite_result_eq, Hall, in_seq. lia.
Qed.

Lemma copy_multiplier_is_one_plus_addons_witness :
  copy_multiplier 3 = Ok (float_of_Z (1 + Z.max 0 3))
  /\ copy_multiplier (-3) = Ok (float_of_Z 1).
Proof.
  split.
  - apply (proj1 (copy_multiplier_is_one_plus_addons 3 ltac:(lia))).
  - apply (proj2 (copy_multiplier_is_one_plus_addons (-3) ltac:(lia))). lia.
Defined.

(** X2.  Comparing a finite cost with itself gives no difference:
    [delta_usd(x, x)] is exactly [0.0] and [delta_pct(x, x)] returns a
    zero, for every finite [x] including zero. *)
Theorem equal_costs_have_zero_delta (x : float) :
  is_finite x = true ->
  delta_usd x x = f0
  /\ exists pct, delta_pct x x = Ok pct /\ feq pct f0 = true.
Proof.
  intros Hx. split; [apply fsub_diag, Hx|].
  unfold delta_pct, truediv. destruct (feq x f0) eqn:Hz.
  - exists f0. split; reflexivity.
  - cbn [rbind]. rewrite (fsub_diag x Hx). eexists. split; [reflexivity|].
    destruct x as [s|s| |s m e]; try discriminate.
    destruct s; reflexivity.
Qed.

Lemma equal_costs_have_zero_delta_witness :
  delta_usd (dec 23552 1) (dec 23552 1) = f0
  /\ exists pct, delta_pct (dec 23552 1) (dec 23552 1) = Ok pct
                 /\ feq pct f0 = true.
Proof.
  apply (equal_costs_have_zero_delta (dec 23552 1)).
  vm_compute. reflexivity.
Defined.

(** X3.  A positive finite volume that the first band's width does not
    undercut (an open-ended first band included) is billed entirely at
    the first band's rate: [cost_from_tiers] returns [0.0 + gb * rate],
    no later band contributes, and unless the rate is NaN the result
    equals [cost_from_flat_rate(gb, rate)]. *)
Theorem volume_within_first_band (gb : float) (band : TierBand)
  (rest : list TierBand) :
  is_finite gb = true ->
  flt f0 gb = true ->
  flt (band_width band gb) gb = false ->
  cost_from_tiers gb (band :: rest)
  = fadd f0 (fmul gb (rate_per_gb_month band))
  /\ (is_nan (rate_per_gb_month band) = false ->
      feq (cost_from_tiers gb (band :: rest))
          (cost_from_flat_rate gb (rate_per_gb_month band)) = true).
Proof.
  intros Hfin Hpos Hw.
  assert (H : cost_from_tiers gb (band :: rest)
              = fadd f0 (fmul gb (rate_per_gb_month band))).
  { unfold cost_from_tiers. cbn [for_loop]. unfold tier_body.
    cbn [remaining total].
    assert (Hle : fle gb f0 = false).
    { destruct gb as [[|]|[|]| |[|] m e]; simpl in *; try discriminate;
        reflexivity. }
    rewrite Hle, source_width_is_band_width.
    unfold py_min. rewrite Hw. unfold fgt. rewrite Hpos.
    rewrite (fsub_diag gb Hfin).
    destruct rest as [|band' rest']; [reflexivity|].
    cbn [for_loop]. unfold tier_body. cbn [remaining total]. reflexivity. }
  split; [exact H|].
  intros Hrate. rewrite H. unfold cost_from_flat_rate.
  apply feq_fadd_f0, fmul_pos_not_nan; assumption.
Qed.

Lemma volume_within_first_band_witness :
  cost_from_tiers (float_of_Z 40960) test_tiers
  = fadd f0 (fmul (float_of_Z 40960) (dec 23 3)).
Proof.
  apply (proj1 (volume_within_first_band (float_of_Z 40960)
                  (mkTierBand f0 (float_of_Z 51200) (dec 23 3))
                  [mkTierBand (float_of_Z 51200) finf (dec 22 3)]
                  eq_refl eq_refl eq_refl)).
Defined.

(** X4.  Bands that end at or below their start are never billed: when every
    band has a bounded end and a width that is zero or negative,
    [cost_from_tiers] returns exactly [0.0] for every volume. *)
Theorem empty_bands_cost_nothing (gb : float) (tiers : list TierBand) :
  Forall (fun band =>
            fne (to_gb band) finf = true
            /\ fle (fsub (to_gb band) (from_gb band)) f0 = true) tiers ->
  cost_from_tiers gb tiers = f0.
Proof.
  intros H. unfold cost_from_tiers. apply tier_loop_empty_bands, H.
Qed.

Lemma empty_bands_cost_nothing_witness :
  cost_from_tiers (float_of_Z 130)
    [mkTierBand (float_of_Z 200) (float_of_Z 150) (float_of_Z 2);
     mkTierBand (float_of_Z 100) (float_of_Z 100) (float_of_Z 1)] = f0.
Proof.
  apply empty_bands_cost_nothing.
  repeat constructor.
Defined.

End CostEngineMore.

(* ===================================================================== *)
(** ** The region table *)
(* ===================================================================== *)

Section RegionTable.

Import RegionMapping.
Local Open Scope string_scope.

Lemma is_space_lower_ascii (c : ascii) : is_space (lower_ascii c) = is_space c.
Proof. destruct c as [[] [] [] [] [] [] [] []]; reflexivity. Qed.

Lemma lower_ascii_idem (c : ascii) : lower_ascii (lower_ascii c) = lower_ascii c.
Proof. destruct c as [[] [] [] [] [] [] [] []]; reflexivity. Qed.

Lemma lower_idem (s : string) : lower (lower s) = lower s.
Proof.
  induction s as [|c rest IH]; simpl; [reflexivity|].
  rewrite lower_ascii_idem, IH. reflexivity.
Qed.

Lemma lstrip_lower (s : string) : lstrip (lower s) = lower (lstrip s).
Proof.
  induction s as [|c rest IH]; simpl; [reflexivity|].
  rewrite is_space_lower_ascii. destruct (is_space c); [exact IH|reflexivity].
Qed.

Lemma rstrip_lower (s : string) : rstrip (lower s) = lower (rstrip s).
Proof.
  induction s as [|c rest IH]; simpl; [reflexivity|].
  rewrite IH, is_space_lower_ascii.
  destruct (rstrip rest) as [|d r]; simpl.
  - destruct (is_space c); reflexivity.
  - reflexivity.
Qed.

Lemma strip_lower (s : string) : strip (lower s) = lower (strip s).
Proof. unfold strip. rewrite lstrip_lower, rstrip_lower. reflexivity. Qed.

(** A string of whitespace only. *)
Lemma lstrip_blank_app (ws s : string) :
  lstrip ws = "" -> lstrip (ws ++ s) = lstrip s.
Proof.
  induction ws as [|c rest IH]; simpl; [reflexivity|].
  destruct (is_space c); [exact IH|discriminate].
Qed.

Lemma rstrip_blank (ws : string) : lstrip ws = "" -> rstrip ws = "".
Proof.
  induction ws as [|c rest IH]; simpl; [reflexivity|].
  destruct (is_space c) eqn:E; [|discriminate].
  intros H. rewrite (IH H). reflexivity.
Qed.

Lemma rstrip_app_blank (s ws : string) :
  lstrip ws = "" -> rstrip (s ++ ws) = rstrip s.
Proof.
  intros H. induction s as [|c rest IH]; simpl.
  - apply rstrip_blank, H.
  - rewrite IH. reflexivity.
Qed.

Lemma lstrip_app_nonblank (s ws : string) :
  lstrip s <> "" -> lstrip (s ++ ws) = lstrip s ++ ws.
Proof.
  induction s as [|c rest IH]; simpl; [congruence|].
  destruct (is_space c); [exact IH|reflexivity].
Qed.

Lemma strip_padding (ws1 s ws2 : string) :
  lstrip ws1 = "" -> lstrip ws2 = "" -> strip (ws1 ++ s ++ ws2) = strip s.
Proof.
  intros H1 H2. unfold strip. rewrite (lstrip_blank_app _ _ H1).
  destruct (lstrip s) as [|c r] eqn:E.
  - (* [s] is blank as well *)
    assert (Hb : lstrip (s ++ ws2) = "").
    { clear H1. induction s as [|d rest IH]; simpl in *; [exact H2|].
      destruct (is_space d); [apply IH, E|discriminate]. }
    rewrite Hb. reflexivity.
  - rewrite lstrip_app_nonblank by (rewrite E; discriminate).
    rewrite E. apply rstrip_app_blank, H2.
Qed.

Lemma table_get_in (k v : string) (t : list (string * string)) :
  table_get k t = Some v -> exists k', String.eqb k' k = true /\ In (k', v) t.
Proof.
  induction t as [|[k' v'] rest IH]; simpl; [discriminate|].
  destruct (String.eqb k' k) eqn:E.
  - intros H. inversion H; subst. exists k'. split; [exact E|left; reflexivity].
  - intros H. destruct (IH H) as [k'' [E' Hin]].
    exists k''. split; [exact E'|right; exact Hin].
Qed.

Lemma table_get_entry (k v : string) (t : list (string * string)) :
  table_get k t = Some v -> In (k, v) t.
Proof.
  intros H. destruct (table_get_in k v t H) as [k' [E Hin]].
  apply String.eqb_eq in E. subst. exact Hin.
Qed.

(** Soundness of the entry-by-entry check that [u] inverts [t]. *)
Lemma inverts_sound (t u : list (string * string)) (k v : string) :
  forallb (fun kv =>
             match table_get (snd kv) u with
             | Some k => String.eqb k (fst kv)
             | None => false
             end) t = true ->
  In (k, v) t -> table_get v u = Some k.
Proof.
  rewrite forallb_forall. intros H Hin.
  specialize (H (k, v) Hin). simpl in H.
  destruct (table_get v u) as [k'|]; [|discriminate].
  apply String.eqb_eq in H. subst. reflexivity.
Qed.

(** X5.  Region codes and locations name each other.  The location found for
    a region code leads back, through [get_region_for_location], to that
    code in its normalized spelling (stripped, lower case); and the
    region found for a location leads back to that location. *)
Theorem region_and_location_invert_each_other :
  (forall region_code location,
     get_location_for_region region_code = Some location ->
     get_region_for_location location = Some (lower (strip region_code)))
  /\ (forall location region_code,
        get_region_for_location location = Some region_code ->
        get_location_for_region region_code = Some location).
Proof.
  split.
  - intros region_code location H.
    unfold get_location_for_region in H. apply table_get_entry in H.
    unfold get_region_for_location.
    apply (inverts_sound REGION_TO_LOCATION LOCATION_TO_REGION); [|exact H].
    vm_compute. reflexivity.
  - intros location region_code H.
    unfold get_region_for_location in H. apply table_get_entry in H.
    assert (Hkey : forallb (fun kv => String.eqb (lower (strip (snd kv))) (snd kv))
                     LOCATION_TO_REGION = true) by (vm_compute; reflexivity).
    rewrite forallb_forall in Hkey. specialize (Hkey _ H). simpl in Hkey.
    apply String.eqb_eq in Hkey.
    unfold get_location_for_region. rewrite Hkey.
    apply (inverts_sound LOCATION_TO_REGION REGION_TO_LOCATION); [|exact H].
    vm_compute. reflexivity.
Qed.

Lemma region_and_location_invert_each_other_witness :
  get_region_for_location "EU (Frankfurt)" = Some "eu-central-1"
  /\ get_location_for_region "eu-central-1" = Some "EU (Frankfurt)".
Proof.
  split.
  - apply (proj1 region_and_location_invert_each_other " EU-Central-1 "
             "EU (Frankfurt)").
    vm_compute. reflexivity.
  - apply (proj2 region_and_location_invert_each_other "EU (Frankfurt)"
             "eu-central-1").
    vm_compute. reflexivity.
Defined.

(** X6.  The lookup of a region code ignores letter case and surrounding
    whitespace: two codes that agree up to case find the same location,
    and so does a code padded on either side with whitespace. *)
Theorem region_lookup_ignores_case_and_padding :
  (forall s t, lower s = lower t ->
     get_location_for_region s = get_location_for_region t)
  /\ (forall ws1 s ws2, lstrip ws1 = "" -> lstrip ws2 = "" ->
        get_location_for_region (ws1 ++ s ++ ws2) = get_location_for_region s).
Proof.
  split.
  - intros s t H. unfold get_location_for_region.
    rewrite <- !strip_lower, H. reflexivity.
  - intros ws1 s ws2 H1 H2. unfold get_location_for_region.
    rewrite (strip_padding ws1 s ws2 H1 H2). reflexivity.
Qed.

Lemma region_lookup_ignores_case_and_padding_witness :
  get_location_for_region "US-West-2" = get_location_for_region "us-west-2"
  /\ get_location_for_region ("  " ++ "us-west-2" ++ String "010" "")
     = get_location_for_region "us-west-2".
Proof.
  split.
  - apply (proj1 region_lookup_ignores_case_and_padding "US-West-2" "us-west-2").
    reflexivity.
  - apply (proj2 region_lookup_ignores_case_and_padding "  " "us-west-2"
             (String "010" "")); reflexivity.
Defined.

End RegionTable.

(* ===================================================================== *)
(** ** What the resolution operations call, and in which order *)
(* ===================================================================== *)

Section CallProtocol.

Import Pricing Spec Guarantees RegionMapping.
Local Open Scope string_scope.

Variable env : Env.

Lemma grows_ret {A : Type} (a : A) : grows (ret a).
Proof. intros l b l' E. inversion E; subst. exists []. symmetry. apply app_nil_r. Qed.

Lemma grows_lift {A : Type} (c : result A) : grows (lift c).
Proof. intros l b l' E. inversion E; subst. exists []. symmetry. apply app_nil_r. Qed.

Lemma grows_bind {A B : Type} (c : M A) (k : A -> M B) :
  grows c -> (forall a, grows (k a)) -> grows (bind c k).
Proof.
  intros Hc Hk l b l' E. unfold bind in E.
  destruct (c l) as [[a|e] l1] eqn:Ec.
  - destruct (Hc l _ l1 Ec) as [es1 H1]. destruct (Hk a l1 b l' E) as [es2 H2].
    exists (es1 ++ es2)%list. rewrite H2, H1, app_assoc. reflexivity.
  - inversion E; subst. exact (Hc l _ l' Ec).
Qed.

Lemma grows_fetch_json (url : string) : grows (PublicPricing._fetch_json env url).
Proof. intros l a l' E. inversion E; subst. exists [EvFetch url]. reflexivity. Qed.

Lemma grows_client_or_create (c : option client) :
  grows (PricingResolver.client_or_create env c).
Proof.
  destruct c as [c|]; [apply grows_ret|].
  intros l a l' E. inversion E; subst. exists [EvCreateClient]. reflexivity.
Qed.

Lemma grows_get_products (c : client) (service : string) (filters : value) :
  grows (PricingResolver.get_products env c service filters).
Proof.
  intros l a l' E. inversion E; subst.
  exists [EvGetProducts c service]. reflexivity.
Qed.

Ltac grows_tac :=
  repeat first
    [ apply grows_ret
    | apply grows_lift
    | apply grows_fetch_json
    | apply grows_client_or_create
    | apply grows_get_products
    | apply grows_bind
    | match goal with
      | |- forall _, _ => intro
      | |- grows (match ?x with _ => _ end) => destruct x
      | |- grows (let '(_, _) := ?x in _) => destruct x
      end ].

Lemma first_call_bind {A B : Type} (e : event) (c : M A) (k : A -> M B) :
  first_call e c -> (forall a, grows (k a)) -> first_call e (bind c k).
Proof.
  intros Hc Hk l b l' E. unfold bind in E.
  destruct (c l) as [[a|x] l1] eqn:Ec.
  - destruct (Hc l _ l1 Ec) as [rest Hr]. destruct (Hk a l1 b l' E) as [es He].
    exists (rest ++ es)%list. rewrite He, Hr, <- app_assoc. reflexivity.
  - inversion E; subst. exact (Hc l _ l' Ec).
Qed.

Lemma first_call_fetch_json (url : string) :
  first_call (EvFetch url) (PublicPricing._fetch_json env url).
Proof. intros l a l' E. inversion E; subst. exists []. reflexivity. Qed.

Lemma first_call_public_s3 region_code storage_class currency location :
  get_location_for_region region_code = Some location ->
  first_call (EvFetch INDEX_URL)
    (PublicPricing.resolve_s3_storage_public env region_code storage_class currency).
Proof.
  intros Hloc. unfold PublicPricing.resolve_s3_storage_public.
  rewrite Hloc, (known_location_truthy _ _ Hloc). cbn [negb].
  unfold PublicPricing._resolve_offer_url.
  apply first_call_bind; [|grows_tac].
  apply first_call_bind; [apply first_call_fetch_json|grows_tac].
Qed.

Lemma first_call_public_backup region_code currency location :
  get_location_for_region region_code = Some location ->
  first_call (EvFetch INDEX_URL)
    (PublicPricing.resolve_aws_backup_storage_public env region_code currency).
Proof.
  intros Hloc. unfold PublicPricing.resolve_aws_backup_storage_public.
  rewrite Hloc, (known_location_truthy _ _ Hloc). cbn [negb].
  unfold PublicPricing._discover_backup_offer_code.
  apply first_call_bind.
  - apply first_call_bind; [apply first_call_fetch_json|grows_tac].
  - intros discovered. apply grows_bind; [|grows_tac].
    cbn [for_loopM]. unfold PublicPricing.backup_fetch_body. grows_tac.
Qed.

(** X7.  A region the table does not know is answered at once; a region it
    knows always costs a fetch.  For an unknown region each of the
    four operations returns the error [Unknown region: <code>] and
    makes no call at all; for a known region the first call of each of
    them is the fetch of the offer index of the public price list. *)
Theorem region_decides_whether_anything_is_called
  (region_code storage_class currency : string) (client : option client) :
  (get_location_for_region region_code = None ->
   forall l,
     let r := set_error default_result ("Unknown region: " ++ region_code) in
     PublicPricing.resolve_aws_backup_storage_public env region_code currency l
     = (Ok r, l)
     /\ PublicPricing.resolve_s3_storage_public env region_code storage_class
          currency l = (Ok r, l)
     /\ PricingResolver.resolve_aws_backup_storage env region_code currency
          client l = (Ok r, l)
     /\ PricingResolver.resolve_s3_storage env region_code storage_class
          currency client l = (Ok r, l))
  /\ (forall location,
        get_location_for_region region_code = Some location ->
        first_call (EvFetch INDEX_URL)
          (PublicPricing.resolve_aws_backup_storage_public env region_code
             currency)
        /\ first_call (EvFetch INDEX_URL)
             (PublicPricing.resolve_s3_storage_public env region_code
                storage_class currency)
        /\ first_call (EvFetch INDEX_URL)
             (PricingResolver.resolve_aws_backup_storage env region_code
                currency client)
        /\ first_call (EvFetch INDEX_URL)
             (PricingResolver.resolve_s3_storage env region_code storage_class
                currency client)).
Proof.
  split.
  - intros Hloc l.
    unfold PublicPricing.resolve_aws_backup_storage_public,
      PublicPricing.resolve_s3_storage_public,
      PricingResolver.resolve_aws_backup_storage,
      PricingResolver.resolve_s3_storage.
    rewrite Hloc. repeat split.
  - intros location Hloc.
    pose proof (known_location_truthy _ _ Hloc) as Htr.
    split; [apply (first_call_public_backup _ _ _ Hloc)|].
    split; [apply (first_call_public_s3 _ _ _ _ Hloc)|].
    split.
    + unfold PricingResolver.resolve_aws_backup_storage.
      rewrite Hloc, Htr. cbn [negb].
      apply first_call_bind; [apply (first_call_public_backup _ _ _ Hloc)|].
      grows_tac.
    + unfold PricingResolver.resolve_s3_storage.
      rewrite Hloc, Htr. cbn [negb].
      apply first_call_bind; [apply (first_call_public_s3 _ _ _ _ Hloc)|].
      grows_tac.
Qed.

(** The authenticated fallback, whatever it ends with: the client is
    created only when none was supplied, and queried at most once. *)
Lemma fallback_calls (supplied : option client) (service : string)
  (filters : value) (r1 : PricingResult) (r2 : string -> PricingResult)
  (k : PricingResolver.products_outcome -> M PricingResult) :
  (forall out l a l', k out l = (a, l') -> l' = l) ->
  forall l a l',
    bind (PricingResolver.client_or_create env supplied)
      (fun c =>
         match c with
         | ClientCreated c =>
             bind (PricingResolver.get_products env c service filters) k
         | ClientNoCredentials => ret r1
         | ClientFailed e => ret (r2 e)
         end) l = (a, l') ->
    exists es, l' = (l ++ es)%list /\ api_calls supplied service es.
Proof.
  intros Hk l a l' E. unfold bind, PricingResolver.client_or_create in E.
  destruct supplied as [c|].
  - unfold ret in E. unfold PricingResolver.get_products in E.
    apply Hk in E. exists [EvGetProducts c service].
    split; [exact E|]. right. right. right. exists c. split; reflexivity.
  - destruct (boto3_client env l) as [c| |e].
    + unfold PricingResolver.get_products in E. apply Hk in E.
      exists [EvCreateClient; EvGetProducts c service]. split.
      * rewrite E, <- app_assoc. reflexivity.
      * right. right. left. split; [reflexivity|]. exists c. reflexivity.
    + inversion E; subst. exists [EvCreateClient].
      split; [reflexivity|]. right. left. split; reflexivity.
    + inversion E; subst. exists [EvCreateClient].
      split; [reflexivity|]. right. left. split; reflexivity.
Qed.

Lemma api_calls_none (supplied : option client) (service : string) :
  api_calls supplied service [].
Proof. left. reflexivity. Qed.

(** X8.  The resolver's calls follow one protocol.  Every run of
    [resolve_s3_storage] and of [resolve_aws_backup_storage], whether it
    returns or raises, first makes fetches of the public price list
    only, and then at most this: the creation of the pricing client,
    only when the caller supplied none, followed by at most one
    [get_products] query of its service; a supplied client is the one
    that is queried. *)
Theorem resolver_calls_public_then_api
  (region_code storage_class currency : string) (client : option client) :
  public_then_api client "Amazon S3"
    (PricingResolver.resolve_s3_storage env region_code storage_class currency
       client)
  /\ public_then_api client "AWS Backup"
       (PricingResolver.resolve_aws_backup_storage env region_code currency
          client).
Proof.
  split; intros l a l' E.
  - unfold PricingResolver.resolve_s3_storage in E.
    destruct (get_location_for_region region_code) as [location|].
    2:{ inversion E; subst. exists [], []. split; [|apply api_calls_none].
        simpl. rewrite app_nil_r. reflexivity. }
    destruct (negb (str_truthy location)).
    { inversion E; subst. exists [], []. split; [|apply api_calls_none].
      simpl. rewrite app_nil_r. reflexivity. }
    unfold bind at 1 in E.
    destruct (PublicPricing.resolve_s3_storage_public env region_code
                storage_class currency l) as [[pub|x] l1] eqn:Ep;
      destruct (public_s3_fetches_only env _ _ _ _ _ _ Ep) as [urls Hu].
    + destruct (no_error pub && _).
      * inversion E; subst. exists urls, [].
        split; [rewrite app_nil_r; reflexivity|apply api_calls_none].
      * apply fallback_calls in E.
        -- destruct E as [es [He Hes]]. exists urls, es.
           split; [|exact Hes]. rewrite He, Hu, <- app_assoc. reflexivity.
        -- intros [products| |e|e] l0 a0 l0' E0; inversion E0; reflexivity.
    + inversion E; subst. exists urls, [].
      split; [rewrite app_nil_r; reflexivity|apply api_calls_none].
  - unfold PricingResolver.resolve_aws_backup_storage in E.
    destruct (get_location_for_region region_code) as [location|].
    2:{ inversion E; subst. exists [], []. split; [|apply api_calls_none].
        simpl. rewrite app_nil_r. reflexivity. }
    destruct (negb (str_truthy location)).
    { inversion E; subst. exists [], []. split; [|apply api_calls_none].
      simpl. rewrite app_nil_r. reflexivity. }
    unfold bind at 1 in E.
    destruct (PublicPricing.resolve_aws_backup_storage_public env region_code
                currency l) as [[pub|x] l1] eqn:Ep;
      destruct (public_backup_fetches_only env _ _ _ _ _ Ep) as [urls Hu].
    + destruct (no_error pub && _).
      * inversion E; subst. exists urls, [].
        split; [rewrite app_nil_r; reflexivity|apply api_calls_none].
      * apply fallback_calls in E.
        -- destruct E as [es [He Hes]]. exists urls, es.
           split; [|exact Hes]. rewrite He, Hu, <- app_assoc. reflexivity.
        -- intros [products| |e|e] l0 a0 l0' E0; inversion E0; reflexivity.
    + inversion E; subst. exists urls, [].
      split; [rewrite app_nil_r; reflexivity|apply api_calls_none].
Qed.

(** *** How many fetches *)

Lemma fetches_at_most_ret {A : Type} (n : nat) (a : A) : fetches_at_most n (ret a).
Proof.
  intros l b l' E. inversion E; subst. exists [].
  split; [simpl; rewrite app_nil_r; reflexivity|simpl; lia].
Qed.

Lemma fetches_at_most_lift {A : Type} (n : nat) (c : result A) :
  fetches_at_most n (lift c).
Proof.
  intros l b l' E. inversion E; subst. exists [].
  split; [simpl; rewrite app_nil_r; reflexivity|simpl; lia].
Qed.

Lemma fetches_at_most_fetch_json (n : nat) (url : string) :
  fetches_at_most (S n) (PublicPricing._fetch_json env url).
Proof.
  intros l b l' E. inversion E; subst. exists [url].
  split; [reflexivity|simpl; lia].
Qed.

Lemma fetches_at_most_bind {A B : Type} (n m : nat) (c : M A) (k : A -> M B) :
  fetches_at_most n c -> (forall a, fetches_at_most m (k a)) ->
  fetches_at_most (n + m) (bind c k).
Proof.
  intros Hc Hk l b l' E. unfold bind in E.
  destruct (c l) as [[a|e] l1] eqn:Ec.
  - destruct (Hc l _ l1 Ec) as [u1 [H1 L1]].
    destruct (Hk a l1 b l' E) as [u2 [H2 L2]].
    exists (u1 ++ u2)%list. split.
    + rewrite H2, H1, map_app, app_assoc. reflexivity.
    + rewrite length_app. lia.
  - inversion E; subst. destruct (Hc l _ l' Ec) as [u1 [H1 L1]].
    exists u1. split; [exact H1|lia].
Qed.

(** One optional step of the fetch sequence. *)
Ltac one_fetch :=
  repeat first
    [ apply fetches_at_most_ret
    | apply fetches_at_most_lift
    | apply fetches_at_most_fetch_json
    | apply (fetches_at_most_bind 1 0)
    | match goal with
      | |- forall _, _ => intro
      | |- fetches_at_most _ (match ?x with _ => _ end) => destruct x
      | |- fetches_at_most _ (let '(_, _) := ?x in _) => destruct x
      end ].

Lemma resolve_offer_url_one_fetch (n : nat) (service_code : string) :
  fetches_at_most (S n) (PublicPricing._resolve_offer_url env service_code).
Proof.
  unfold PublicPricing._resolve_offer_url.
  replace (S n) with (S n + 0)%nat by lia.
  apply fetches_at_most_bind; [apply fetches_at_most_fetch_json|].
  intros [data msg]. destruct (negb (truthy data));
    [apply fetches_at_most_ret|apply fetches_at_most_lift].
Qed.

Lemma backup_fetch_body_four_fetches region_code st service_code :
  fetches_at_most 4 (PublicPricing.backup_fetch_body env region_code st service_code).
Proof.
  unfold PublicPricing.backup_fetch_body.
  destruct service_code as [sc|]; [|apply fetches_at_most_ret].
  destruct (negb (str_truthy sc)); [apply fetches_at_most_ret|].
  destruct st as [[fetch_error data] url0].
  apply (fetches_at_most_bind 1 3); [apply resolve_offer_url_one_fetch|].
  intros u.
  apply (fetches_at_most_bind 1 2); [one_fetch|].
  intros [s|s]; [|apply fetches_at_most_ret].
  destruct s as [[fe d] url1].
  apply (fetches_at_most_bind 1 1); [one_fetch|].
  intros [s|s]; [|apply fetches_at_most_ret].
  destruct s as [[fe' d'] url2].
  apply (fetches_at_most_bind 1 0); [one_fetch|].
  intros s3. apply fetches_at_most_ret.
Qed.

(** X9.  The public client never retries.  A run of
    [resolve_s3_storage_public] makes at most four fetches (the offer
    index, the URL it names, the global file, the regional file); a
    run of [resolve_aws_backup_storage_public] at most nine (the index
    once to discover the offer code, then for each of the two candidate
    codes the index again and up to three files).  Nothing else is
    called. *)
Theorem public_client_fetch_budget (region_code storage_class currency : string) :
  fetches_at_most 4
    (PublicPricing.resolve_s3_storage_public env region_code storage_class
       currency)
  /\ fetches_at_most 9
       (PublicPricing.resolve_aws_backup_storage_public env region_code currency).
Proof.
  split.
  - unfold PublicPricing.resolve_s3_storage_public.
    destruct (get_location_for_region region_code) as [location|];
      [|apply fetches_at_most_ret].
    destruct (negb (str_truthy location)); [apply fetches_at_most_ret|].
    apply (fetches_at_most_bind 1 3); [apply resolve_offer_url_one_fetch|].
    intros u.
    apply (fetches_at_most_bind 1 2); [one_fetch|].
    intros [data fetch_error].
    apply (fetches_at_most_bind 1 1); [one_fetch|].
    intros [[fe d] url].
    apply (fetches_at_most_bind 1 0); [one_fetch|].
    intros [[fe' d'] url']. one_fetch.
  - unfold PublicPricing.resolve_aws_backup_storage_public.
    destruct (get_location_for_region region_code) as [location|];
      [|apply fetches_at_most_ret].
    destruct (negb (str_truthy location)); [apply fetches_at_most_ret|].
    apply (fetches_at_most_bind 1 8).
    { unfold PublicPricing._discover_backup_offer_code. one_fetch. }
    intros discovered.
    apply (fetches_at_most_bind 8 0).
    + cbn [for_loopM].
      apply (fetches_at_most_bind 4 4);
        [apply backup_fetch_body_four_fetches|].
      intros [s|s]; [|apply fetches_at_most_ret].
      apply (fetches_at_most_bind 4 0);
        [apply backup_fetch_body_four_fetches|].
      intros [s'|s']; apply fetches_at_most_ret.
    + intros [[fetch_error data] url]. one_fetch.
Qed.

(** *** When the price list cannot be reached *)

Lemma fetch_json_unreachable (url : string) (l : log) :
  unreachable env ->
  exists d msg,
    PublicPricing._fetch_json env url l = (Ok (d, msg), (l ++ [EvFetch url])%list)
    /\ truthy d = false.
Proof.
  intros Hu. unfold PublicPricing._fetch_json.
  destruct (http_get env l url) as [v|code reason|reason str_e|str_e] eqn:E.
  - exists v, "". split; [reflexivity|exact (Hu _ _ _ E)].
  - eexists VNone, _. split; reflexivity.
  - eexists VNone, _. split; reflexivity.
  - eexists VNone, _. split; reflexivity.
Qed.

Lemma resolve_offer_url_unreachable (service_code : string) (l : log) :
  unreachable env ->
  PublicPricing._resolve_offer_url env service_code l
  = (Ok None, (l ++ [EvFetch INDEX_URL])%list).
Proof.
  intros Hu. unfold PublicPricing._resolve_offer_url, bind.
  destruct (fetch_json_unreachable (PublicPricing.OFFERS_BASE ++ "/index.json")
              l Hu) as [d [msg [E T]]].
  rewrite E, T. reflexivity.
Qed.

(** X10.  With the price list out of reach the S3 client gives up after three
    fetches and a Backup client after four.  If no fetch yields a usable
    document, then for every known region [resolve_s3_storage_public]
    returns (it raises nothing) after fetching exactly the offer index,
    the global file and the regional file, in this order, and
    [resolve_aws_backup_storage_public] after fetching the index twice,
    then the global and the regional file of [AWSBackup]; the regional
    URL carries the region code as the caller spelled it.  Each result
    is an error without rate or tiers whose message starts with the
    operation's prefix and ends with the last fetch error, or with a
    fixed hint when the fetches gave no message. *)
Theorem public_client_gives_up_when_unreachable
  (region_code storage_class currency location : string) (l : log) :
  unreachable env ->
  get_location_for_region region_code = Some location ->
  (exists r msg,
     PublicPricing.resolve_s3_storage_public env region_code storage_class
       currency l
     = (Ok r,
        (l ++ [EvFetch INDEX_URL;
               EvFetch (PublicPricing._get_offer_url_global
                          PublicPricing.SERVICE_CODE_S3);
               EvFetch (PublicPricing._get_offer_url_regional
                          PublicPricing.SERVICE_CODE_S3 region_code)])%list)
     /\ error r = Some ("Public price list (S3) unavailable. " ++ msg)
     /\ msg <> ""
     /\ rate_per_gb_month r = None /\ tiers r = [])
  /\ (exists r msg,
        PublicPricing.resolve_aws_backup_storage_public env region_code currency l
        = (Ok r,
           (l ++ [EvFetch INDEX_URL; EvFetch INDEX_URL;
                  EvFetch (PublicPricing._get_offer_url_global
                             PublicPricing.SERVICE_CODE_BACKUP);
                  EvFetch (PublicPricing._get_offer_url_regional
                             PublicPricing.SERVICE_CODE_BACKUP region_code)])%list)
        /\ error r = Some ("AWS Backup not in public price list. " ++ msg)
        /\ msg <> ""
        /\ rate_per_gb_month r = None /\ tiers r = []).
Proof.
  intros Hu Hloc. pose proof (known_location_truthy _ _ Hloc) as Htr.
  split.
  - unfold PublicPricing.resolve_s3_storage_public.
    rewrite Hloc, Htr. cbn [negb]. unfold bind at 1.
    rewrite (resolve_offer_url_unreachable _ l Hu).
    cbn [PublicPricing.some_str truthy]. unfold bind at 1. unfold ret at 1.
    cbn [truthy negb]. unfold bind at 1. unfold bind at 1.
    destruct (fetch_json_unreachable
                (PublicPricing._get_offer_url_global PublicPricing.SERVICE_CODE_S3)
                (l ++ [EvFetch INDEX_URL])%list Hu) as [d1 [m1 [E1 T1]]].
    rewrite E1. unfold ret at 1. unfold bind at 1. rewrite T1. cbn [negb].
    unfold bind at 1.
    destruct (fetch_json_unreachable
                (PublicPricing._get_offer_url_regional
                   PublicPricing.SERVICE_CODE_S3 region_code)
                ((l ++ [EvFetch INDEX_URL])
                 ++ [EvFetch (PublicPricing._get_offer_url_global
                                PublicPricing.SERVICE_CODE_S3)])%list Hu)
      as [d2 [m2 [E2 T2]]].
    rewrite E2. unfold ret at 1. rewrite T2. cbn [negb]. unfold ret.
    eexists. eexists. split; [rewrite <- !app_assoc; reflexivity|].
    cbn [error set_raw_filter_used set_error rate_per_gb_month tiers
         default_result].
    split; [reflexivity|]. split; [|split; reflexivity].
    destruct (str_truthy (if str_truthy m2 then m2
                          else if str_truthy m1 then m1 else "")) eqn:Em;
      [|discriminate].
    destruct (if str_truthy m2 then m2 else if str_truthy m1 then m1 else "");
      [discriminate Em|discriminate].
  - unfold PublicPricing.resolve_aws_backup_storage_public.
    rewrite Hloc, Htr. cbn [negb]. unfold bind at 1.
    assert (Hd : PublicPricing._discover_backup_offer_code env l
                 = (Ok None, (l ++ [EvFetch INDEX_URL])%list)).
    { unfold PublicPricing._discover_backup_offer_code, bind.
      destruct (fetch_json_unreachable
                  (PublicPricing.OFFERS_BASE ++ "/index.json") l Hu)
        as [d [msg [E T]]].
      rewrite E, T. reflexivity. }
    rewrite Hd. cbn [for_loopM]. unfold PublicPricing.backup_fetch_body at 1.
    unfold bind at 1. unfold bind at 1. unfold ret at 1.
    unfold PublicPricing.backup_fetch_body.
    cbn [PublicPricing.SERVICE_CODE_BACKUP str_truthy negb].
    unfold bind at 1. unfold bind at 1.
    rewrite (resolve_offer_url_unreachable _ _ Hu).
    cbn [PublicPricing.some_str truthy]. unfold bind at 1. unfold ret at 1.
    cbn [truthy negb]. unfold bind at 1. unfold bind at 1.
    destruct (fetch_json_unreachable
                (PublicPricing._get_offer_url_global
                   PublicPricing.SERVICE_CODE_BACKUP)
                ((l ++ [EvFetch INDEX_URL]) ++ [EvFetch INDEX_URL])%list Hu)
      as [d1 [m1 [E1 T1]]].
    rewrite E1. cbv beta iota. rewrite T1. unfold ret at 1. cbv beta iota.
    rewrite T1. cbn [negb]. unfold bind at 1. unfold bind at 1.
    destruct (fetch_json_unreachable
                (PublicPricing._get_offer_url_regional
                   PublicPricing.SERVICE_CODE_BACKUP region_code)
                (((l ++ [EvFetch INDEX_URL]) ++ [EvFetch INDEX_URL])
                 ++ [EvFetch (PublicPricing._get_offer_url_global
                                PublicPricing.SERVICE_CODE_BACKUP)])%list
                Hu) as [d2 [m2 [E2 T2]]].
    rewrite E2. cbv beta iota. unfold ret. cbn [fst snd]. rewrite T2.
    cbv beta iota. rewrite T2. cbn [negb].
    eexists. eexists. split; [rewrite <- !app_assoc; reflexivity|].
    cbn [error set_raw_filter_used set_error rate_per_gb_month tiers
         default_result].
    split; [reflexivity|]. split; [|split; reflexivity].
    destruct (str_truthy (if str_truthy m2 then m2
                          else if str_truthy m1 then m1 else "")) eqn:Em;
      [|discriminate].
    destruct (if str_truthy m2 then m2 else if str_truthy m1 then m1 else "");
      [discriminate Em|discriminate].
Qed.

End CallProtocol.

Section CallProtocolExamples.

Import Pricing Spec Guarantees RegionMapping Examples.
Local Open Scope string_scope.

Lemma region_decides_whether_anything_is_called_witness :
  PricingResolver.resolve_s3_storage online_env "mars-1" "Standard" "USD" None []
  = (Ok (set_error default_result "Unknown region: mars-1"), [])
  /\ first_call (EvFetch INDEX_URL)
       (PricingResolver.resolve_s3_storage online_env "us-east-1" "Standard"
          "USD" None).
Proof.
  split.
  - apply (proj1 (region_decides_whether_anything_is_called online_env
                    "mars-1" "Standard" "USD" None) eq_refl []).
  - apply (proj2 (region_decides_whether_anything_is_called online_env
                    "us-east-1" "Standard" "USD" None)
             "US East (N. Virginia)" eq_refl).
Defined.

Lemma resolver_calls_public_then_api_witness :
  public_then_api (Some 7%nat) "Amazon S3"
    (PricingResolver.resolve_s3_storage offline_env "us-east-1" "Standard" "USD"
       (Some 7%nat)).
Proof.
  apply (proj1 (resolver_calls_public_then_api offline_env "us-east-1"
                  "Standard" "USD" (Some 7%nat))).
Defined.

Lemma public_client_fetch_budget_witness :
  fetches_at_most 4
    (PublicPricing.resolve_s3_storage_public online_env "us-east-1" "Standard"
       "USD").
Proof.
  apply (proj1 (public_client_fetch_budget online_env "us-east-1" "Standard"
                  "USD")).
Defined.

Lemma public_client_gives_up_when_unreachable_witness :
  exists r msg,
    PublicPricing.resolve_s3_storage_public offline_env "us-east-1" "Standard"
      "USD" []
    = (Ok r,
       [EvFetch INDEX_URL;
        EvFetch (PublicPricing._get_offer_url_global
                   PublicPricing.SERVICE_CODE_S3);
        EvFetch (PublicPricing._get_offer_url_regional
                   PublicPricing.SERVICE_CODE_S3 "us-east-1")])
    /\ error r = Some ("Public price list (S3) unavailable. " ++ msg)
    /\ msg <> ""
    /\ rate_per_gb_month r = None /\ tiers r = [].
Proof.
  apply (proj1 (public_client_gives_up_when_unreachable offline_env "us-east-1"
                  "Standard" "USD" "US East (N. Virginia)" []
                  ltac:(intros l url d H; discriminate H) eq_refl)).
Defined.

End CallProtocolExamples.

(* ===================================================================== *)
(** ** The readers shared by the two clients *)
(* ===================================================================== *)

Section Readers.

Import Pricing Spec Guarantees.
Local Open Scope string_scope.

Variable env : Env.

(** X11.  The two copies of [_normalize_to_gb_month], in [public_pricing.py]
    and in [pricing_resolver.py], agree on every price and unit; and
    normalization never rescales: whenever a rate comes out, it is the
    price that went in. *)
Theorem unit_normalization_agrees_and_never_rescales
  (price_per_unit : float) (unit : value) :
  PublicPricing._normalize_to_gb_month price_per_unit unit
  = PricingResolver._normalize_to_gb_month price_per_unit unit
  /\ (forall rate,
        PublicPricing._normalize_to_gb_month price_per_unit unit = Ok (Some rate) ->
        rate = price_per_unit).
Proof.
  unfold PublicPricing._normalize_to_gb_month,
    PricingResolver._normalize_to_gb_month.
  destruct (as_str (py_or unit (VStr ""))) as [s|e]; cbn [rbind].
  - set (u := lower (strip s)).
    destruct (contains "gb-mo" u || contains "gb-month" u);
      destruct (String.eqb u "gb"); cbn [orb];
      (split; [reflexivity|intros rate H; inversion H; reflexivity]).
  - split; [reflexivity|discriminate].
Qed.


(** X12.  The two copies of [_parse_price_dimension] differ in one place.
    Whatever the resolver's copy returns, the public client's copy
    returns too; but where [pricePerUnit] is present and is not a
    dict (a [null], a number, a text), the resolver's copy raises
    [AttributeError] while the public client's copy returns no price
    together with the dimension's unit. *)
Theorem price_dimension_parsers_differ_on_malformed_price
  (dim : value) (currency : string) :
  (forall parsed,
     PricingResolver._parse_price_dimension env dim currency = Ok parsed ->
     PublicPricing._parse_price_dimension env dim currency = Ok parsed)
  /\ (forall d pu,
        dim = VDict d ->
        lookup "pricePerUnit" d = Some pu ->
        (forall entries, pu <> VDict entries) ->
        PricingResolver._parse_price_dimension env dim currency
        = Raise AttributeError
        /\ PublicPricing._parse_price_dimension env dim currency
           = Ok (None, match lookup "unit" d with
                       | Some u => u
                       | None => VStr ""
                       end)).
Proof.
  unfold PricingResolver._parse_price_dimension,
    PublicPricing._parse_price_dimension, get, get_default.
  split.
  - intros parsed. destruct dim as [ | | | | | |d]; try discriminate.
    cbn [rbind].
    destruct (lookup "pricePerUnit" d) as [[ | | | | | |entries]|];
      cbn [rbind]; try discriminate; auto.
  - intros d pu Hd Hpu Hnd. subst dim. cbn [rbind]. rewrite Hpu.
    destruct pu as [ | | | | | |entries]; cbn [rbind is_none];
      try (split; reflexivity).
    exfalso. exact (Hnd entries eq_refl).
Qed.


(** X13.  The URL that [_resolve_offer_url] returns is always absolute: a
    relative path from the index is prefixed with the price list's base
    address, and anything else that does not start with [http] with the
    offers prefix.  Whether it returns a URL or not, it fetches the
    offer index exactly once and nothing else. *)
Theorem offer_url_is_absolute (service_code : string) (l : log) :
  exists answer,
    PublicPricing._resolve_offer_url env service_code l
    = (answer, (l ++ [EvFetch INDEX_URL])%list)
    /\ forall url, answer = Ok (Some url) ->
         startswith url "http" = true.
Proof.
  unfold PublicPricing._resolve_offer_url, bind, PublicPricing._fetch_json.
  set (got := match http_get env l _ with
              | Fetched v => (v, "")
              | HTTPError code reason => _
              | URLError reason str_e => _
              | OtherFetchError str_e => _
              end).
  destruct got as [data msg].
  destruct (negb (truthy data)).
  - eexists. split; [reflexivity|]. intros url H. inversion H.
  - unfold lift. eexists. split; [reflexivity|].
    intros url H.
    apply rbind_ok in H as [o [_ H]].
    apply rbind_ok in H as [offer [_ H]].
    destruct (negb (truthy offer)); [inversion H|].
    apply rbind_ok in H as [r1 [_ H]].
    apply rbind_ok in H as [rel [_ H]].
    destruct rel as [ | | | |s| | ]; try (inversion H; fail).
    destruct (negb (str_truthy s)); [inversion H|].
    destruct (startswith s "/").
    + inversion H; subst. reflexivity.
    + destruct (negb (startswith s "http")) eqn:Eh; inversion H; subst.
      * reflexivity.
      * apply negb_false_iff in Eh. exact Eh.
Qed.


(** X14.  Apart from the alternate names, the two range readers agree.  On a
    dimension that carries neither [startingRange] nor [endingRange],
    and whose [beginRange] and [endRange] are each absent, [None] or a
    truthy value, the public client's [_range_from_dim] and the range
    that the authenticated S3 scan reads are the same, and raise the
    same. *)
Theorem range_readers_agree_without_alternate_names
  (d : list (string * value)) :
  lookup "startingRange" d = None ->
  lookup "endingRange" d = None ->
  (forall v, lookup "beginRange" d = Some v -> v = VNone \/ truthy v = true) ->
  (forall v, lookup "endRange" d = Some v -> v = VNone \/ truthy v = true) ->
  PublicPricing._range_from_dim env (VDict d)
  = PricingResolver.api_range_from_dim env (VDict d).
Proof.
  intros Hs He Hb Hr.
  unfold PublicPricing._range_from_dim, PricingResolver.api_range_from_dim,
    get, get_default.
  cbn [rbind]. rewrite Hs, He.
  assert (Hbr : (if truthy match lookup "beginRange" d with
                           | Some v => v | None => VNone end
                 then Ok match lookup "beginRange" d with
                         | Some v => v | None => VNone end
                 else Ok VNone)
                = Ok match lookup "beginRange" d with
                     | Some v => v | None => VNone end).
  { destruct (lookup "beginRange" d) as [v|]; [|reflexivity].
    destruct (Hb v eq_refl) as [E|E]; [subst; reflexivity|rewrite E; reflexivity]. }
  assert (Her : (if truthy match lookup "endRange" d with
                           | Some v => v | None => VNone end
                 then Ok match lookup "endRange" d with
                         | Some v => v | None => VNone end
                 else Ok VNone)
                = Ok match lookup "endRange" d with
                     | Some v => v | None => VNone end).
  { destruct (lookup "endRange" d) as [v|]; [|reflexivity].
    destruct (Hr v eq_refl) as [E|E]; [subst; reflexivity|rewrite E; reflexivity]. }
  rewrite Hbr. cbn [rbind]. rewrite Her. reflexivity.
Qed.

End Readers.

Section ReadersExamples.

Import Pricing Spec Guarantees.
Local Open Scope string_scope.

Lemma unit_normalization_agrees_and_never_rescales_witness :
  PublicPricing._normalize_to_gb_month (dec 23 3) (VStr " GB-Mo ")
  = PricingResolver._normalize_to_gb_month (dec 23 3) (VStr " GB-Mo ")
  /\ dec 23 3 = dec 23 3.
Proof.
  split.
  - apply (proj1 (unit_normalization_agrees_and_never_rescales (dec 23 3)
                    (VStr " GB-Mo "))).
  - apply (proj2 (unit_normalization_agrees_and_never_rescales (dec 23 3)
                    (VStr " GB-Mo "))).
    reflexivity.
Defined.

Lemma price_dimension_parsers_differ_on_malformed_price_witness :
  PublicPricing._parse_price_dimension Examples.online_env
    (Examples.price_dim "0.0230000000" "0" "51200") "USD"
  = Ok (Some (dec 23 3), VStr "GB-Mo")
  /\ PricingResolver._parse_price_dimension Examples.online_env
       (VDict [("unit", VStr "GB-Mo"); ("pricePerUnit", VNone)]) "USD"
     = Raise AttributeError
  /\ PublicPricing._parse_price_dimension Examples.online_env
       (VDict [("unit", VStr "GB-Mo"); ("pricePerUnit", VNone)]) "USD"
     = Ok (None, VStr "GB-Mo").
Proof.
  split.
  - apply (proj1 (price_dimension_parsers_differ_on_malformed_price
                    Examples.online_env
                    (Examples.price_dim "0.0230000000" "0" "51200") "USD")).
    vm_compute. reflexivity.
  - apply (proj2 (price_dimension_parsers_differ_on_malformed_price
                    Examples.online_env
                    (VDict [("unit", VStr "GB-Mo"); ("pricePerUnit", VNone)])
                    "USD")
             [("unit", VStr "GB-Mo"); ("pricePerUnit", VNone)] VNone eq_refl
             eq_refl).
    intros entries. discriminate.
Defined.

Lemma offer_url_is_absolute_witness :
  exists answer,
    PublicPricing._resolve_offer_url Examples.online_env "AmazonS3" []
    = (answer, [EvFetch INDEX_URL])
    /\ forall url, answer = Ok (Some url) -> startswith url "http" = true.
Proof.
  exact (offer_url_is_absolute Examples.online_env "AmazonS3" []).
Defined.

Lemma range_readers_agree_without_alternate_names_witness :
  PublicPricing._range_from_dim Examples.online_env
    (Examples.price_dim "0.0230000000" "0" "51200")
  = PricingResolver.api_range_from_dim Examples.online_env
      (Examples.price_dim "0.0230000000" "0" "51200").
Proof.
  apply (range_readers_agree_without_alternate_names Examples.online_env
           [("unit", VStr "GB-Mo");
            ("pricePerUnit", VDict [("USD", VStr "0.0230000000")]);
            ("beginRange", VStr "0");
            ("endRange", VStr "51200")]);
    try reflexivity;
    intros v H; inversion H; right; reflexivity.
Defined.

End ReadersExamples.

(* ===================================================================== *)
(** ** What the scans guarantee about rates *)
(* ===================================================================== *)

Section ScanGuarantees.

Import Pricing Spec Guarantees RegionMapping.
Local Open Scope string_scope.

Variable env : Env.

Lemma rate_at_least_zero_no_rate (r : PricingResult) :
  rate_per_gb_month r = None -> rate_at_least_zero r.
Proof. intros H x Hx. congruence. Qed.

(** *** AWS Backup *)

Lemma backup_dim_rate best sku attrs currency kv :
  rreturns (PublicPricing.backup_dim env best sku attrs currency kv)
    (fun o => forall b, o = Some b -> rate_at_least_zero b).
Proof.
  unfold PublicPricing.backup_dim.
  apply rreturns_bind_any. intros [price u].
  destruct price as [p|]; [|apply rreturns_ok; discriminate].
  apply rreturns_bind_any. intros [r|]; [|apply rreturns_ok; discriminate].
  destruct (fge r f0) eqn:Hge; apply rreturns_ok; [|discriminate].
  intros b Hb x Hx. inversion Hb; subst. simpl in Hx.
  inversion Hx; subst. exact Hge.
Qed.

Lemma backup_scan_rate data url location currency :
  rreturns (PublicPricing.backup_scan env data url location currency)
    rate_at_least_zero.
Proof.
  unfold PublicPricing.backup_scan.
  apply rreturns_bind_any. intros p0.
  apply rreturns_bind_any. intros t0.
  apply rreturns_bind_any. intros o0.
  apply rreturns_bind_any. intros prods.
  eapply rreturns_bind.
  - apply first_match_returns with (P := rate_at_least_zero).
    intros [sku product]. unfold PublicPricing.backup_product.
    apply rreturns_bind_any. intros a0.
    apply rreturns_bind_any. intros m.
    destruct (negb m); [apply rreturns_ok; discriminate|].
    apply rreturns_bind_any. intros known.
    destruct (negb known); [apply rreturns_ok; discriminate|].
    apply rreturns_bind_any. intros term_entries.
    apply rreturns_bind_any. intros entries.
    apply first_match_returns. intros kv. unfold PublicPricing.backup_term.
    apply rreturns_bind_any. intros d0.
    apply rreturns_bind_any. intros dims.
    apply first_match_returns. intros kv'. apply backup_dim_rate.
  - intros [b|] Hb; apply rreturns_ok.
    + apply Hb. reflexivity.
    + apply rate_at_least_zero_no_rate. reflexivity.
Qed.

Lemma public_backup_rate region_code currency :
  returns (PublicPricing.resolve_aws_backup_storage_public env region_code currency)
    rate_at_least_zero.
Proof.
  unfold PublicPricing.resolve_aws_backup_storage_public.
  destruct (get_location_for_region region_code) as [location|].
  2:{ apply returns_ret, rate_at_least_zero_no_rate. reflexivity. }
  destruct (negb (str_truthy location)).
  { apply returns_ret, rate_at_least_zero_no_rate. reflexivity. }
  apply returns_bind_any. intros discovered.
  apply returns_bind_any. intros [[fetch_error data] url].
  destruct (negb (truthy data)).
  - apply returns_ret, rate_at_least_zero_no_rate. reflexivity.
  - apply returns_lift, backup_scan_rate.
Qed.

Lemma api_backup_term_rate best product attrs term currency kv :
  rreturns (PricingResolver.api_backup_term env best product attrs term currency kv)
    (fun o => forall b, o = Some b -> rate_at_least_zero b).
Proof.
  unfold PricingResolver.api_backup_term.
  apply rreturns_bind_any. intros d0.
  apply rreturns_bind_any. intros dims.
  apply first_match_returns. intros kv'. unfold PricingResolver.api_backup_dim.
  apply rreturns_bind_any. intros [price u].
  destruct price as [p|]; [|apply rreturns_ok; discriminate].
  apply rreturns_bind_any. intros [r|]; [|apply rreturns_ok; discriminate].
  destruct (fge r f0) eqn:Hge; [|apply rreturns_ok; discriminate].
  apply rreturns_bind_any. intros pr.
  apply rreturns_bind_any. intros s. apply rreturns_ok.
  intros b Hb x Hx. inversion Hb; subst. simpl in Hx.
  inversion Hx; subst. exact Hge.
Qed.

Lemma api_backup_scan_rate products location filters currency :
  rreturns (PricingResolver.api_backup_scan env products location filters currency)
    rate_at_least_zero.
Proof.
  unfold PricingResolver.api_backup_scan.
  eapply rreturns_bind.
  { apply first_match_returns with (P := rate_at_least_zero).
    intros product. unfold PricingResolver.api_backup_on_demand.
    apply rreturns_bind_any. intros pr.
    apply rreturns_bind_any. intros attrs.
    apply rreturns_bind_any. intros pf.
    destruct (negb (eq_str pf "Storage")); [apply rreturns_ok; discriminate|].
    apply rreturns_bind_any. intros t0.
    apply rreturns_bind_any. intros on_demand.
    apply rreturns_bind_any. intros entries.
    apply first_match_returns. intros kv. apply api_backup_term_rate. }
  intros [b|] Hb; [apply rreturns_ok, Hb, eq_refl|].
  eapply rreturns_bind.
  { apply first_match_returns with (P := rate_at_least_zero).
    intros product. unfold PricingResolver.api_backup_any_term.
    apply rreturns_bind_any. intros pr.
    apply rreturns_bind_any. intros attrs.
    apply rreturns_bind_any. intros pf.
    destruct (negb (eq_str pf "Storage")); [apply rreturns_ok; discriminate|].
    apply first_match_returns. intros term_type.
    unfold PricingResolver.api_backup_term_type.
    apply rreturns_bind_any. intros t0.
    apply rreturns_bind_any. intros t1.
    apply rreturns_bind_any. intros entries.
    apply first_match_returns. intros kv. apply api_backup_term_rate. }
  intros [b|] Hb2; [apply rreturns_ok, Hb2, eq_refl|].
  apply rreturns_ok, rate_at_least_zero_no_rate. reflexivity.
Qed.

(** X15.  An AWS Backup rate is a number and is not negative.  Whenever
    [resolve_aws_backup_storage_public] or [resolve_aws_backup_storage]
    returns a result with a flat rate, that rate satisfies [rate >= 0]:
    a negative price and a NaN price are both passed over, on the
    public path and on the authenticated path. *)
Theorem backup_rate_is_a_number_at_least_zero
  (region_code currency : string) (client : option client) :
  returns (PublicPricing.resolve_aws_backup_storage_public env region_code
             currency)
    rate_at_least_zero
  /\ returns (PricingResolver.resolve_aws_backup_storage env region_code
                currency client)
       rate_at_least_zero.
Proof.
  split; [apply public_backup_rate|].
  unfold PricingResolver.resolve_aws_backup_storage.
  destruct (get_location_for_region region_code) as [location|];
    [|apply returns_ret, rate_at_least_zero_no_rate; reflexivity].
  destruct (negb (str_truthy location));
    [apply returns_ret, rate_at_least_zero_no_rate; reflexivity|].
  eapply returns_bind; [apply public_backup_rate|].
  intros pub Hpub.
  destruct (no_error pub && _).
  - apply returns_ret. exact Hpub.
  - apply returns_bind_any. intros [c| |e].
    + apply returns_bind_any. intros [products| |e|e].
      * apply returns_lift, api_backup_scan_rate.
      * apply returns_ret, rate_at_least_zero_no_rate. reflexivity.
      * apply returns_ret, rate_at_least_zero_no_rate. reflexivity.
      * apply returns_ret, rate_at_least_zero_no_rate. reflexivity.
    + apply returns_ret, rate_at_least_zero_no_rate. reflexivity.
    + apply returns_ret, rate_at_least_zero_no_rate. reflexivity.
Qed.

(** *** S3 *)

Lemma collect_Forall {A B : Type} (g : A -> result (list B)) (P : B -> Prop)
  (l : list A) :
  (forall x ys, g x = Ok ys -> Forall P ys) ->
  forall ys, collect g l = Ok ys -> Forall P ys.
Proof.
  intros Hg. induction l as [|x rest IH]; intros ys H; simpl in H.
  - inversion H; subst. constructor.
  - apply rbind_ok in H as [ys1 [H1 H2]].
    apply rbind_ok in H2 as [ys2 [H2 H3]]. inversion H3; subst.
    apply Forall_app. split; [exact (Hg x ys1 H1)|exact (IH ys2 H2)].
Qed.

Lemma s3_dim_triples_rates currency kv ys :
  s3_dim_triples env currency kv = Ok ys ->
  Forall (fun t => flt (rate_of t) f0 = false) ys.
Proof.
  unfold s3_dim_triples. intros H.
  apply rbind_ok in H as [[price u] [_ H]]. cbv beta iota in H.
  destruct price as [p|]; [|inversion H; constructor].
  apply rbind_ok in H as [rate [_ H]].
  destruct rate as [r|]; [|inversion H; constructor].
  destruct (flt r f0) eqn:E; [inversion H; constructor|].
  apply rbind_ok in H as [[start end_] [_ H]]. cbv beta iota in H.
  inversion H; subst. constructor; [exact E|constructor].
Qed.

Lemma s3_triples_rates data location storage_class currency ts :
  s3_triples env data location storage_class currency = Ok ts ->
  Forall (fun t => flt (rate_of t) f0 = false) ts.
Proof.
  unfold s3_triples. intros H.
  apply rbind_ok in H as [p0 [_ H]]. apply rbind_ok in H as [t0 [_ H]].
  apply rbind_ok in H as [o0 [_ H]]. apply rbind_ok in H as [prods [_ H]].
  revert ts H. apply collect_Forall. intros [sku product] ys H.
  unfold s3_product_triples in H.
  apply rbind_ok in H as [a0 [_ H]]. apply rbind_ok in H as [pf [_ H]].
  destruct (negb (eq_str pf "Storage")); [inversion H; constructor|].
  apply rbind_ok in H as [loc [_ H]].
  destruct (negb (eq_str loc location)); [inversion H; constructor|].
  apply rbind_ok in H as [s1 [_ H]]. apply rbind_ok in H as [s2 [_ H]].
  apply rbind_ok in H as [scs [_ H]].
  destruct (PublicPricing.storage_class_mismatch _ _);
    [inversion H; constructor|].
  apply rbind_ok in H as [known [_ H]].
  destruct (negb known); [inversion H; constructor|].
  apply rbind_ok in H as [term_entries [_ H]].
  apply rbind_ok in H as [entries [_ H]].
  revert ys H. apply collect_Forall. intros kv ys H.
  unfold s3_term_triples in H.
  apply rbind_ok in H as [d0 [_ H]]. apply rbind_ok in H as [dims [_ H]].
  revert ys H. apply collect_Forall. intros kv' ys.
  apply s3_dim_triples_rates.
Qed.

Lemma api_s3_dim_triples_rates currency kv ys :
  ApiTriples.api_s3_dim_triples env currency kv = Ok ys ->
  Forall (fun t => flt (rate_of t) f0 = false) ys.
Proof.
  unfold ApiTriples.api_s3_dim_triples. intros H.
  apply rbind_ok in H as [[price u] [_ H]]. cbv beta iota in H.
  destruct price as [p|]; [|inversion H; constructor].
  apply rbind_ok in H as [rate [_ H]].
  destruct rate as [r|]; [|inversion H; constructor].
  destruct (flt r f0) eqn:E; [inversion H; constructor|].
  apply rbind_ok in H as [[start end_] [_ H]]. cbv beta iota in H.
  inversion H; subst. constructor; [exact E|constructor].
Qed.

Lemma api_s3_triples_rates products currency ts :
  ApiTriples.api_s3_triples env products currency = Ok ts ->
  Forall (fun t => flt (rate_of t) f0 = false) ts.
Proof.
  unfold ApiTriples.api_s3_triples. revert ts.
  apply collect_Forall. intros product ys H.
  unfold ApiTriples.api_s3_product_triples in H.
  apply rbind_ok in H as [pr [_ H]]. apply rbind_ok in H as [attrs [_ H]].
  apply rbind_ok in H as [pf [_ H]].
  destruct (negb (eq_str pf "Storage")); [inversion H; constructor|].
  apply rbind_ok in H as [usage_type [_ H]]. apply rbind_ok in H as [t0 [_ H]].
  apply rbind_ok in H as [on_demand [_ H]].
  apply rbind_ok in H as [entries [_ H]].
  revert ys H. apply collect_Forall. intros kv ys H.
  unfold ApiTriples.api_s3_term_triples in H.
  apply rbind_ok in H as [d0 [_ H]]. apply rbind_ok in H as [dims [_ H]].
  revert ys H. apply collect_Forall. intros kv' ys.
  apply api_s3_dim_triples_rates.
Qed.

(** The authenticated scan against the triples it collects. *)
Lemma api_s3_dim_collect product attrs currency st kv st' :
  PricingResolver.api_s3_dim env product attrs currency st kv = Ok st' ->
  exists ys, ApiTriples.api_s3_dim_triples env currency kv = Ok ys
             /\ fst st' = (fst st ++ ys)%list.
Proof.
  destruct st as [tw res]. intros H.
  unfold PricingResolver.api_s3_dim in H. unfold ApiTriples.api_s3_dim_triples.
  destruct (PricingResolver._parse_price_dimension env (snd kv) currency)
    as [[price u]|]; cbn [rbind] in *; [|discriminate].
  destruct price as [p|].
  2:{ inversion H; subst. exists [].
      split; [reflexivity|]. simpl. rewrite app_nil_r. reflexivity. }
  destruct (PricingResolver._normalize_to_gb_month p u) as [[r|]|];
    cbn [rbind] in *; try discriminate.
  2:{ inversion H; subst. exists [].
      split; [reflexivity|]. simpl. rewrite app_nil_r. reflexivity. }
  destruct (flt r f0).
  { inversion H; subst. exists [].
    split; [reflexivity|]. simpl. rewrite app_nil_r. reflexivity. }
  destruct (PricingResolver.api_range_from_dim env (snd kv))
    as [[start end_]|]; cbn [rbind] in *; [|discriminate].
  apply rbind_ok in H as [res1 [_ H]]. inversion H; subst.
  exists [(start, end_, r)]. split; reflexivity.
Qed.

Lemma api_s3_product_collect currency st product st' :
  PricingResolver.api_s3_product env currency st product = Ok st' ->
  exists ys, ApiTriples.api_s3_product_triples env currency product = Ok ys
             /\ fst st' = (fst st ++ ys)%list.
Proof.
  intros H. unfold PricingResolver.api_s3_product in H.
  unfold ApiTriples.api_s3_product_triples.
  destruct (get_default product "product" (VDict [])) as [pr|];
    cbn [rbind] in *; [|discriminate].
  destruct (get_default pr "attributes" (VDict [])) as [attrs|];
    cbn [rbind] in *; [|discriminate].
  destruct (get attrs "productFamily") as [pf|]; cbn [rbind] in *;
    [|discriminate].
  destruct (negb (eq_str pf "Storage")).
  { inversion H; subst. exists [].
    split; [reflexivity|]. rewrite app_nil_r. reflexivity. }
  destruct (get_default attrs "usagetype" (VStr "")) as [usage_type|];
    cbn [rbind] in *; [|discriminate].
  destruct (get_default product "terms" (VDict [])) as [t0|];
    cbn [rbind] in *; [|discriminate].
  destruct (get_default (py_or t0 (VDict [])) "OnDemand" (VDict []))
    as [on_demand|]; cbn [rbind] in *; [|discriminate].
  destruct (items on_demand) as [entries|]; cbn [rbind] in *; [|discriminate].
  edestruct (foldM_collect
               (PricingResolver.api_s3_term env product attrs currency)
               (ApiTriples.api_s3_term_triples env currency)
               fst (fun _ => True))
    as [_ Hc]; [ | | exact H | exact Hc]; [|exact I].
  intros s x s' _ Hf. split; [exact I|].
  unfold PricingResolver.api_s3_term in Hf.
  unfold ApiTriples.api_s3_term_triples.
  destruct (get (snd x) "priceDimensions") as [d0|]; cbn [rbind] in *;
    [|discriminate].
  destruct (items (py_or d0 (VDict []))) as [dims|]; cbn [rbind] in *;
    [|discriminate].
  edestruct (foldM_collect
               (PricingResolver.api_s3_dim env product attrs currency)
               (ApiTriples.api_s3_dim_triples env currency)
               fst (fun _ => True))
    as [_ Hc]; [ | | exact Hf | exact Hc]; [|exact I].
  intros s0 x0 s0' _ Hf0. split; [exact I|].
  apply (api_s3_dim_collect product attrs currency s0 x0 s0' Hf0).
Qed.

(** What the end of a scan makes of the triples collected: an error
    when there are none, their collapse otherwise. *)
Lemma finish_collapse (res : PricingResult) (tw : list triple) (msg : string)
  (r : PricingResult) :
  pristine res ->
  match tw with
  | [] => Ok (set_error res msg)
  | _ =>
      match sort_by_start tw with
      | [t] =>
          if feq (end_of t) finf then Ok (set_rate res (rate_of t))
          else Ok (set_tiers res (map band_of_triple (sort_by_start tw)))
      | _ => Ok (set_tiers res (map band_of_triple (sort_by_start tw)))
      end
  end = Ok r ->
  (tw = [] /\ error r <> None /\ rate_per_gb_month r = None /\ tiers r = [])
  \/ (tw <> [] /\ error r = None
      /\ (rate_per_gb_month r, tiers r) = collapse tw).
Proof.
  intros [Hrate [Htiers Herr]] Hend.
  destruct tw as [|t rest].
  - left. inversion Hend; subst. simpl. repeat split; try assumption.
    discriminate.
  - right. split; [discriminate|].
    unfold collapse.
    destruct rest as [|t' rest'].
    + simpl in Hend. unfold unbounded.
      destruct (feq (end_of t) finf); inversion Hend; subst; simpl;
        rewrite ?Hrate, ?Htiers; split; try assumption; reflexivity.
    + assert (Hend' : Ok (set_tiers res
                            (map band_of_triple (sort_by_start (t :: t' :: rest'))))
                      = Ok r).
      { destruct (sort_by_start (t :: t' :: rest')) as [|a [|b more]] eqn:Es;
          try exact Hend.
        apply sort_by_start_single in Es. discriminate. }
      inversion Hend'; subst. simpl. rewrite Hrate.
      split; [assumption|reflexivity].
Qed.

Lemma api_s3_scan_collapse products location storage_class currency r :
  PricingResolver.api_s3_scan env products location storage_class currency = Ok r ->
  exists ts,
    ApiTriples.api_s3_triples env products currency = Ok ts
    /\ ((ts = [] /\ error r <> None
         /\ rate_per_gb_month r = None /\ tiers r = [])
        \/ (ts <> [] /\ error r = None
            /\ (rate_per_gb_month r, tiers r) = collapse ts)).
Proof.
  intros H. unfold PricingResolver.api_s3_scan in H.
  apply rbind_ok in H as [[tw res] [Hfold Hend]].
  assert (Hp : pristine (snd (tw, res))).
  { eapply (foldM_invariant (PricingResolver.api_s3_product env currency)
              (fun s => pristine (snd s)) products); [| |exact Hfold].
    - intros s x Hs. apply api_s3_product_pristine, Hs.
    - apply pristine_initial. }
  cbn [snd] in Hp.
  edestruct (foldM_collect (PricingResolver.api_s3_product env currency)
               (ApiTriples.api_s3_product_triples env currency)
               fst (fun _ => True))
    as [_ [ts [Hc Hts]]]; [ | | exact Hfold | ]; [|exact I|].
  { intros s x s' _ Hf. split; [exact I|].
    apply (api_s3_product_collect currency s x s' Hf). }
  simpl in Hts. subst tw. exists ts. split; [exact Hc|].
  apply (finish_collapse res ts _ r Hp Hend).
Qed.

Lemma no_rate_below_zero_error (r : PricingResult) :
  rate_per_gb_month r = None -> tiers r = [] -> no_rate_below_zero r.
Proof.
  intros Hr Ht. split; [intros x Hx; congruence|]. rewrite Ht. constructor.
Qed.

Lemma collapse_rates (ts : list triple) (r : PricingResult) :
  Forall (fun t => flt (rate_of t) f0 = false) ts ->
  (rate_per_gb_month r, tiers r) = collapse ts ->
  no_rate_below_zero r.
Proof.
  intros Hts Hc.
  assert (Hbands : Forall (fun band => exists x, band_rate band = Some x
                                                 /\ flt x f0 = false)
                     (map band_of_triple (sort_by_start ts))).
  { apply Forall_map.
    apply (Permutation_Forall (Permutation_sym (sort_by_start_perm ts))) in Hts.
    eapply Forall_impl; [|exact Hts].
    intros t Ht. exists (rate_of t). split; [reflexivity|exact Ht]. }
  unfold collapse in Hc. unfold no_rate_below_zero.
  destruct ts as [|t [|t' rest]].
  - inversion Hc as [[Hr Ht]]. rewrite Hr, Ht. split; [discriminate|constructor].
  - destruct (unbounded t).
    + inversion Hc as [[Hr Ht]]. rewrite Hr, Ht. split; [|constructor].
      intros x Hx. inversion Hx; subst. inversion Hts; assumption.
    + inversion Hc as [[Hr Ht]]. rewrite Hr, Ht. split; [discriminate|exact Hbands].
  - inversion Hc as [[Hr Ht]]. rewrite Hr, Ht. split; [discriminate|exact Hbands].
Qed.

Lemma public_s3_rates region_code storage_class currency :
  returns (PublicPricing.resolve_s3_storage_public env region_code storage_class
             currency)
    no_rate_below_zero.
Proof.
  intros l r l' H.
  destruct (public_s3_cases env _ _ _ _ _ _ H)
    as [[_ [Hr Ht]]|[location [data [url [_ [_ Hscan]]]]]].
  - apply no_rate_below_zero_error; assumption.
  - destruct (s3_scan_collapse env _ _ _ _ _ _ Hscan)
      as [ts [Hts [[_ [_ [Hr Ht]]]|[_ [_ Hc]]]]].
    + apply no_rate_below_zero_error; assumption.
    + apply (collapse_rates ts r); [|exact Hc].
      apply (s3_triples_rates _ _ _ _ _ Hts).
Qed.

(** X16.  No S3 rate is negative.  In every result that
    [resolve_s3_storage_public] or [resolve_s3_storage] returns, the
    flat rate, when there is one, and the rate of every tier band are
    not below zero: a dimension priced below zero is passed over on the
    public path and on the authenticated path.  (The check is
    [rate < 0], which a NaN price passes; the Backup operations check
    [rate >= 0].) *)
Theorem s3_rates_are_never_below_zero
  (region_code storage_class currency : string) (client : option client) :
  returns (PublicPricing.resolve_s3_storage_public env region_code storage_class
             currency)
    no_rate_below_zero
  /\ returns (PricingResolver.resolve_s3_storage env region_code storage_class
                currency client)
       no_rate_below_zero.
Proof.
  split; [apply public_s3_rates|].
  unfold PricingResolver.resolve_s3_storage.
  assert (Herr : forall m, no_rate_below_zero (PricingResolver.error_result m))
    by (intros m; apply no_rate_below_zero_error; reflexivity).
  assert (Herr' : forall m raw,
            no_rate_below_zero
              (set_raw_filter_used (PricingResolver.error_result m) raw))
    by (intros m raw; apply no_rate_below_zero_error; reflexivity).
  destruct (get_location_for_region region_code) as [location|];
    [|apply returns_ret, Herr].
  destruct (negb (str_truthy location)); [apply returns_ret, Herr|].
  eapply returns_bind; [apply public_s3_rates|].
  intros pub Hpub.
  destruct (no_error pub && _).
  - apply returns_ret. exact Hpub.
  - apply returns_bind_any. intros [c| |e].
    + apply returns_bind_any. intros [products| |e|e].
      * apply returns_lift. intros r Hscan.
        destruct (api_s3_scan_collapse _ _ _ _ _ Hscan)
          as [ts [Hts [[_ [_ [Hr Ht]]]|[_ [_ Hc]]]]].
        -- apply no_rate_below_zero_error; assumption.
        -- apply (collapse_rates ts r); [|exact Hc].
           apply (api_s3_triples_rates _ _ _ Hts).
      * apply returns_ret, Herr'.
      * apply returns_ret, Herr'.
      * apply returns_ret, Herr'.
    + apply returns_ret, Herr'.
    + apply returns_ret, Herr.
Qed.

(** X17.  The collapse rule holds on the authenticated path as well.  A
    result without error that [resolve_s3_storage] returns is either
    the usable result of the public client, rate and tiers unchanged,
    or it is built from the products that the one [get_products] query
    returned: the triples of every dimension of every product of
    family [Storage] among them are collected (the location and the
    storage class are left to the query's filters), and the result is
    their collapse: a flat rate exactly when there is one triple and
    its end is unbounded, otherwise all of them as tier bands sorted by
    start. *)
Theorem authenticated_s3_collapse_rule
  (region_code storage_class currency : string) (client : option client)
  (l l' : log) (r : PricingResult) :
  PricingResolver.resolve_s3_storage env region_code storage_class currency
    client l = (Ok r, l') ->
  error r = None ->
  (exists pub,
     PublicPricing.resolve_s3_storage_public env region_code storage_class
       currency l = (Ok pub, l')
     /\ usable pub
     /\ rate_per_gb_month r = rate_per_gb_month pub
     /\ tiers r = tiers pub)
  \/ (exists c filters l1 products ts,
        PricingResolver.get_products env c "Amazon S3" filters l1
        = (Ok (PricingResolver.Products products), l')
        /\ ApiTriples.api_s3_triples env products currency = Ok ts
        /\ ts <> []
        /\ (rate_per_gb_month r, tiers r) = collapse ts
        /\ (rate_per_gb_month r <> None
            <-> exists t, ts = [t] /\ unbounded t = true)
        /\ Permutation (sort_by_start ts) ts
        /\ ascending_by_start (sort_by_start ts)).
Proof.
  intros H He. unfold PricingResolver.resolve_s3_storage in H.
  destruct (get_location_for_region region_code) as [location|];
    [|inversion H; subst; discriminate He].
  destruct (negb (str_truthy location));
    [inversion H; subst; discriminate He|].
  unfold bind at 1 in H.
  destruct (PublicPricing.resolve_s3_storage_public env region_code
              storage_class currency l) as [[pub|x] l1] eqn:Ep;
    [|discriminate].
  destruct (no_error pub && _) eqn:Hu.
  - left. inversion H; subst. exists pub. split; [reflexivity|].
    apply andb_prop in Hu as [Hne Hdata].
    split; [|split; reflexivity].
    split; [exact Hne|].
    apply orb_prop in Hdata as [Hr|Ht].
    + left. destruct (rate_per_gb_month pub); [discriminate|discriminate Hr].
    + right. destruct (tiers pub); [discriminate Ht|discriminate].
  - right. unfold bind at 1 in H.
    destruct (PricingResolver.client_or_create env client l1)
      as [[outcome|x] l2] eqn:Ec; [|discriminate].
    destruct outcome as [c| |e];
      try (inversion H; subst; discriminate He).
    unfold bind at 1 in H.
    destruct (PricingResolver.get_products env c "Amazon S3" _ l2)
      as [[out|x] l3] eqn:Eg; [|discriminate].
    destruct out as [products| |e|e];
      try (inversion H; subst; discriminate He).
    unfold lift in H. inversion H as [[Hscan Hl]]. subst l3.
    destruct (api_s3_scan_collapse _ _ _ _ _ Hscan)
      as [ts [Hts [[_ [He' _]]|[Hne [_ Hc]]]]]; [contradiction|].
    eexists c, _, l2, products, ts.
    split; [exact Eg|]. split; [exact Hts|]. split; [exact Hne|].
    split; [exact Hc|]. split; [apply (collapse_flat_iff ts _ _ Hc)|].
    split; [apply sort_by_start_perm|apply sort_by_start_sorted].
Qed.

End ScanGuarantees.

Section ScanGuaranteesExamples.

Import Pricing Spec Guarantees RegionMapping Examples.
Local Open Scope string_scope.

Lemma backup_rate_is_a_number_at_least_zero_witness :
  rate_at_least_zero online_backup_result.
Proof.
  apply (proj1 (backup_rate_is_a_number_at_least_zero online_env "us-east-1"
                  "USD" None) []
           online_backup_result
           (snd (PublicPricing.resolve_aws_backup_storage_public online_env
                   "us-east-1" "USD" []))).
  vm_compute. reflexivity.
Defined.

Lemma s3_rates_are_never_below_zero_witness :
  no_rate_below_zero online_s3_result.
Proof.
  apply (proj1 (s3_rates_are_never_below_zero online_env "us-east-1"
                  "Standard" "USD" None) []
           online_s3_result
           (snd (PublicPricing.resolve_s3_storage_public online_env
                   "us-east-1" "Standard" "USD" []))).
  vm_compute. reflexivity.
Defined.

Lemma authenticated_s3_collapse_rule_witness :
  (exists pub,
     PublicPricing.resolve_s3_storage_public api_env "us-east-1" "Standard"
       "USD" []
     = (Ok pub,
        snd (PricingResolver.resolve_s3_storage api_env "us-east-1" "Standard"
               "USD" None []))
     /\ usable pub
     /\ rate_per_gb_month api_s3_result = rate_per_gb_month pub
     /\ tiers api_s3_result = tiers pub)
  \/ (exists c filters l1 products ts,
        PricingResolver.get_products api_env c "Amazon S3" filters l1
        = (Ok (PricingResolver.Products products),
           snd (PricingResolver.resolve_s3_storage api_env "us-east-1"
                  "Standard" "USD" None []))
        /\ ApiTriples.api_s3_triples api_env products "USD" = Ok ts
        /\ ts <> []
        /\ (rate_per_gb_month api_s3_result, tiers api_s3_result) = collapse ts
        /\ (rate_per_gb_month api_s3_result <> None
            <-> exists t, ts = [t] /\ unbounded t = true)
        /\ Permutation (sort_by_start ts) ts
        /\ ascending_by_start (sort_by_start ts)).
Proof.
  apply (authenticated_s3_collapse_rule api_env "us-east-1" "Standard" "USD"
           None []).
  - vm_compute. reflexivity.
  - vm_compute. reflexivity.
Defined.

End ScanGuaranteesExamples.

(* ===================================================================== *)
(** ** The TTL cache *)
(* ===================================================================== *)

Section CacheFacts.

Local Open Scope string_scope.

Variable V : Type.

Lemma store_get_del_same (k : string) (s : Cache.store V) :
  Cache.store_get k (Cache.store_del k s) = None.
Proof.
  induction s as [|[k' x] rest IH]; simpl; [reflexivity|].
  destruct (String.eqb k' k) eqn:E; simpl; [exact IH|].
  rewrite E. exact IH.
Qed.

Lemma store_get_del_other (k k' : string) (s : Cache.store V) :
  k' <> k ->
  Cache.store_get k' (Cache.store_del k s) = Cache.store_get k' s.
Proof.
  intros Hne. induction s as [|[k0 x] rest IH]; simpl; [reflexivity|].
  destruct (String.eqb k0 k) eqn:E; simpl.
  - apply String.eqb_eq in E. subst k0.
    destruct (String.eqb k k') eqn:E'; [|exact IH].
    apply String.eqb_eq in E'. congruence.
  - destruct (String.eqb k0 k'); [reflexivity|exact IH].
Qed.

Lemma store_get_set_same (k : string) (x : V * float) (s : Cache.store V) :
  Cache.store_get k (Cache.store_set k x s) = Some x.
Proof. unfold Cache.store_set. simpl. rewrite String.eqb_refl. reflexivity. Qed.

Lemma store_get_set_other (k k' : string) (x : V * float) (s : Cache.store V) :
  k' <> k ->
  Cache.store_get k' (Cache.store_set k x s) = Cache.store_get k' s.
Proof.
  intros Hne. unfold Cache.store_set. simpl.
  destruct (String.eqb k k') eqn:E.
  - apply String.eqb_eq in E. congruence.
  - apply store_get_del_other, Hne.
Qed.

(** X18.  What was cached is served until it expires.  After
    [set] stores a value at time [t0], a [get] with the same keyword
    arguments at a time [t1] with not [t1 - t0 > ttl] returns [(value, t0)] and leaves the cache as it
    is; entries under other keys are served as before the [set]. *)
Theorem cache_serves_what_was_set
  (c : Cache.TTLCache V) (value : V) (t0 t1 : float) (kw : Cache.kwargs) :
  fgt (fsub t1 t0) (Cache._ttl c) = false ->
  Cache.get (Cache.set c value t0 kw) t1 kw
  = (Some (value, t0), Cache.set c value t0 kw)
  /\ forall kw' t,
       Cache._key kw' <> Cache._key kw ->
       fst (Cache.get (Cache.set c value t0 kw) t kw') = fst (Cache.get c t kw').
Proof.
  intros Hfresh. split.
  - unfold Cache.get, Cache.set. cbn [Cache._store Cache._ttl].
    rewrite store_get_set_same, Hfresh. reflexivity.
  - intros kw' t Hne. unfold Cache.get, Cache.set.
    cbn [Cache._store Cache._ttl].
    rewrite (store_get_set_other _ _ _ _ Hne).
    destruct (Cache.store_get (Cache._key kw') (Cache._store c)) as [[v ca]|];
      [|reflexivity].
    destruct (fgt (fsub t ca) (Cache._ttl c)); reflexivity.
Qed.

(** X19.  An expired entry is dropped at the first look.  If an entry was
    cached at [t0] and [get] is called at a time [t1] with
    [t1 - t0 > ttl], the call returns [None] and removes the entry: every
    later [get] for the same key misses, whatever the clock says, and
    entries under other keys are not touched. *)
Theorem cache_drops_expired_entry
  (c : Cache.TTLCache V) (value : V) (t0 t1 : float) (kw : Cache.kwargs) :
  Cache.store_get (Cache._key kw) (Cache._store c) = Some (value, t0) ->
  fgt (fsub t1 t0) (Cache._ttl c) = true ->
  fst (Cache.get c t1 kw) = None
  /\ (forall t, Cache.get (snd (Cache.get c t1 kw)) t kw
                = (None, snd (Cache.get c t1 kw)))
  /\ (forall kw',
        Cache._key kw' <> Cache._key kw ->
        Cache.store_get (Cache._key kw') (Cache._store (snd (Cache.get c t1 kw)))
        = Cache.store_get (Cache._key kw') (Cache._store c)).
Proof.
  intros Hin Hold. unfold Cache.get at 1 3 4 5. rewrite Hin, Hold.
  cbn [fst snd]. split; [reflexivity|]. split.
  - intros t. unfold Cache.get. cbn [Cache._store].
    rewrite store_get_del_same. reflexivity.
  - intros kw' Hne. cbn [Cache._store]. apply store_get_del_other, Hne.
Qed.

(** X20.  [invalidate] reports whether there was an entry, and removes it.
    It returns [True] exactly when the store holds an entry under the
    key; afterwards every [get] for that key misses and leaves the cache
    as it is, and entries under other keys are not touched. *)
Theorem invalidate_removes_the_entry (c : Cache.TTLCache V) (kw : Cache.kwargs) :
  (fst (Cache.invalidate c kw) = true
   <-> Cache.store_get (Cache._key kw) (Cache._store c) <> None)
  /\ (forall t, Cache.get (snd (Cache.invalidate c kw)) t kw
                = (None, snd (Cache.invalidate c kw)))
  /\ (forall kw',
        Cache._key kw' <> Cache._key kw ->
        Cache.store_get (Cache._key kw')
          (Cache._store (snd (Cache.invalidate c kw)))
        = Cache.store_get (Cache._key kw') (Cache._store c)).
Proof.
  unfold Cache.invalidate.
  destruct (Cache.store_get (Cache._key kw) (Cache._store c)) as [x|] eqn:E;
    cbn [fst snd].
  - split; [split; [discriminate|reflexivity]|]. split.
    + intros t. unfold Cache.get. cbn [Cache._store].
      rewrite store_get_del_same. reflexivity.
    + intros kw' Hne. cbn [Cache._store]. apply store_get_del_other, Hne.
  - split; [split; [discriminate|congruence]|]. split.
    + intros t. unfold Cache.get. rewrite E. reflexivity.
    + reflexivity.
Qed.

End CacheFacts.

Section CacheKeys.

Local Open Scope string_scope.

Lemma ascii_compare_refl (a : ascii) : Ascii.compare a a = Eq.
Proof. unfold Ascii.compare. apply N.compare_refl. Qed.

Lemma ascii_compare_lt_trans (a b c : ascii) :
  Ascii.compare a b = Lt -> Ascii.compare b c = Lt -> Ascii.compare a c = Lt.
Proof.
  unfold Ascii.compare. rewrite !N.compare_lt_iff. apply N.lt_trans.
Qed.

Lemma string_compare_lt_trans (s1 : string) :
  forall s2 s3,
    String.compare s1 s2 = Lt -> String.compare s2 s3 = Lt ->
    String.compare s1 s3 = Lt.
Proof.
  induction s1 as [|c1 r1 IH]; intros [|c2 r2] [|c3 r3]; simpl;
    try discriminate; try reflexivity.
  destruct (Ascii.compare c1 c2) eqn:E12; try discriminate;
    destruct (Ascii.compare c2 c3) eqn:E23; try discriminate; intros H1 H2.
  - apply Ascii.compare_eq_iff in E12, E23. subst.
    rewrite ascii_compare_refl. apply (IH r2 r3 H1 H2).
  - apply Ascii.compare_eq_iff in E12. subst. rewrite E23. reflexivity.
  - apply Ascii.compare_eq_iff in E23. subst. rewrite E12. reflexivity.
  - rewrite (ascii_compare_lt_trans _ _ _ E12 E23). reflexivity.
Qed.

Lemma ltb_trans (s1 s2 s3 : string) :
  String.ltb s1 s2 = true -> String.ltb s2 s3 = true -> String.ltb s1 s3 = true.
Proof.
  unfold String.ltb.
  destruct (String.compare s1 s2) eqn:E1; try discriminate.
  destruct (String.compare s2 s3) eqn:E2; try discriminate.
  intros _ _. rewrite (string_compare_lt_trans _ _ _ E1 E2). reflexivity.
Qed.

(** Of two distinct names one is below the other. *)
Lemma ltb_total (s1 s2 : string) :
  String.ltb s1 s2 = false -> String.ltb s2 s1 = false -> s1 = s2.
Proof.
  unfold String.ltb. destruct (String.compare s1 s2) eqn:E.
  - intros _ _. apply String.compare_eq_iff, E.
  - discriminate.
  - rewrite (String.compare_antisym s2 s1), E. simpl. discriminate.
Qed.

Lemma ltb_asym (s1 s2 : string) :
  String.ltb s1 s2 = true -> String.ltb s2 s1 = false.
Proof.
  unfold String.ltb. destruct (String.compare s1 s2) eqn:E; try discriminate.
  rewrite (String.compare_antisym s2 s1), E. reflexivity.
Qed.

(** [z < x] and not [y < x] give [z < y]. *)
Lemma ltb_le_trans (z x y : string) :
  String.ltb z x = true -> String.ltb y x = false -> String.ltb z y = true.
Proof.
  intros Hzx Hyx. destruct (String.ltb x y) eqn:Hxy.
  - apply (ltb_trans _ _ _ Hzx Hxy).
  - rewrite <- (ltb_total _ _ Hxy Hyx). exact Hzx.
Qed.

Lemma insert_item_perm (x : string * option string) (l : Cache.kwargs) :
  Permutation (Cache.insert_item x l) (x :: l).
Proof.
  induction l as [|y rest IH]; simpl; [apply Permutation_refl|].
  destruct (String.ltb (fst y) (fst x)); [|apply Permutation_refl].
  apply perm_trans with (y :: x :: rest); [|apply perm_swap].
  apply perm_skip, IH.
Qed.

Lemma sorted_items_perm (l : Cache.kwargs) : Permutation (Cache.sorted_items l) l.
Proof.
  induction l as [|x rest IH]; simpl; [apply Permutation_refl|].
  apply perm_trans with (x :: Cache.sorted_items rest);
    [apply insert_item_perm|apply perm_skip, IH].
Qed.

(** No later item has a name below an earlier one. *)
Lemma insert_item_sorted (x : string * option string) (l : Cache.kwargs) :
  StronglySorted (fun a b => String.ltb (fst b) (fst a) = false) l ->
  StronglySorted (fun a b => String.ltb (fst b) (fst a) = false)
    (Cache.insert_item x l).
Proof.
  induction 1 as [|y rest Hs IH Hy]; simpl.
  - constructor; constructor.
  - destruct (String.ltb (fst y) (fst x)) eqn:E.
    + constructor; [exact IH|].
      apply (Permutation_Forall (Permutation_sym (insert_item_perm x rest))).
      constructor; [apply ltb_asym, E|exact Hy].
    + constructor; [constructor; assumption|].
      constructor; [exact E|].
      eapply Forall_impl; [|exact Hy].
      intros z Hz. simpl in Hz.
      destruct (String.ltb (fst z) (fst x)) eqn:Ezx; [|reflexivity].
      rewrite (ltb_le_trans _ _ _ Ezx E) in Hz. discriminate.
Qed.

Lemma sorted_items_sorted (l : Cache.kwargs) :
  StronglySorted (fun a b => String.ltb (fst b) (fst a) = false)
    (Cache.sorted_items l).
Proof.
  induction l as [|x rest IH]; simpl; [constructor|].
  apply insert_item_sorted, IH.
Qed.

Lemma nodup_keys_in (l : Cache.kwargs) (a b : string * option string) :
  NoDup (map fst l) -> In a l -> In b l -> fst a = fst b -> a = b.
Proof.
  induction l as [|c rest IH]; simpl; [contradiction|].
  intros Hnd Ha Hb Hk. inversion Hnd as [|k ks Hnot Hrest]; subst.
  destruct Ha as [Ha|Ha], Hb as [Hb|Hb]; subst.
  - reflexivity.
  - exfalso. apply Hnot. rewrite Hk. apply in_map, Hb.
  - exfalso. apply Hnot. rewrite <- Hk. apply in_map, Ha.
  - apply IH; assumption.
Qed.

(** Two sorted lists of items with distinct names that hold the same
    items are the same list. *)
Lemma sorted_unique (l : Cache.kwargs) :
  forall l',
    NoDup (map fst l) ->
    StronglySorted (fun a b => String.ltb (fst b) (fst a) = false) l ->
    StronglySorted (fun a b => String.ltb (fst b) (fst a) = false) l' ->
    Permutation l l' -> l = l'.
Proof.
  induction l as [|a l1 IH]; intros l' Hnd Hs Hs' Hp.
  - apply Permutation_nil in Hp. subst. reflexivity.
  - destruct l' as [|b l2];
      [apply Permutation_sym, Permutation_nil in Hp; discriminate|].
    assert (Hab : a = b).
    { assert (Ha : In a (b :: l2))
        by (apply (Permutation_in _ Hp); left; reflexivity).
      assert (Hb : In b (a :: l1))
        by (apply (Permutation_in _ (Permutation_sym Hp)); left; reflexivity).
      destruct Ha as [Ha|Ha]; [congruence|].
      destruct Hb as [Hb|Hb]; [congruence|].
      inversion Hs as [|? ? _ Hfa]; subst. inversion Hs' as [|? ? _ Hfb]; subst.
      rewrite Forall_forall in Hfa, Hfb.
      pose proof (Hfa b Hb) as H1. pose proof (Hfb a Ha) as H2.
      apply (nodup_keys_in (a :: l1)); try assumption.
      - left; reflexivity.
      - right; exact Hb.
      - apply ltb_total; assumption. }
    subst b. f_equal.
    inversion Hnd; subst. inversion Hs; subst. inversion Hs'; subst.
    apply IH; try assumption.
    apply (Permutation_cons_inv Hp).
Qed.

Lemma sorted_items_of_permutation (kw kw' : Cache.kwargs) :
  NoDup (map fst kw) -> Permutation kw kw' ->
  Cache.sorted_items kw = Cache.sorted_items kw'.
Proof.
  intros Hnd Hp. apply sorted_unique.
  - apply (Permutation_NoDup (l := map fst kw)); [|exact Hnd].
    apply Permutation_map, Permutation_sym, sorted_items_perm.
  - apply sorted_items_sorted.
  - apply sorted_items_sorted.
  - apply perm_trans with kw; [apply sorted_items_perm|].
    apply perm_trans with kw'; [exact Hp|].
    apply Permutation_sym, sorted_items_perm.
Qed.

Lemma insert_unset_item (k : string) (l : Cache.kwargs) :
  flat_map (fun kv => match snd kv with
                      | Some v => [fst kv ++ "=" ++ v]
                      | None => []
                      end)
    (Cache.insert_item (k, None) l)
  = flat_map (fun kv => match snd kv with
                        | Some v => [fst kv ++ "=" ++ v]
                        | None => []
                        end) l.
Proof.
  induction l as [|y rest IH]; [reflexivity|].
  cbn [Cache.insert_item fst]. destruct (String.ltb (fst y) k).
  - cbn [flat_map]. rewrite IH. reflexivity.
  - reflexivity.
Qed.

(** X21.  The cache key does not depend on how the call is written.  The
    order in which the keyword arguments are given does not matter (their
    names being distinct, as in every call), and a field passed as
    [None] is the same as a field left out. *)
Theorem cache_key_ignores_order_and_unset_fields :
  (forall kw kw',
     NoDup (map fst kw) -> Permutation kw kw' ->
     Cache._key kw = Cache._key kw')
  /\ (forall k kw, Cache._key ((k, None) :: kw) = Cache._key kw).
Proof.
  split.
  - intros kw kw' Hnd Hp. unfold Cache._key.
    rewrite (sorted_items_of_permutation kw kw' Hnd Hp). reflexivity.
  - intros k kw. unfold Cache._key. cbn [Cache.sorted_items].
    rewrite insert_unset_item. reflexivity.
Qed.

Lemma cache_key_ignores_order_and_unset_fields_witness :
  Cache._key [("service", Some "Amazon S3"); ("region", Some "us-east-1");
              ("currency", Some "USD"); ("storage_class", Some "Standard")]
  = Cache._key [("storage_class", Some "Standard"); ("currency", Some "USD");
                ("service", Some "Amazon S3"); ("region", Some "us-east-1")].
Proof.
  apply (proj1 cache_key_ignores_order_and_unset_fields).
  - repeat constructor; simpl; intuition discriminate.
  - apply perm_trans with
      [("storage_class", Some "Standard"); ("service", Some "Amazon S3");
       ("region", Some "us-east-1"); ("currency", Some "USD")].
    + apply Permutation_sym.
      change (Permutation
                ([("storage_class", Some "Standard")]
                 ++ [("service", Some "Amazon S3"); ("region", Some "us-east-1");
                     ("currency", Some "USD")])
                ([("service", Some "Amazon S3"); ("region", Some "us-east-1");
                  ("currency", Some "USD")]
                 ++ [("storage_class", Some "Standard")])).
      apply Permutation_app_comm.
    + apply perm_skip.
      apply perm_trans with
        [("service", Some "Amazon S3"); ("currency", Some "USD");
         ("region", Some "us-east-1")].
      * apply perm_skip, perm_swap.
      * apply perm_swap.
Defined.

Lemma cache_serves_what_was_set_witness :
  Cache.get (Cache.set (Cache.new (float_of_Z 86400)) (VStr "data")
               (float_of_Z 100) [("service", Some "AWS Backup")])
    (float_of_Z 86500) [("service", Some "AWS Backup")]
  = (Some (VStr "data", float_of_Z 100),
     Cache.set (Cache.new (float_of_Z 86400)) (VStr "data") (float_of_Z 100)
       [("service", Some "AWS Backup")]).
Proof.
  apply (proj1 (cache_serves_what_was_set value
                  (Cache.new (float_of_Z 86400)) (VStr "data")
                  (float_of_Z 100) (float_of_Z 86500)
                  [("service", Some "AWS Backup")] eq_refl)).
Defined.

Lemma cache_drops_expired_entry_witness :
  fst (Cache.get (Cache.set (Cache.new (float_of_Z 86400)) (VStr "data")
                    (float_of_Z 100) [("service", Some "AWS Backup")])
         (float_of_Z 86501) [("service", Some "AWS Backup")])
  = None.
Proof.
  apply (proj1 (cache_drops_expired_entry value
                  (Cache.set (Cache.new (float_of_Z 86400)) (VStr "data")
                     (float_of_Z 100) [("service", Some "AWS Backup")])
                  (VStr "data") (float_of_Z 100) (float_of_Z 86501)
                  [("service", Some "AWS Backup")] eq_refl eq_refl)).
Defined.

Lemma invalidate_removes_the_entry_witness :
  fst (Cache.invalidate
         (Cache.set (Cache.new (float_of_Z 86400)) (VStr "data")
            (float_of_Z 100) [("service", Some "AWS Backup")])
         [("service", Some "AWS Backup")]) = true.
Proof.
  apply (proj1 (invalidate_removes_the_entry value
                  (Cache.set (Cache.new (float_of_Z 86400)) (VStr "data")
                     (float_of_Z 100) [("service", Some "AWS Backup")])
                  [("service", Some "AWS Backup")])).
  discriminate.
Defined.

End CacheKeys.


(* ===================================================================== *)
(** ** The calculation endpoint *)
(* ===================================================================== *)

Section Calculation.

Import CostEngine Main.
Local Open Scope string_scope.

Lemma copy_multiplier_raises (n : Z) (e : exn) :
  copy_multiplier n = Raise e -> e = OverflowError.
Proof.
  unfold copy_multiplier, int_to_float.
  destruct (float_of_Z (Z.max 0 n)); simpl; intros H; inversion H; reflexivity.
Qed.

Lemma delta_pct_returns (cost reference : float) :
  exists pct, delta_pct cost reference = Ok pct.
Proof.
  unfold delta_pct, truediv. destruct (feq reference f0); eexists; reflexivity.
Qed.

Lemma field_outcome (key : string) (b : list (string * float)) :
  match field key b with
  | Returned _ => True
  | Raised _ => False
  | RaisedKeyError k => k = key
  end.
Proof.
  induction b as [|[k v] rest IH]; simpl; [reflexivity|].
  destruct (String.eqb k key); [exact I|exact IH].
Qed.

Lemma band_of_dict_outcome (b : list (string * float)) :
  match band_of_dict b with
  | Returned _ => complete_tier b = true
  | Raised _ => False
  | RaisedKeyError key =>
      In key ["from_gb"; "to_gb"; "rate_per_gb_month"]
      /\ complete_tier b = false
  end.
Proof.
  unfold complete_tier, band_of_dict.
  pose proof (field_outcome "from_gb" b) as H1.
  pose proof (field_outcome "to_gb" b) as H2.
  pose proof (field_outcome "rate_per_gb_month" b) as H3.
  destruct (field "from_gb" b); simpl; try contradiction.
  2:{ subst. split; [left; reflexivity|reflexivity]. }
  destruct (field "to_gb" b); simpl; try contradiction.
  2:{ subst. split; [right; left; reflexivity|reflexivity]. }
  destruct (field "rate_per_gb_month" b); simpl; try contradiction.
  - reflexivity.
  - subst. split; [right; right; left; reflexivity|reflexivity].
Qed.

Lemma bands_of_dicts_outcome (bs : list (list (string * float))) :
  match bands_of_dicts bs with
  | Returned _ => forallb complete_tier bs = true
  | Raised _ => False
  | RaisedKeyError key =>
      In key ["from_gb"; "to_gb"; "rate_per_gb_month"]
      /\ forallb complete_tier bs = false
  end.
Proof.
  induction bs as [|b rest IH]; simpl; [reflexivity|].
  pose proof (band_of_dict_outcome b) as Hb.
  destruct (band_of_dict b) as [band|e|key]; simpl; try contradiction.
  - rewrite Hb. simpl.
    destruct (bands_of_dicts rest) as [bands|e|key]; simpl; assumption.
  - destruct Hb as [Hin Hc]. rewrite Hc. split; [exact Hin|reflexivity].
Qed.

(** X22.  [post_calc] fails in two ways only.  It raises [OverflowError]
    exactly when the number of copy add-ons is too large to become a
    float; otherwise, when the request carries a non-empty tier list in
    which a tier lacks one of [from_gb], [to_gb], [rate_per_gb_month],
    it raises [KeyError] for one of these names; otherwise it returns,
    and the copy multiplier of the response is the one computed from the
    request.  The percentage delta never raises. *)
Theorem post_calc_fails_only_on_overflow_or_incomplete_tier (body : CalcInput) :
  match post_calc body with
  | Returned out =>
      copy_multiplier (num_copy_addons body)
      = Ok (awb_copy_multiplier (aws_backup out))
      /\ (forall b bs, s3_tiers body = Some (b :: bs) ->
            forallb complete_tier (b :: bs) = true)
  | Raised e =>
      e = OverflowError
      /\ copy_multiplier (num_copy_addons body) = Raise OverflowError
  | RaisedKeyError key =>
      In key ["from_gb"; "to_gb"; "rate_per_gb_month"]
      /\ (exists m, copy_multiplier (num_copy_addons body) = Ok m)
      /\ exists b bs, s3_tiers body = Some (b :: bs)
                      /\ forallb complete_tier (b :: bs) = false
  end.
Proof.
  unfold post_calc.
  destruct (copy_multiplier (num_copy_addons body)) as [m|e] eqn:Em;
    cbn [of_result obind].
  2:{ pose proof (copy_multiplier_raises _ _ Em). subst. split; reflexivity. }
  destruct (s3_tiers body) as [[|b bs]|] eqn:Et.
  - destruct (s3_flat_rate_per_gb_month body) as [rate|]; cbn [obind].
    + destruct (delta_pct_returns
                  (to_float (or_zero
                     (s3_versioning_total
                        (tb_to_gb (data_tb body) (tb_binary body))
                        (versioning_overhead_pct body)
                        [mkTierBand (float_of_Z 0) finf rate] m
                        (flat_addon_usd body))))
                  (to_float
                     match option_map
                             (fun rate0 =>
                                aws_backup_total
                                  (tb_to_gb (data_tb body) (tb_binary body))
                                  rate0 m (flat_addon_usd body))
                             (aws_backup_rate_per_gb_month body)
                     with
                     | Some t => NFloat t
                     | None => NInt 0
                     end)) as [pct Hp].
      rewrite Hp. cbn [of_result obind aws_backup awb_copy_multiplier].
      split; [reflexivity|discriminate].
    + cbn [of_result obind aws_backup awb_copy_multiplier].
      split; [reflexivity|discriminate].
  - pose proof (bands_of_dicts_outcome (b :: bs)) as Hb.
    destruct (bands_of_dicts (b :: bs)) as [bands|e|key]; cbn [obind];
      try contradiction.
    + destruct (sort_by_from_gb bands) as [|t ts] eqn:Es.
      * cbn [of_result obind aws_backup awb_copy_multiplier].
        split; [reflexivity|]. intros b' bs' H. inversion H; subst. exact Hb.
      * destruct (delta_pct_returns
                    (to_float (or_zero
                       (s3_versioning_total
                          (tb_to_gb (data_tb body) (tb_binary body))
                          (versioning_overhead_pct body) (t :: ts) m
                          (flat_addon_usd body))))
                    (to_float
                       match option_map
                               (fun rate0 =>
                                  aws_backup_total
                                    (tb_to_gb (data_tb body) (tb_binary body))
                                    rate0 m (flat_addon_usd body))
                               (aws_backup_rate_per_gb_month body)
                       with
                       | Some t => NFloat t
                       | None => NInt 0
                       end)) as [pct Hp].
        rewrite Hp. cbn [of_result obind aws_backup awb_copy_multiplier].
        split; [reflexivity|]. intros b' bs' H. inversion H; subst. exact Hb.
    + destruct Hb as [Hin Hc]. split; [exact Hin|].
      split; [exists m; reflexivity|]. exists b, bs. split; [reflexivity|exact Hc].
  - destruct (s3_flat_rate_per_gb_month body) as [rate|]; cbn [obind].
    + destruct (delta_pct_returns
                  (to_float (or_zero
                     (s3_versioning_total
                        (tb_to_gb (data_tb body) (tb_binary body))
                        (versioning_overhead_pct body)
                        [mkTierBand (float_of_Z 0) finf rate] m
                        (flat_addon_usd body))))
                  (to_float
                     match option_map
                             (fun rate0 =>
                                aws_backup_total
                                  (tb_to_gb (data_tb body) (tb_binary body))
                                  rate0 m (flat_addon_usd body))
                             (aws_backup_rate_per_gb_month body)
                     with
                     | Some t => NFloat t
                     | None => NInt 0
                     end)) as [pct Hp].
      rewrite Hp. cbn [of_result obind aws_backup awb_copy_multiplier].
      split; [reflexivity|discriminate].
    + cbn [of_result obind aws_backup awb_copy_multiplier].
      split; [reflexivity|discriminate].
Qed.

(** X23.  Without an AWS Backup rate the comparison is against zero.  When
    the request carries no AWS Backup rate, the response has no AWS
    Backup total; and if it has an S3 total [t], the delta in per cent
    is reported as exactly [0.0] (not as missing), and the delta in USD
    is [t] itself, or the integer [0] when [t] is zero. *)
Theorem calc_without_backup_rate_compares_against_zero
  (body : CalcInput) (out : CalcOutput) :
  aws_backup_rate_per_gb_month body = None ->
  post_calc body = Returned out ->
  awb_total_usd (aws_backup out) = None
  /\ aws_backup_total_usd (deltas_vs_aws_backup out) = None
  /\ forall t,
       s3_total_usd (s3_versioning out) = Some t ->
       s3_delta_pct (deltas_vs_aws_backup out) = Some f0
       /\ s3_delta_usd (deltas_vs_aws_backup out) = Some (or_zero t).
Proof.
  intros Hrate H. unfold post_calc in H. rewrite Hrate in H.
  cbn [option_map] in H.
  destruct (copy_multiplier (num_copy_addons body)) as [m|e];
    cbn [of_result obind] in H; [|discriminate].
  destruct (match s3_tiers body with
            | Some (b :: bs) => _
            | _ => _
            end) as [[tiers base]|e|k]; cbn [obind] in H; try discriminate.
  destruct tiers as [|band rest].
  - cbn [obind] in H. inversion H; subst.
    cbn [aws_backup awb_total_usd deltas_vs_aws_backup aws_backup_total_usd
         s3_versioning s3_total_usd].
    split; [reflexivity|]. split; [reflexivity|].
    intros t Ht. discriminate Ht.
  - unfold delta_pct in H.
    change (feq (to_float (NInt 0)) f0) with true in H.
    cbn [of_result obind] in H. inversion H; subst.
    cbn [aws_backup awb_total_usd deltas_vs_aws_backup aws_backup_total_usd
         s3_versioning s3_total_usd s3_delta_pct s3_delta_usd option_map].
    split; [reflexivity|]. split; [reflexivity|].
    intros t Ht. inversion Ht; subst. split; [reflexivity|].
    unfold or_zero, delta_usd_of.
    destruct (fne _ f0); [|reflexivity].
    unfold delta_usd. cbn [to_float].
    change (float_of_Z 0) with f0. rewrite fsub_f0_r. reflexivity.
Qed.

(** The cost of one open-ended band from zero is the flat cost, or
    [0.0] where the flat cost is a zero. *)
Lemma single_band_cost_cases (v rate : float) :
  fle f0 v = true ->
  is_nan (fmul v rate) = false ->
  cost_from_tiers v [mkTierBand f0 finf rate] = fmul v rate
  \/ (cost_from_tiers v [mkTierBand f0 finf rate] = f0
      /\ exists s, fmul v rate = S754_zero s).
Proof.
  intros Hv Hnan. unfold cost_from_tiers. cbn [for_loop]. unfold tier_body.
  cbn [remaining total to_gb from_gb rate_per_gb_month].
  destruct (fle v f0) eqn:Hle.
  - right. split; [reflexivity|].
    destruct v as [s|s| |s m e]; try discriminate;
      try (destruct s; discriminate).
    destruct rate as [sr|sr| |sr mr er]; try discriminate;
      eexists; reflexivity.
  - replace (fne finf finf) with false by reflexivity.
    rewrite py_min_same. unfold fgt.
    assert (Hpos : flt f0 v = true).
    { destruct v as [s|s| |s m e]; try discriminate;
        destruct s; try discriminate; reflexivity. }
    rewrite Hpos. cbn [total]. rewrite fadd_f0_l.
    destruct (fmul v rate) as [s|s| |s m e] eqn:E.
    + right. split; [reflexivity|]. exists s. reflexivity.
    + left. reflexivity.
    + left. reflexivity.
    + left. reflexivity.
Qed.

Lemma zero_cost_total (s : bool) (c a : float) :
  is_nan (fadd (fmul f0 c) a) = false ->
  feq (fadd (fmul f0 c) a) (fadd (fmul (S754_zero s) c) a) = true.
Proof.
  destruct c as [sc|sc| |sc mc ec]; simpl; try discriminate;
    destruct a as [sa|sa| |sa ma ea]; simpl; try discriminate; intros _;
    destruct s, sc; simpl; try reflexivity;
    try (destruct sa; reflexivity);
    apply feq_refl; reflexivity.
Qed.

(** X24.  With a flat S3 rate the total is the base cost times the copy
    multiplier plus the flat add-on.  The endpoint computes the base
    cost as [versioned_gb * rate] and the total through
    [cost_from_tiers] on one open-ended band; for a versioned volume
    that is not negative and a flat cost that is a number, the total it
    reports equals [base_cost * copy_multiplier + flat_addon] whenever
    it is a number. *)
Theorem calc_flat_rate_total_matches_base_cost
  (body : CalcInput) (out : CalcOutput) (rate : float) :
  s3_tiers body = None \/ s3_tiers body = Some [] ->
  s3_flat_rate_per_gb_month body = Some rate ->
  post_calc body = Returned out ->
  fle f0 (out_versioned_gb out) = true ->
  is_nan (fmul (out_versioned_gb out) rate) = false ->
  exists total,
    s3_base_cost_usd (s3_versioning out) = Some (fmul (out_versioned_gb out) rate)
    /\ s3_total_usd (s3_versioning out) = Some total
    /\ (is_nan total = false ->
        feq total
          (fadd (fmul (fmul (out_versioned_gb out) rate)
                   (s3_copy_multiplier (s3_versioning out)))
             (flat_addon_usd body)) = true).
Proof.
  intros Ht Hrate H Hv Hnan. unfold post_calc in H.
  destruct (copy_multiplier (num_copy_addons body)) as [m|e];
    cbn [of_result obind] in H; [|discriminate].
  assert (Hsel : match s3_tiers body with
                 | Some (b :: bs) =>
                     obind (bands_of_dicts (b :: bs))
                       (fun bands =>
                          Returned (sort_by_from_gb bands,
                                    Some (cost_from_tiers
                                            (versioned_gb
                                               (tb_to_gb (data_tb body)
                                                  (tb_binary body))
                                               (versioning_overhead_pct body))
                                            (sort_by_from_gb bands))))
                 | _ =>
                     match s3_flat_rate_per_gb_month body with
                     | Some rate0 =>
                         Returned ([mkTierBand (float_of_Z 0) finf rate0],
                                   Some (cost_from_flat_rate
                                           (versioned_gb
                                              (tb_to_gb (data_tb body)
                                                 (tb_binary body))
                                              (versioning_overhead_pct body))
                                           rate0))
                     | None => Returned ([], None)
                     end
                 end
                 = Returned ([mkTierBand f0 finf rate],
                             Some (cost_from_flat_rate
                                     (versioned_gb
                                        (tb_to_gb (data_tb body) (tb_binary body))
                                        (versioning_overhead_pct body))
                                     rate))).
  { rewrite Hrate. destruct Ht as [Ht|Ht]; rewrite Ht; reflexivity. }
  rewrite Hsel in H. cbn [obind] in H.
  destruct (delta_pct _ _) as [pct|e]; cbn [of_result obind] in H;
    [|discriminate].
  inversion H; subst. clear H.
  cbn [out_versioned_gb s3_versioning s3_base_cost_usd s3_total_usd
       s3_copy_multiplier] in *.
  set (v := versioned_gb (tb_to_gb (data_tb body) (tb_binary body))
              (versioning_overhead_pct body)) in *.
  eexists. split; [reflexivity|]. split; [reflexivity|].
  unfold s3_versioning_total. fold v.
  destruct (single_band_cost_cases v rate Hv Hnan) as [E|[E [s Es]]];
    rewrite E.
  - intros Hn. apply feq_refl, Hn.
  - rewrite Es. apply zero_cost_total.
Qed.

End Calculation.

Section CalculationExamples.

Import CostEngine Main MoreExamples.
Local Open Scope string_scope.

Lemma post_calc_fails_only_on_overflow_or_incomplete_tier_witness :
  In "rate_per_gb_month" ["from_gb"; "to_gb"; "rate_per_gb_month"]
  /\ (exists m, copy_multiplier (num_copy_addons incomplete_request) = Ok m)
  /\ exists b bs, s3_tiers incomplete_request = Some (b :: bs)
                  /\ forallb complete_tier (b :: bs) = false.
Proof.
  exact (post_calc_fails_only_on_overflow_or_incomplete_tier incomplete_request).
Defined.

Lemma calc_without_backup_rate_compares_against_zero_witness :
  s3_delta_pct (deltas_vs_aws_backup flat_response) = Some f0
  /\ s3_delta_usd (deltas_vs_aws_backup flat_response)
     = Some (or_zero (fadd (fmul (fmul (fmul (fmul (float_of_Z 10)
                                                 (float_of_Z 1024))
                                           (fadd (float_of_Z 1) (dec 25 2)))
                                     (dec 23 3))
                               (float_of_Z 2))
                        (float_of_Z 5))).
Proof.
  apply (proj2 (proj2 (calc_without_backup_rate_compares_against_zero
                         flat_request flat_response eq_refl eq_refl))).
  vm_compute. reflexivity.
Defined.

Lemma calc_flat_rate_total_matches_base_cost_witness :
  exists total,
    s3_base_cost_usd (s3_versioning flat_response)
    = Some (fmul (out_versioned_gb flat_response) (dec 23 3))
    /\ s3_total_usd (s3_versioning flat_response) = Some total
    /\ (is_nan total = false ->
        feq total
          (fadd (fmul (fmul (out_versioned_gb flat_response) (dec 23 3))
                   (s3_copy_multiplier (s3_versioning flat_response)))
             (flat_addon_usd flat_request)) = true).
Proof.
  apply (calc_flat_rate_total_matches_base_cost flat_request flat_response
           (dec 23 3)).
  - left. reflexivity.
  - reflexivity.
  - vm_compute. reflexivity.
  - vm_compute. reflexivity.
  - vm_compute. reflexivity.
Defined.

End CalculationExamples.


(* ===================================================================== *)
(** ** The pricing endpoints and their cache *)
(* ===================================================================== *)

Section Endpoints.

Import Pricing Spec Guarantees RegionMapping Main EndpointSpec.
Local Open Scope string_scope.

Variable env : Env.

Lemma lookup_dict_set_same (key : string) (v : value) (d : list (string * value)) :
  lookup key (dict_set key v d) = Some v.
Proof.
  induction d as [|[k x] rest IH]; simpl.
  - rewrite String.eqb_refl. reflexivity.
  - destruct (String.eqb k key) eqn:E; simpl; rewrite E; [reflexivity|exact IH].
Qed.

Lemma lookup_dict_set_other (key key' : string) (v : value)
  (d : list (string * value)) :
  String.eqb key key' = false ->
  lookup key' (dict_set key v d) = lookup key' d.
Proof.
  intros Hne. induction d as [|[k x] rest IH]; simpl.
  - rewrite Hne. reflexivity.
  - destruct (String.eqb k key) eqn:E; simpl.
    + apply String.eqb_eq in E. subst k. rewrite Hne. reflexivity.
    + destruct (String.eqb k key'); [reflexivity|exact IH].
Qed.

Lemma get_miss_leaves_no_entry (c c' : Cache.TTLCache value) (t : float)
  (kw : Cache.kwargs) :
  Cache.get c t kw = (None, c') ->
  Cache.store_get (Cache._key kw) (Cache._store c') = None
  /\ Cache._ttl c' = Cache._ttl c.
Proof.
  unfold Cache.get.
  destruct (Cache.store_get (Cache._key kw) (Cache._store c)) as [[v at_]|] eqn:E.
  - destruct (fgt (fsub t at_) (Cache._ttl c)); intros H; inversion H; subst.
    cbn [Cache._store Cache._ttl]. split; [apply store_get_del_same|reflexivity].
  - intros H. inversion H; subst. split; [exact E|reflexivity].
Qed.

Lemma lookup_cached_miss (cache cache2 : Cache.TTLCache value) (refresh : bool)
  (now : clock) (kw : Cache.kwargs) :
  lookup_cached cache refresh now kw = (None, cache2) ->
  Cache.store_get (Cache._key kw) (Cache._store cache2) = None
  /\ Cache._ttl cache2 = Cache._ttl cache.
Proof.
  unfold lookup_cached. intros H.
  apply get_miss_leaves_no_entry in H as [H1 H2]. split; [exact H1|].
  rewrite H2. destruct refresh; [|reflexivity].
  unfold Cache.invalidate.
  destruct (Cache.store_get (Cache._key kw) (Cache._store cache)); reflexivity.
Qed.

Lemma lookup_cached_refresh (cache : Cache.TTLCache value) (now : clock)
  (kw : Cache.kwargs) :
  fst (lookup_cached cache true now kw) = None.
Proof.
  unfold lookup_cached, Cache.invalidate, Cache.get.
  destruct (Cache.store_get (Cache._key kw) (Cache._store cache)) as [x|] eqn:E;
    cbn [snd Cache._store].
  - rewrite store_get_del_same. reflexivity.
  - rewrite E. reflexivity.
Qed.

Lemma get_after_set (c : Cache.TTLCache value) (data : value) (t0 t1 : float)
  (kw : Cache.kwargs) :
  fgt (fsub t1 t0) (Cache._ttl c) = false ->
  Cache.get (Cache.set c data t0 kw) t1 kw
  = (Some (data, t0), Cache.set c data t0 kw).
Proof.
  intros Hfresh. unfold Cache.get, Cache.set. cbn [Cache._store Cache._ttl].
  rewrite store_get_set_same, Hfresh. reflexivity.
Qed.

Lemma fresh_response (data : list (string * value)) (at_ : float) :
  lookup "from_cache" (dict_set "from_cache" (VBool false)
                         (dict_set "cached_at" (VFloat at_) data))
  = Some (VBool false).
Proof. apply lookup_dict_set_same. Qed.

Lemma cached_response_not_fresh (data : value) (at_ : float) :
  ~ fresh (with_cache_info data at_ true).
Proof.
  intros [d [H Hl]]. destruct data; try discriminate H.
  inversion H; subst. rewrite lookup_dict_set_same in Hl. discriminate Hl.
Qed.

(** What a request that misses the cache comes to: the resolver's
    exception, an error body, or a fresh response whose data is stored. *)
Lemma backup_request_miss region currency refresh now cache cache2 l :
  lookup_cached cache refresh now (backup_kwargs region currency)
  = (None, cache2) ->
  match PricingResolver.resolve_aws_backup_storage env region currency None l with
  | (Raise e, l') =>
      get_aws_backup_pricing env region currency refresh now cache l
      = (Raised e, cache2, l')
  | (Ok result, l') =>
      get_aws_backup_pricing env region currency refresh now cache l
      = if negb (no_error result)
        then (Returned (backup_error_body result), cache2, l')
        else (with_cache_info (backup_data result) (t_resp now) false,
              Cache.set cache2 (backup_data result) (t_set now)
                (backup_kwargs region currency), l')
  end.
Proof.
  intros H. unfold get_aws_backup_pricing. rewrite H.
  destruct (PricingResolver.resolve_aws_backup_storage env region currency None l)
    as [[result|e] l']; reflexivity.
Qed.

Lemma s3_request_miss region currency storageClass refresh now cache cache2 l :
  lookup_cached cache refresh now (s3_kwargs region currency storageClass)
  = (None, cache2) ->
  match PricingResolver.resolve_s3_storage env region storageClass currency
          None l with
  | (Raise e, l') =>
      get_s3_storage_pricing env region currency storageClass refresh now cache l
      = (Raised e, cache2, l')
  | (Ok result, l') =>
      get_s3_storage_pricing env region currency storageClass refresh now cache l
      = if negb (no_error result)
        then (Returned (s3_error_body result), cache2, l')
        else
          match tiers_json (tiers result) with
          | Returned bands =>
              (with_cache_info (s3_data result bands) (t_resp now) false,
               Cache.set cache2 (s3_data result bands) (t_set now)
                 (s3_kwargs region currency storageClass), l')
          | Raised e => (Raised e, cache2, l')
          | RaisedKeyError key => (RaisedKeyError key, cache2, l')
          end
  end.
Proof.
  intros H. unfold get_s3_storage_pricing. rewrite H.
  destruct (PricingResolver.resolve_s3_storage env region storageClass currency
              None l) as [[result|e] l']; reflexivity.
Qed.

Lemma not_fresh_raised (e : exn) : ~ fresh (Raised e).
Proof. intros [d [H _]]. discriminate H. Qed.

Lemma not_fresh_key_error (key : string) : ~ fresh (RaisedKeyError key).
Proof. intros [d [H _]]. discriminate H. Qed.

Lemma not_fresh_backup_error (result : PricingResult) :
  ~ fresh (Returned (backup_error_body result)).
Proof. intros [d [H Hl]]. inversion H; subst. discriminate Hl. Qed.

Lemma not_fresh_s3_error (result : PricingResult) :
  ~ fresh (Returned (s3_error_body result)).
Proof. intros [d [H Hl]]. inversion H; subst. discriminate Hl. Qed.

(** X25.  What was resolved is then served from the cache.  If a request to
    either pricing endpoint is answered with a fresh response (resolved
    in this request, [from_cache] false), then the same request made
    again without [refresh], at a time that is not more than the TTL
    after the result was stored, is answered with the same data, marked
    [from_cache] true and stamped with the time of storing; it makes no
    call at all and leaves the cache as it is. *)
Theorem resolved_pricing_is_then_served_from_cache
  (region currency storageClass : string) (refresh : bool) (now1 now2 : clock)
  (cache cache1 : Cache.TTLCache value) (l l' l2 : log) (out : outcome value) :
  fgt (fsub (t_get now2) (t_set now1)) (Cache._ttl cache) = false ->
  fresh out ->
  (get_aws_backup_pricing env region currency refresh now1 cache l
   = (out, cache1, l') ->
   exists data,
     out = Returned (response data (t_resp now1) false)
     /\ get_aws_backup_pricing env region currency false now2 cache1 l2
        = (Returned (response data (t_set now1) true), cache1, l2))
  /\ (get_s3_storage_pricing env region currency storageClass refresh now1
        cache l = (out, cache1, l') ->
      exists data,
        out = Returned (response data (t_resp now1) false)
        /\ get_s3_storage_pricing env region currency storageClass false now2
             cache1 l2
           = (Returned (response data (t_set now1) true), cache1, l2)).
Proof.
  intros Httl Hfresh. split; intros H.
  - destruct (lookup_cached cache refresh now1 (backup_kwargs region currency))
      as [[[data at_]|] cache2] eqn:Elc.
    + unfold get_aws_backup_pricing in H. rewrite Elc in H.
      inversion H; subst. exfalso.
      apply (cached_response_not_fresh _ _ Hfresh).
    + pose proof (backup_request_miss region currency refresh now1 cache cache2 l
                    Elc) as Hm.
      destruct (lookup_cached_miss _ _ _ _ _ Elc) as [_ Ht].
      destruct (PricingResolver.resolve_aws_backup_storage env region currency
                  None l) as [[result|e] l1].
      * rewrite Hm in H. destruct (negb (no_error result)).
        -- inversion H; subst. exfalso.
           apply (not_fresh_backup_error _ Hfresh).
        -- inversion H; subst.
           exists (match backup_data result with VDict d => d | _ => [] end).
           split; [reflexivity|].
           unfold get_aws_backup_pricing, lookup_cached.
           rewrite get_after_set by (rewrite Ht; exact Httl). reflexivity.
      * rewrite Hm in H. inversion H; subst. exfalso.
        apply (not_fresh_raised _ Hfresh).
  - destruct (lookup_cached cache refresh now1
                (s3_kwargs region currency storageClass))
      as [[[data at_]|] cache2] eqn:Elc.
    + unfold get_s3_storage_pricing in H. rewrite Elc in H.
      inversion H; subst. exfalso.
      apply (cached_response_not_fresh _ _ Hfresh).
    + pose proof (s3_request_miss region currency storageClass refresh now1
                    cache cache2 l Elc) as Hm.
      destruct (lookup_cached_miss _ _ _ _ _ Elc) as [_ Ht].
      destruct (PricingResolver.resolve_s3_storage env region storageClass
                  currency None l) as [[result|e] l1].
      * rewrite Hm in H. destruct (negb (no_error result)).
        -- inversion H; subst. exfalso. apply (not_fresh_s3_error _ Hfresh).
        -- destruct (tiers_json (tiers result)) as [bands|e|key].
           ++ inversion H; subst.
              exists (match s3_data result bands with
                      | VDict d => d
                      | _ => []
                      end).
              split; [reflexivity|].
              unfold get_s3_storage_pricing, lookup_cached.
              rewrite get_after_set by (rewrite Ht; exact Httl). reflexivity.
           ++ inversion H; subst. exfalso. apply (not_fresh_raised _ Hfresh).
           ++ inversion H; subst. exfalso.
              apply (not_fresh_key_error _ Hfresh).
      * rewrite Hm in H. inversion H; subst. exfalso.
        apply (not_fresh_raised _ Hfresh).
Qed.

(** X26.  Only what was resolved is cached, and [refresh] always resolves.
    With [refresh] the lookup always misses.  On a miss the calls that a
    pricing endpoint makes are exactly those of its resolver operation,
    and afterwards the cache holds an entry under the request's key if
    and only if the response is fresh: an error body or an exception
    leaves nothing cached, so the next request resolves again. *)
Theorem only_resolved_pricing_is_cached
  (region currency storageClass : string) (refresh : bool) (now : clock)
  (cache cache1 : Cache.TTLCache value) (l l' : log) (out : outcome value) :
  (forall kw, fst (lookup_cached cache true now kw) = None)
  /\ (fst (lookup_cached cache refresh now (backup_kwargs region currency))
      = None ->
      get_aws_backup_pricing env region currency refresh now cache l
      = (out, cache1, l') ->
      l' = snd (PricingResolver.resolve_aws_backup_storage env region currency
                  None l)
      /\ (cached_under (backup_kwargs region currency) cache1 <-> fresh out))
  /\ (fst (lookup_cached cache refresh now
             (s3_kwargs region currency storageClass)) = None ->
      get_s3_storage_pricing env region currency storageClass refresh now
        cache l = (out, cache1, l') ->
      l' = snd (PricingResolver.resolve_s3_storage env region storageClass
                  currency None l)
      /\ (cached_under (s3_kwargs region currency storageClass) cache1
          <-> fresh out)).
Proof.
  assert (Hno : forall kw (c : Cache.TTLCache value) o,
            Cache.store_get (Cache._key kw) (Cache._store c) = None ->
            ~ fresh o -> (cached_under kw c <-> fresh o)).
  { intros kw c o Hn Hf. unfold cached_under. split; intros H.
    - exfalso. apply H, Hn.
    - exfalso. apply Hf, H. }
  assert (Hyes : forall kw (c : Cache.TTLCache value) data t t',
            cached_under kw (Cache.set c (VDict data) t kw)
            <-> fresh (with_cache_info (VDict data) t' false)).
  { intros kw c data t t'. unfold cached_under, Cache.set.
    cbn [Cache._store]. rewrite store_get_set_same. split; intros _.
    - eexists. split; [reflexivity|]. apply lookup_dict_set_same.
    - discriminate. }
  split; [intros kw; apply lookup_cached_refresh|]. split; intros Hmiss H.
  - destruct (lookup_cached cache refresh now (backup_kwargs region currency))
      as [hit cache2] eqn:Elc. cbn [fst] in Hmiss. subst hit.
    pose proof (backup_request_miss region currency refresh now cache cache2 l
                  Elc) as Hm.
    destruct (lookup_cached_miss _ _ _ _ _ Elc) as [Hn _].
    destruct (PricingResolver.resolve_aws_backup_storage env region currency
                None l) as [[result|e] l1]; rewrite Hm in H.
    + destruct (negb (no_error result)); injection H as <- <- <-;
        (split; [reflexivity|]).
      * apply Hno; [exact Hn|apply not_fresh_backup_error].
      * apply (Hyes _ _ (match backup_data result with
                         | VDict d => d
                         | _ => []
                         end)).
    + injection H as <- <- <-. split; [reflexivity|].
      apply Hno; [exact Hn|apply not_fresh_raised].
  - destruct (lookup_cached cache refresh now
                (s3_kwargs region currency storageClass))
      as [hit cache2] eqn:Elc. cbn [fst] in Hmiss. subst hit.
    pose proof (s3_request_miss region currency storageClass refresh now cache
                  cache2 l Elc) as Hm.
    destruct (lookup_cached_miss _ _ _ _ _ Elc) as [Hn _].
    destruct (PricingResolver.resolve_s3_storage env region storageClass
                currency None l) as [[result|e] l1]; rewrite Hm in H.
    + destruct (negb (no_error result)).
      * injection H as <- <- <-. split; [reflexivity|].
        apply Hno; [exact Hn|apply not_fresh_s3_error].
      * destruct (tiers_json (tiers result)) as [bands|e|key];
          injection H as <- <- <-; (split; [reflexivity|]).
        -- apply (Hyes _ _ (match s3_data result bands with
                            | VDict d => d
                            | _ => []
                            end)).
        -- apply Hno; [exact Hn|apply not_fresh_raised].
        -- apply Hno; [exact Hn|apply not_fresh_key_error].
    + injection H as <- <- <-. split; [reflexivity|].
      apply Hno; [exact Hn|apply not_fresh_raised].
Qed.

Lemma collapse_bands (ts : list triple) (r : PricingResult) :
  (rate_per_gb_month r, tiers r) = collapse ts ->
  exists ts', tiers r = map band_of_triple ts'.
Proof.
  unfold collapse.
  destruct ts as [|t [|t' rest]]; [|destruct (unbounded t)|];
    intros H; apply (f_equal snd) in H; cbn [snd] in H;
    [exists (sort_by_start [])|exists []|exists (sort_by_start [t])
    |exists (sort_by_start (t :: t' :: rest))]; exact H.
Qed.

Lemma resolver_s3_tiers_are_bands region_code storage_class currency client :
  returns (PricingResolver.resolve_s3_storage env region_code storage_class
             currency client)
    (fun r => exists ts, tiers r = map band_of_triple ts).
Proof.
  unfold PricingResolver.resolve_s3_storage.
  assert (Hnone : forall r : PricingResult,
            tiers r = [] -> exists ts, tiers r = map band_of_triple ts)
    by (intros r Hr; exists []; exact Hr).
  destruct (get_location_for_region region_code) as [location|];
    [|apply returns_ret, Hnone; reflexivity].
  destruct (negb (str_truthy location));
    [apply returns_ret, Hnone; reflexivity|].
  eapply returns_bind.
  { intros l r l' H.
    destruct (public_s3_cases env _ _ _ _ _ _ H)
      as [[_ [_ Ht]]|[loc [data [url [_ [_ Hscan]]]]]].
    - apply Hnone, Ht.
    - destruct (s3_scan_collapse env _ _ _ _ _ _ Hscan)
        as [ts [_ [[_ [_ [_ Ht]]]|[_ [_ Hc]]]]].
      + apply Hnone, Ht.
      + exact (collapse_bands ts r Hc). }
  intros pub Hpub. cbv beta in Hpub.
  destruct (no_error pub && _).
  - apply returns_ret. exact Hpub.
  - apply returns_bind_any. intros [c| |e].
    + apply returns_bind_any. intros [products| |e|e].
      * apply returns_lift. intros r Hscan.
        destruct (api_s3_scan_collapse env _ _ _ _ _ Hscan)
          as [ts [_ [[_ [_ [_ Ht]]]|[_ [_ Hc]]]]].
        -- apply Hnone, Ht.
        -- exact (collapse_bands ts r Hc).
      * apply returns_ret, Hnone. reflexivity.
      * apply returns_ret, Hnone. reflexivity.
      * apply returns_ret, Hnone. reflexivity.
    + apply returns_ret, Hnone. reflexivity.
    + apply returns_ret, Hnone. reflexivity.
Qed.

Lemma tiers_json_bands (ts : list triple) :
  tiers_json (map band_of_triple ts) = Returned (map sealed_band ts).
Proof.
  induction ts as [|[[s e] r] rest IH]; [reflexivity|].
  cbn [map tiers_json]. rewrite IH.
  unfold tier_json, band_of_triple, _build_tier_band, sealed_band, sealed_end.
  cbn [subscript lookup String.eqb Ascii.eqb Bool.eqb obind beyond_threshold
       of_result start_of end_of rate_of fst snd].
  destruct (feq e finf || fgt e SENTINEL_THRESHOLD); reflexivity.
Qed.

Lemma sealed_end_is_finite_or_nan (e : float) : feq (sealed_end e) finf = false.
Proof.
  unfold sealed_end. destruct (feq e finf) eqn:E; cbn [orb].
  - vm_compute. reflexivity.
  - destruct (fgt e SENTINEL_THRESHOLD); [vm_compute; reflexivity|exact E].
Qed.

(** X27.  The S3 endpoint never answers with an infinite bound, and its tier
    loop never fails.  On a miss, whatever [resolve_s3_storage] returns,
    the loop that prepares the tiers for JSON raises nothing (the
    endpoint raises only what the resolver raises, and no [KeyError]);
    a fresh response carries the resolver's bands in the same order with
    start and rate unchanged, and with the end replaced by the sentinel
    [1e40] where it is infinite or above [1e35] and kept otherwise, so
    that no end in the response equals infinity. *)
Theorem s3_endpoint_seals_open_ended_tiers
  (region currency storageClass : string) (refresh : bool) (now : clock)
  (cache cache1 : Cache.TTLCache value) (l l' : log) (out : outcome value) :
  fst (lookup_cached cache refresh now (s3_kwargs region currency storageClass))
  = None ->
  get_s3_storage_pricing env region currency storageClass refresh now cache l
  = (out, cache1, l') ->
  (forall key, out <> RaisedKeyError key)
  /\ (forall e, out = Raised e ->
        fst (PricingResolver.resolve_s3_storage env region storageClass
               currency None l) = Raise e)
  /\ (fresh out ->
      exists result ts d,
        fst (PricingResolver.resolve_s3_storage env region storageClass
               currency None l) = Ok result
        /\ tiers result = map band_of_triple ts
        /\ out = Returned (VDict d)
        /\ lookup "tiers" d = Some (VList (map sealed_band ts))
        /\ Forall (fun t => feq (sealed_end (end_of t)) finf = false
                            /\ (feq (end_of t) finf
                                || fgt (end_of t) SENTINEL_THRESHOLD = false ->
                                sealed_end (end_of t) = end_of t)) ts).
Proof.
  intros Hmiss H.
  destruct (lookup_cached cache refresh now
              (s3_kwargs region currency storageClass))
    as [hit cache2] eqn:Elc. cbn [fst] in Hmiss. subst hit.
  pose proof (s3_request_miss region currency storageClass refresh now cache
                cache2 l Elc) as Hm.
  destruct (PricingResolver.resolve_s3_storage env region storageClass
              currency None l) as [[result|e] l1] eqn:Er; rewrite Hm in H.
  2:{ injection H as <- <- <-. split; [discriminate|].
      split; [intros e' He'; inversion He'; reflexivity|].
      intros Hf. exfalso. apply (not_fresh_raised _ Hf). }
  destruct (negb (no_error result)).
  { injection H as <- <- <-. split; [discriminate|].
    split; [discriminate|].
    intros Hf. exfalso. apply (not_fresh_s3_error _ Hf). }
  destruct (resolver_s3_tiers_are_bands _ _ _ _ _ _ _ Er) as [ts Hts].
  rewrite Hts, tiers_json_bands in H. injection H as <- <- <-.
  split; [discriminate|]. split; [discriminate|].
  intros _. exists result, ts. eexists.
  split; [reflexivity|]. split; [exact Hts|]. split; [reflexivity|].
  split; [reflexivity|].
  apply Forall_forall. intros t _. split.
  - apply sealed_end_is_finite_or_nan.
  - intros Hc. unfold sealed_end. rewrite Hc. reflexivity.
Qed.

End Endpoints.

Section EndpointExamples.

Import Pricing Spec Guarantees RegionMapping Main EndpointSpec Examples
  MoreExamples.
Local Open Scope string_scope.

Lemma resolved_pricing_is_then_served_from_cache_witness :
  exists data,
    fst (fst first_s3_request)
    = Returned (response data (t_resp sample_clock) false)
    /\ get_s3_storage_pricing online_env "us-east-1" "USD" "Standard" false
         later_clock (snd (fst first_s3_request)) []
       = (Returned (response data (t_set sample_clock) true),
          snd (fst first_s3_request), []).
Proof.
  apply (proj2 (resolved_pricing_is_then_served_from_cache online_env
                  "us-east-1" "USD" "Standard" false sample_clock later_clock
                  empty_cache (snd (fst first_s3_request)) []
                  (snd first_s3_request) [] (fst (fst first_s3_request))
                  ltac:(vm_compute; reflexivity)
                  ltac:(eexists; split; vm_compute; reflexivity))).
  vm_compute. reflexivity.
Defined.

Lemma only_resolved_pricing_is_cached_witness :
  snd offline_s3_request
  = snd (PricingResolver.resolve_s3_storage offline_env "us-east-1" "Standard"
           "USD" None [])
  /\ (cached_under (s3_kwargs "us-east-1" "USD" "Standard")
        (snd (fst offline_s3_request))
      <-> fresh (fst (fst offline_s3_request))).
Proof.
  apply (proj2 (proj2 (only_resolved_pricing_is_cached offline_env "us-east-1"
                         "USD" "Standard" true sample_clock empty_cache
                         (snd (fst offline_s3_request)) []
                         (snd offline_s3_request)
                         (fst (fst offline_s3_request))))).
  - vm_compute. reflexivity.
  - vm_compute. reflexivity.
Defined.

Lemma s3_endpoint_seals_open_ended_tiers_witness :
  exists result ts d,
    fst (PricingResolver.resolve_s3_storage online_env "us-east-1" "Standard"
           "USD" None []) = Ok result
    /\ tiers result = map band_of_triple ts
    /\ fst (fst first_s3_request) = Returned (VDict d)
    /\ lookup "tiers" d = Some (VList (map sealed_band ts))
    /\ Forall (fun t => feq (sealed_end (end_of t)) finf = false
                        /\ (feq (end_of t) finf
                            || fgt (end_of t) SENTINEL_THRESHOLD = false ->
                            sealed_end (end_of t) = end_of t)) ts.
Proof.
  apply (proj2 (proj2 (s3_endpoint_seals_open_ended_tiers online_env
                         "us-east-1" "USD" "Standard" false sample_clock
                         empty_cache (snd (fst first_s3_request)) []
                         (snd first_s3_request) (fst (fst first_s3_request))
                         ltac:(vm_compute; reflexivity)
                         ltac:(vm_compute; reflexivity)))).
  eexists. split; vm_compute; reflexivity.
Defined.

End EndpointExamples.


(* ===================================================================== *)
(** ** Sessions and turns *)
(* ===================================================================== *)

Section Sessions.

Import Conversation.
Local Open Scope string_scope.

Lemma sessions_get_set_same (k : string) (s : Session) (d : sessions) :
  sessions_get k (sessions_set k s d) = Some s.
Proof.
  induction d as [|[k' s'] rest IH]; simpl.
  - rewrite String.eqb_refl. reflexivity.
  - destruct (String.eqb k' k) eqn:E; simpl; rewrite E; [reflexivity|exact IH].
Qed.

Lemma sessions_get_set_other (k k' : string) (s : Session) (d : sessions) :
  k' <> k -> sessions_get k' (sessions_set k s d) = sessions_get k' d.
Proof.
  intros Hne. induction d as [|[k0 s0] rest IH]; simpl.
  - destruct (String.eqb k k') eqn:E; [|reflexivity].
    apply String.eqb_eq in E. congruence.
  - destruct (String.eqb k0 k) eqn:E; simpl.
    + apply String.eqb_eq in E. subst k0.
      destruct (String.eqb k k') eqn:E'; [|reflexivity].
      apply String.eqb_eq in E'. congruence.
    + destruct (String.eqb k0 k'); [reflexivity|exact IH].
Qed.

(** X28.  What [create_or_update_session] leaves in the store.  The session
    it returns has the requested mode and is the one that
    [get_session] then finds under the id used (the given id when it is
    a non-empty text, a fresh UUID otherwise).  If a session was stored
    under a given id its messages and its own id are kept and only its
    mode changes; otherwise the session is new, carries the id used and
    has no messages.  Sessions under every other id are untouched. *)
Theorem session_store_keeps_what_it_holds
  (given : option string) (wanted uuid4 : string) (store : sessions) :
  let used := match given with
              | Some sid => if str_truthy sid then sid else uuid4
              | None => uuid4
              end in
  let s := fst (create_or_update_session given wanted uuid4 store) in
  let store' := snd (create_or_update_session given wanted uuid4 store) in
  mode s = wanted
  /\ get_session used store' = Some s
  /\ (forall sid old,
        given = Some sid -> str_truthy sid = true ->
        get_session sid store = Some old ->
        messages s = messages old /\ session_id s = session_id old)
  /\ ((given = None \/ given = Some "" \/ get_session used store = None) ->
      messages s = [] /\ session_id s = used)
  /\ (forall other, other <> used ->
        get_session other store' = get_session other store).
Proof.
  unfold create_or_update_session, new_session, get_session.
  destruct given as [sid|]; [destruct (str_truthy sid) eqn:Et|].
  - destruct (sessions_get sid store) as [old|] eqn:Eg; cbn [fst snd mode].
    + split; [reflexivity|]. split; [apply sessions_get_set_same|].
      split.
      * intros sid' old' H1 _ H2. inversion H1; subst sid'.
        rewrite Eg in H2. inversion H2; subst. split; reflexivity.
      * split.
        -- intros [H|[H|H]]; try discriminate.
           ++ inversion H; subst. discriminate Et.
        -- intros other Hne. apply sessions_get_set_other, Hne.
    + split; [reflexivity|]. split; [apply sessions_get_set_same|].
      split.
      * intros sid' old' H1 _ H2. inversion H1; subst sid'.
        rewrite Eg in H2. discriminate.
      * split; [intros _; split; reflexivity|].
        intros other Hne. apply sessions_get_set_other, Hne.
  - cbn [fst snd mode]. split; [reflexivity|].
    split; [apply sessions_get_set_same|]. split.
    + intros sid' old' H1 Ht. inversion H1; subst sid'. congruence.
    + split; [intros _; split; reflexivity|].
      intros other Hne. apply sessions_get_set_other, Hne.
  - cbn [fst snd mode]. split; [reflexivity|].
    split; [apply sessions_get_set_same|]. split.
    + intros sid' old' H1. discriminate.
    + split; [intros _; split; reflexivity|].
      intros other Hne. apply sessions_get_set_other, Hne.
Qed.

Variables SYSTEM_EXPERT SYSTEM_BALANCED SYSTEM_GUIDED : string.

(** X29.  Every turn that completes adds one exchange to the history.  When
    [chat_turn] returns, the session has its id and mode unchanged and
    its messages are the earlier ones followed by exactly one [user]
    message and one [assistant] message, the latter being the reply
    returned.  The user message recorded is the text given; only when
    the assistant is configured and installed is an empty text recorded
    as [[Image attached]], whether an image was attached or not.
    Without an API key, or without the package, no request is sent and
    the reply is a fixed notice. *)
Theorem chat_turn_appends_one_exchange
  (env : ChatEnv) (session s' : Session) (user_message reply : string)
  (image_base64 image_media_type : option string) (sent : option request) :
  chat_turn SYSTEM_EXPERT SYSTEM_BALANCED SYSTEM_GUIDED env session user_message
    image_base64 image_media_type = TurnDone reply s' sent ->
  let configured :=
    opt_truthy (environ env "ANTHROPIC_API_KEY") && anthropic_installed env in
  let recorded :=
    if configured && negb (str_truthy user_message) then "[Image attached]"
    else user_message in
  messages s'
  = (messages session
     ++ [mkMessage "user" recorded; mkMessage "assistant" reply])%list
  /\ session_id s' = session_id session
  /\ mode s' = mode session
  /\ (sent <> None <-> configured = true)
  /\ (opt_truthy (environ env "ANTHROPIC_API_KEY") = false ->
      reply = NOT_CONFIGURED)
  /\ (opt_truthy (environ env "ANTHROPIC_API_KEY") = true ->
      anthropic_installed env = false -> reply = NOT_INSTALLED).
Proof.
  unfold chat_turn.
  destruct (opt_truthy (environ env "ANTHROPIC_API_KEY")) eqn:Ek; cbn [negb].
  2:{ intros H. inversion H; subst. cbn [andb]. unfold append.
      cbn [messages session_id mode]. rewrite <- app_assoc.
      repeat split; try reflexivity; try congruence; try discriminate. }
  destruct (anthropic_installed env) eqn:Ei; cbn [negb].
  2:{ intros H. inversion H; subst. cbn [andb]. unfold append.
      cbn [messages session_id mode]. rewrite <- app_assoc.
      repeat split; try reflexivity; try congruence; try discriminate. }
  destruct (new_client env _); cbn [negb]; [|discriminate].
  destruct (parse_int env _) as [max_tokens|]; [|discriminate].
  intros H. inversion H; subst. cbn [andb]. unfold append.
  cbn [messages session_id mode]. rewrite <- app_assoc.
  destruct (str_truthy user_message); cbn [negb];
    repeat split; try reflexivity; try congruence; try discriminate.
Qed.

(** X30.  What is sent to the model.  A request that [chat_turn] sends
    carries the system prompt of the session's mode and, as messages,
    the whole earlier history in order, each as plain text under the
    role [user] or [assistant], followed by exactly one [user] message
    for the current turn.  An image travels only in that last message,
    and only when both the image data and its media type are non-empty:
    the history never carries one. *)
Theorem chat_turn_sends_history_then_current_message
  (env : ChatEnv) (session s' : Session) (user_message reply : string)
  (image_base64 image_media_type : option string) (req : request) :
  chat_turn SYSTEM_EXPERT SYSTEM_BALANCED SYSTEM_GUIDED env session user_message
    image_base64 image_media_type = TurnDone reply s' (Some req) ->
  req_system req
  = get_system_prompt SYSTEM_EXPERT SYSTEM_BALANCED SYSTEM_GUIDED (mode session)
  /\ exists current,
       req_messages req
       = (map (fun m => (if String.eqb (role m) "user" then "user"
                         else "assistant", Text (content m)))
            (messages session)
          ++ [("user", current)])%list
       /\ ((exists media_type data text,
              current = ImageAndText media_type data text)
           <-> opt_truthy image_base64 && opt_truthy image_media_type = true)
       /\ (reply = match create env req with
                   | inl text => text
                   | inr str_e =>
                       "Sorry, the assistant encountered an error: " ++ str_e
                   end).
Proof.
  unfold chat_turn.
  destruct (negb (opt_truthy (environ env "ANTHROPIC_API_KEY")));
    [discriminate|].
  destruct (negb (anthropic_installed env)); [discriminate|].
  destruct (negb (new_client env _)); [discriminate|].
  destruct (parse_int env _) as [max_tokens|]; [|discriminate].
  intros H. inversion H; subst. clear H. cbn [req_system req_messages].
  split; [reflexivity|]. eexists. split; [reflexivity|].
  split; [|reflexivity].
  destruct image_base64 as [data|], image_media_type as [media_type|];
    cbn [opt_truthy andb].
  - destruct (str_truthy data && str_truthy media_type); split;
      try discriminate; try reflexivity.
    + intros _. eexists _, _, _. reflexivity.
    + intros [m [d [t Ht]]]. discriminate Ht.
  - split; [intros [m [d [t Ht]]]; discriminate Ht|].
    rewrite andb_false_r. discriminate.
  - split; [intros [m [d [t Ht]]]; discriminate Ht|discriminate].
  - split; [intros [m [d [t Ht]]]; discriminate Ht|discriminate].
Qed.

End Sessions.

Section SessionExamples.

Import Conversation ConversationExamples.
Local Open Scope string_scope.

Lemma session_store_keeps_what_it_holds_witness :
  messages (fst (create_or_update_session (Some "abc") "guided" "uuid-1"
                   [("abc", earlier_session)]))
  = messages earlier_session
  /\ session_id (fst (create_or_update_session (Some "abc") "guided" "uuid-1"
                        [("abc", earlier_session)]))
     = session_id earlier_session.
Proof.
  apply (proj1 (proj2 (proj2 (session_store_keeps_what_it_holds (Some "abc")
                                "guided" "uuid-1" [("abc", earlier_session)])))
           "abc" earlier_session eq_refl eq_refl eq_refl).
Defined.

Lemma chat_turn_appends_one_exchange_witness :
  messages sample_session_after
  = (messages earlier_session
     ++ [mkMessage "user" "[Image attached]";
         mkMessage "assistant" "Use S3 versioning."])%list
  /\ session_id sample_session_after = session_id earlier_session
  /\ mode sample_session_after = mode earlier_session.
Proof.
  pose proof (chat_turn_appends_one_exchange "expert prompt" "balanced prompt"
                "guided prompt" chat_env earlier_session sample_session_after
                "" "Use S3 versioning." (Some "aGVsbG8=") (Some "image/png")
                (Some sample_request) eq_refl) as H.
  cbv zeta in H. destruct H as [H1 [H2 [H3 _]]].
  split; [exact H1|]. split; [exact H2|exact H3].
Defined.

Lemma chat_turn_sends_history_then_current_message_witness :
  req_system sample_request
  = get_system_prompt "expert prompt" "balanced prompt" "guided prompt"
      (mode earlier_session).
Proof.
  apply (proj1 (chat_turn_sends_history_then_current_message "expert prompt"
                  "balanced prompt" "guided prompt" chat_env earlier_session
                  sample_session_after "" "Use S3 versioning."
                  (Some "aGVsbG8=") (Some "image/png") sample_request
                  eq_refl)).
Defined.

End SessionExamples.

